(** * hashnode-client: the request orchestration layer and the webhook helper

    A shallow embedding of
      - [webhooks.js]        (signature verification, payload validation),
      - [graphql-client.ts]  (the transport, [GraphQLClient.query]),
      - [service.ts]         ([HashnodeService]: envelope validation, the
                              extended/basic fallback of the two post queries),
      - [index.js]           (the facade wrappers),
      - [config.js]          (the constants),
    together with the platform primitives they call (HMAC-SHA256, [fetch],
    JSON), and the properties of the specification proved over it. *)

From Stdlib Require Import ZArith List String Ascii Bool Lia DecimalString.
From Stdlib Require DecimalPos DecimalFacts.
Import ListNotations.

Set Warnings "-register-all".

Local Open Scope string_scope.
Local Open Scope Z_scope.

(* ===================================================================== *)
(** ** JavaScript values, thrown values, completions *)
(* ===================================================================== *)

(** Plain JavaScript data: what [JSON.parse] produces, plus [undefined].
    Strings are byte strings holding the UTF-8 form of the text; numbers are
    modelled by their integer values (counts, page sizes, status codes).
    An object is its list of own properties in insertion order. *)
Inductive JsValue : Type :=
| JUndefined
| JNull
| JBool (b : bool)
| JNum (n : Z)
| JStr (s : string)
| JArr (items : list JsValue)
| JObj (props : list (string * JsValue)).

(** Induction on values that reaches into arrays and objects. *)
Section Nested_induction.
Variable P : JsValue -> Prop.
Hypothesis Hundefined : P JUndefined.
Hypothesis Hnull : P JNull.
Hypothesis Hbool : forall b, P (JBool b).
Hypothesis Hnum : forall n, P (JNum n).
Hypothesis Hstr : forall s, P (JStr s).
Hypothesis Harr : forall items, Forall P items -> P (JArr items).
Hypothesis Hobj : forall props, Forall (fun kv => P (snd kv)) props -> P (JObj props).

Fixpoint JsValue_nested_ind (v : JsValue) : P v :=
  match v with
  | JUndefined => Hundefined
  | JNull => Hnull
  | JBool b => Hbool b
  | JNum n => Hnum n
  | JStr s => Hstr s
  | JArr items =>
      Harr items
        ((fix all (l : list JsValue) : Forall P l :=
            match l with
            | [] => Forall_nil P
            | x :: rest => Forall_cons x (JsValue_nested_ind x) (all rest)
            end) items)
  | JObj props =>
      Hobj props
        ((fix all (l : list (string * JsValue)) : Forall (fun kv => P (snd kv)) l :=
            match l with
            | [] => Forall_nil _
            | kv :: rest => Forall_cons kv (JsValue_nested_ind (snd kv)) (all rest)
            end) props)
  end.
End Nested_induction.

(** The constructors the client meets when something is thrown. *)
Inductive ErrorClass : Type :=
| ClsError | ClsTypeError | ClsRangeError | ClsSyntaxError | ClsDOMException.

(** A thrown value: a built-in error object, the client's own [GraphQLError]
    (graphql-client.ts: message, status, statusText, data), or any other
    value ([throw] accepts everything). *)
Inductive JsThrown : Type :=
| ErrorObj (cls : ErrorClass) (message : string)
| GraphQLErrorObj (message : string) (status : option Z)
                  (statusText : option string) (data : option string)
| ThrownValue (v : JsValue).

Definition new_Error (message : string) : JsThrown := ErrorObj ClsError message.
Definition new_TypeError (message : string) : JsThrown := ErrorObj ClsTypeError message.

(** The outcome of evaluating synchronous code. *)
Inductive Completion (A : Type) : Type :=
| Return (a : A)
| Throw (e : JsThrown).
Arguments Return {A} a.
Arguments Throw {A} e.

Definition cbind {A B} (c : Completion A) (k : A -> Completion B) : Completion B :=
  match c with
  | Return a => k a
  | Throw e => Throw e
  end.

(** [try { body } catch (e) { handler e }] *)
Definition try_catch {A} (body : Completion A) (handler : JsThrown -> Completion A)
  : Completion A :=
  match body with
  | Return a => Return a
  | Throw e => handler e
  end.

Declare Scope js_scope.
Delimit Scope js_scope with js.
Notation "'let?' x ':=' c 'in' k" := (cbind c (fun x => k))
  (at level 10, x name, c at level 100, k at level 200) : js_scope.
Local Open Scope js_scope.

(** ToBoolean. *)
Definition truthy (v : JsValue) : bool :=
  match v with
  | JUndefined | JNull => false
  | JBool b => b
  | JNum n => negb (n =? 0)
  | JStr s => negb (s =? "")%string
  | JArr _ | JObj _ => true
  end.

(** [typeof v === 'string'] *)
Definition typeof_string (v : JsValue) : bool :=
  match v with JStr _ => true | _ => false end.

Fixpoint lookup (k : string) (props : list (string * JsValue)) : option JsValue :=
  match props with
  | [] => None
  | (k', v) :: rest => if (k =? k')%string then Some v else lookup k rest
  end.

Definition has_own (k : string) (props : list (string * JsValue)) : bool :=
  match lookup k props with Some _ => true | None => false end.

(** [delete o[k]] *)
Fixpoint remove_key (k : string) (props : list (string * JsValue))
  : list (string * JsValue) :=
  match props with
  | [] => []
  | (k', v) :: rest =>
      if (k =? k')%string then remove_key k rest else (k', v) :: remove_key k rest
  end.

(** [o[k] = v]: an existing property keeps its place, a new one goes last. *)
Fixpoint set_key {V : Type} (k : string) (v : V) (props : list (string * V))
  : list (string * V) :=
  match props with
  | [] => [(k, v)]
  | (k', v') :: rest =>
      if (k =? k')%string then (k', v) :: rest else (k', v') :: set_key k v rest
  end.

(** [{ ...base, ...extra }] *)
Definition spread {V : Type} (base extra : list (string * V)) : list (string * V) :=
  fold_left (fun acc kv => set_key (fst kv) (snd kv) acc) extra base.

(** Property read [v.k], for the property names this client reads ([event],
    [publication], [timestamp], [post], [posts], [edges], [node]), none of
    which is inherited from a built-in prototype: reading from [null] or
    [undefined] throws, a missing property is [undefined]. *)
Definition get (v : JsValue) (k : string) : Completion JsValue :=
  match v with
  | JUndefined =>
      Throw (new_TypeError ("Cannot read properties of undefined (reading '" ++ k ++ "')"))
  | JNull =>
      Throw (new_TypeError ("Cannot read properties of null (reading '" ++ k ++ "')"))
  | JObj props => Return (match lookup k props with Some x => x | None => JUndefined end)
  | _ => Return JUndefined
  end.

(** Decimal text of an integer, as [Number.prototype.toString] prints it. *)
Definition decimal (n : Z) : string := NilZero.string_of_int (Z.to_int n).

(** ToString, as a template literal applies it.  A plain object prints as
    [[object Object]] unless an own (hence non-callable) [toString] property
    shadows the inherited method, in which case the conversion throws.  An
    array joins its elements with a comma, [null] and [undefined] elements
    printing as the empty string. *)
Fixpoint ToString (v : JsValue) : Completion string :=
  match v with
  | JUndefined => Return "undefined"
  | JNull => Return "null"
  | JBool true => Return "true"
  | JBool false => Return "false"
  | JNum n => Return (decimal n)
  | JStr s => Return s
  | JArr items =>
      (fix join (l : list JsValue) : Completion string :=
         match l with
         | [] => Return ""
         | x :: rest =>
             let? sx := match x with
                        | JUndefined | JNull => Return ""
                        | _ => ToString x
                        end in
             match rest with
             | [] => Return sx
             | _ => let? sr := join rest in Return (sx ++ "," ++ sr)
             end
         end) items
  | JObj props =>
      if has_own "toString" props
      then Throw (new_TypeError "Cannot convert object to primitive value")
      else Return "[object Object]"
  end.

(** [Array.prototype.join] over strings. *)
Definition join (sep : string) (l : list string) : string := String.concat sep l.

(** [s] with the prefix [p] removed, when it starts with [p]. *)
Fixpoint strip_prefix (p s : string) : option string :=
  match p, s with
  | EmptyString, _ => Some s
  | String a p', String b s' => if (a =? b)%char then strip_prefix p' s' else None
  | _, _ => None
  end.

Definition bytes (codes : list Z) : string :=
  string_of_list_ascii (map (fun n => ascii_of_nat (Z.to_nat n)) codes).

(** The UTF-8 forms of the code points [String.prototype.trim] strips:
    WhiteSpace (TAB, VT, FF, SP, NBSP, ZWNBSP, category Zs) and
    LineTerminator (LF, CR, LS, PS). *)
Definition WhiteSpace : list string :=
  [ bytes [9]; bytes [10]; bytes [11]; bytes [12]; bytes [13]; bytes [32];
    bytes [194; 160];                                   (* U+00A0 *)
    bytes [225; 154; 128];                              (* U+1680 *)
    bytes [226; 128; 128]; bytes [226; 128; 129]; bytes [226; 128; 130];
    bytes [226; 128; 131]; bytes [226; 128; 132]; bytes [226; 128; 133];
    bytes [226; 128; 134]; bytes [226; 128; 135]; bytes [226; 128; 136];
    bytes [226; 128; 137]; bytes [226; 128; 138];       (* U+2000 .. U+200A *)
    bytes [226; 128; 168]; bytes [226; 128; 169];       (* U+2028, U+2029 *)
    bytes [226; 128; 175];                              (* U+202F *)
    bytes [226; 129; 159];                              (* U+205F *)
    bytes [227; 128; 128];                              (* U+3000 *)
    bytes [239; 187; 191] ].                            (* U+FEFF *)

Fixpoint strip_first (toks : list string) (s : string) : option string :=
  match toks with
  | [] => None
  | t :: more =>
      match strip_prefix t s with
      | Some rest => Some rest
      | None => strip_first more s
      end
  end.

Fixpoint strip_all (fuel : nat) (toks : list string) (s : string) : string :=
  match fuel with
  | O => s
  | S fuel' =>
      match strip_first toks s with
      | Some rest => strip_all fuel' toks rest
      | None => s
      end
  end.

Definition reverse (s : string) : string :=
  string_of_list_ascii (rev (list_ascii_of_string s)).

Definition trimStart (s : string) : string :=
  strip_all (String.length s) WhiteSpace s.

Definition trimEnd (s : string) : string :=
  reverse (strip_all (String.length s) (map reverse WhiteSpace) (reverse s)).

(** [String.prototype.trim] *)
Definition trim (s : string) : string := trimEnd (trimStart s).

(** The text of a value whose [typeof] is ['string']. *)
Definition string_of (v : JsValue) : string :=
  match v with JStr s => s | _ => "" end.

Fixpoint mapM {A B} (f : A -> Completion B) (l : list A) : Completion (list B) :=
  match l with
  | [] => Return []
  | x :: rest => let? y := f x in let? ys := mapM f rest in Return (y :: ys)
  end.

(** [receiver.map(f)] on plain data: only an array has a callable [map]. *)
Definition Array_map (f : JsValue -> Completion JsValue) (receiver : JsValue)
  : Completion (list JsValue) :=
  match receiver with
  | JArr items => mapM f items
  | JUndefined =>
      Throw (new_TypeError "Cannot read properties of undefined (reading 'map')")
  | JNull => Throw (new_TypeError "Cannot read properties of null (reading 'map')")
  | _ => Throw (new_TypeError "map is not a function")
  end.

(* ===================================================================== *)
(** ** Node's [crypto]: HMAC-SHA256, hex digests, [timingSafeEqual] *)
(* ===================================================================== *)

(** SHA-256 (FIPS 180-4) on 32-bit words held in [Z], additions taken modulo
    [2^32]; HMAC (RFC 2104) over it.  [Buffer.from(s)] of a string is the list
    of its UTF-8 bytes, which is what the byte string already holds. *)
Module Sha256.

Local Open Scope list_scope.

Definition mask32 : Z := 0xFFFFFFFF.
Definition add32 (a b : Z) : Z := (a + b) mod 2 ^ 32.
Definition rotr (n x : Z) : Z :=
  Z.lor (Z.shiftr x n) (Z.land (Z.shiftl x (32 - n)) mask32).
Definition not32 (x : Z) : Z := Z.lxor x mask32.

Definition Ch (x y z : Z) : Z := Z.lxor (Z.land x y) (Z.land (not32 x) z).
Definition Maj (x y z : Z) : Z :=
  Z.lxor (Z.lxor (Z.land x y) (Z.land x z)) (Z.land y z).
Definition Sigma0 (x : Z) : Z := Z.lxor (Z.lxor (rotr 2 x) (rotr 13 x)) (rotr 22 x).
Definition Sigma1 (x : Z) : Z := Z.lxor (Z.lxor (rotr 6 x) (rotr 11 x)) (rotr 25 x).
Definition sigma0 (x : Z) : Z := Z.lxor (Z.lxor (rotr 7 x) (rotr 18 x)) (Z.shiftr x 3).
Definition sigma1 (x : Z) : Z := Z.lxor (Z.lxor (rotr 17 x) (rotr 19 x)) (Z.shiftr x 10).

(** The first sixty-four primes. *)
Definition primes : list Z :=
  [ 2; 3; 5; 7; 11; 13; 17; 19; 23; 29; 31; 37; 41; 43; 47; 53;
    59; 61; 67; 71; 73; 79; 83; 89; 97; 101; 103; 107; 109; 113; 127; 131;
    137; 139; 149; 151; 157; 163; 167; 173; 179; 181; 191; 193; 197; 199; 211; 223;
    227; 229; 233; 239; 241; 251; 257; 263; 269; 271; 277; 281; 283; 293; 307; 311 ].

(** Integer cube root by bisection: the [r] in [lo, hi) with
    [r^3 <= n < (r+1)^3], given [lo^3 <= n < hi^3]. *)
Fixpoint cbrt_between (fuel : nat) (lo hi n : Z) : Z :=
  match fuel with
  | O => lo
  | S fuel' =>
      let mid := (lo + hi) / 2 in
      if mid =? lo then lo
      else if mid * mid * mid <=? n then cbrt_between fuel' mid hi n
      else cbrt_between fuel' lo mid n
  end.

(** The first 32 bits of the fractional part of the cube root of [p]. *)
Definition frac_cbrt32 (p : Z) : Z :=
  cbrt_between 40 0 (2 ^ 35) (p * 2 ^ 96) mod 2 ^ 32.

(** The first 32 bits of the fractional part of the square root of [p]. *)
Definition frac_sqrt32 (p : Z) : Z := Z.sqrt (p * 2 ^ 64) mod 2 ^ 32.

(** The round constants: from the cube roots of the first 64 primes. *)
Definition K : list Z := Eval vm_compute in map frac_cbrt32 primes.

(** The eight working variables [a .. h]. *)
Record State : Type := mkState
  { ra : Z; rb : Z; rc : Z; rd : Z; re : Z; rf : Z; rg : Z; rh : Z }.

(** The initial hash value: from the square roots of the first 8 primes. *)
Definition H0 : State :=
  Eval vm_compute in
    mkState (frac_sqrt32 2) (frac_sqrt32 3) (frac_sqrt32 5) (frac_sqrt32 7)
            (frac_sqrt32 11) (frac_sqrt32 13) (frac_sqrt32 17) (frac_sqrt32 19).

Definition nthw (w : list Z) (i : nat) : Z := nth i w 0.

(** Message schedule: [n] further words after the [t] already present. *)
Fixpoint schedule (n t : nat) (w : list Z) : list Z :=
  match n with
  | O => w
  | S n' =>
      let wt := add32 (add32 (sigma1 (nthw w (t - 2))) (nthw w (t - 7)))
                      (add32 (sigma0 (nthw w (t - 15))) (nthw w (t - 16))) in
      schedule n' (S t) (w ++ [wt])
  end.

Definition round (s : State) (kw : Z * Z) : State :=
  let t1 := add32 (add32 (add32 (rh s) (Sigma1 (re s))) (Ch (re s) (rf s) (rg s)))
                  (add32 (fst kw) (snd kw)) in
  let t2 := add32 (Sigma0 (ra s)) (Maj (ra s) (rb s) (rc s)) in
  mkState (add32 t1 t2) (ra s) (rb s) (rc s) (add32 (rd s) t1) (re s) (rf s) (rg s).

Definition compress (h : State) (block : list Z) : State :=
  let s := fold_left round (combine K (schedule 48 16 block)) h in
  mkState (add32 (ra h) (ra s)) (add32 (rb h) (rb s)) (add32 (rc h) (rc s))
          (add32 (rd h) (rd s)) (add32 (re h) (re s)) (add32 (rf h) (rf s))
          (add32 (rg h) (rg s)) (add32 (rh h) (rh s)).

(** Big-endian bytes of the low [n] bytes of [x]. *)
Fixpoint be_bytes (n : nat) (x : Z) : list Z :=
  match n with
  | O => []
  | S n' => Z.land (Z.shiftr x (8 * Z.of_nat n')) 0xFF :: be_bytes n' x
  end.

Definition pad (msg : list Z) : list Z :=
  let len := Z.of_nat (List.length msg) in
  msg ++ [0x80] ++ repeat 0 (Z.to_nat ((55 - len) mod 64)) ++ be_bytes 8 (8 * len).

(** Big-endian 32-bit words of a byte list (four bytes a word). *)
Fixpoint words (fuel : nat) (bytes : list Z) : list Z :=
  match fuel, bytes with
  | S fuel', b0 :: b1 :: b2 :: b3 :: rest =>
      (b0 * 2 ^ 24 + b1 * 2 ^ 16 + b2 * 2 ^ 8 + b3) :: words fuel' rest
  | _, _ => []
  end.

(** Fold [compress] over the 16-word blocks. *)
Fixpoint blocks (fuel : nat) (h : State) (w : list Z) : State :=
  match fuel, w with
  | S fuel', _ :: _ => blocks fuel' (compress h (firstn 16 w)) (skipn 16 w)
  | _, _ => h
  end.

Definition digest_words (s : State) : list Z :=
  [ra s; rb s; rc s; rd s; re s; rf s; rg s; rh s].

Definition sha256 (msg : list Z) : list Z :=
  let p := pad msg in
  let w := words (List.length p) p in
  flat_map (be_bytes 4) (digest_words (blocks (List.length w) H0 w)).

(** RFC 2104, block size 64. *)
Definition hmac (key msg : list Z) : list Z :=
  let k0 := if (64 <? Z.of_nat (List.length key)) then sha256 key else key in
  let k := k0 ++ repeat 0 (64 - List.length k0) in
  sha256 (map (Z.lxor 0x5c) k ++ sha256 (map (Z.lxor 0x36) k ++ msg)).

Definition hex_digit (n : Z) : ascii :=
  ascii_of_nat (Z.to_nat (if n <? 10 then 48 + n else 87 + n)).

(** [digest('hex')]: two lower-case digits a byte. *)
Fixpoint hex (bytes : list Z) : string :=
  match bytes with
  | [] => ""
  | b :: rest =>
      String (hex_digit (Z.land (Z.shiftr b 4) 0xF))
             (String (hex_digit (Z.land b 0xF)) (hex rest))
  end.

End Sha256.

(** [Buffer.from(s)] *)
Definition Buffer_from (s : string) : list Z :=
  map (fun c => Z.of_nat (nat_of_ascii c)) (list_ascii_of_string s).

(** [crypto.createHmac('sha256', secret).update(payload).digest('hex')] *)
Definition createHmac_sha256_hex (secret payload : string) : string :=
  Sha256.hex (Sha256.hmac (Buffer_from secret) (Buffer_from payload)).

(** [crypto.timingSafeEqual(a, b)]: throws on buffers of different byte
    length, otherwise tells whether they hold the same bytes. *)
Definition timingSafeEqual (a b : list Z) : Completion bool :=
  if (List.length a =? List.length b)%nat
  then Return (forallb (fun p => fst p =? snd p) (combine a b))
  else Throw (ErrorObj ClsRangeError "Input buffers must have the same byte length").

(* ===================================================================== *)
(** ** An executable JSON codec *)
(* ===================================================================== *)

(** [JSON.stringify] and [JSON.parse] are platform functions; the client's
    code below takes them as parameters.  [IntJson] is an executable instance
    on the JSON this client exchanges: integer number literals, strings with
    the standard escapes (basic-plane [\u] escapes outside the surrogate
    range), arrays and objects.  It prints the way [JSON.stringify] does
    (no white space, [undefined] properties dropped, [undefined] array items
    as [null]) and reads any white space the grammar allows. *)
Module IntJson.

Definition dquote : ascii := "034"%char.
Definition backslash : ascii := "092"%char.

Definition code (c : ascii) : Z := Z.of_nat (nat_of_ascii c).
Definition chr (n : Z) : ascii := ascii_of_nat (Z.to_nat n).

Definition hex4 (n : Z) : string :=
  String (Sha256.hex_digit (Z.land (Z.shiftr n 12) 0xF))
    (String (Sha256.hex_digit (Z.land (Z.shiftr n 8) 0xF))
       (String (Sha256.hex_digit (Z.land (Z.shiftr n 4) 0xF))
          (String (Sha256.hex_digit (Z.land n 0xF)) ""))).

Definition escape_char (c : ascii) : string :=
  let n := code c in
  if n =? 34 then String backslash (String dquote "")
  else if n =? 92 then String backslash (String backslash "")
  else if n =? 8 then String backslash "b"
  else if n =? 12 then String backslash "f"
  else if n =? 10 then String backslash "n"
  else if n =? 13 then String backslash "r"
  else if n =? 9 then String backslash "t"
  else if n <? 32 then String backslash ("u" ++ hex4 n)
  else String c "".

Fixpoint escape (s : string) : string :=
  match s with
  | EmptyString => ""
  | String c rest => escape_char c ++ escape rest
  end.

Definition quote (s : string) : string :=
  String dquote (escape s ++ String dquote "").

Fixpoint str (v : JsValue) : string :=
  match v with
  | JUndefined | JNull => "null"
  | JBool true => "true"
  | JBool false => "false"
  | JNum n => decimal n
  | JStr s => quote s
  | JArr items =>
      "[" ++ String.concat ","
               ((fix each (l : list JsValue) : list string :=
                   match l with
                   | [] => []
                   | x :: rest => str x :: each rest
                   end) items) ++ "]"
  | JObj props =>
      "{" ++ String.concat ","
               ((fix each (l : list (string * JsValue)) : list string :=
                   match l with
                   | [] => []
                   | (_, JUndefined) :: rest => each rest
                   | (k, x) :: rest => (quote k ++ ":" ++ str x) :: each rest
                   end) props) ++ "}"
  end.

(** [JSON.stringify(v)]: [undefined] itself has no JSON text. *)
Definition stringify (v : JsValue) : option string :=
  match v with
  | JUndefined => None
  | _ => Some (str v)
  end.

Definition is_ws (c : ascii) : bool :=
  let n := code c in (n =? 32) || (n =? 9) || (n =? 10) || (n =? 13).

Fixpoint skip_ws (s : string) : string :=
  match s with
  | String c rest => if is_ws c then skip_ws rest else s
  | EmptyString => s
  end.

Definition is_digit (c : ascii) : bool := (48 <=? code c) && (code c <=? 57).

(** The decimal digit a character stands for, as a constructor of
    [Decimal.uint]. *)
Definition digit_of (c : ascii) : option (Decimal.uint -> Decimal.uint) :=
  let n := code c in
  if n =? 48 then Some Decimal.D0 else if n =? 49 then Some Decimal.D1
  else if n =? 50 then Some Decimal.D2 else if n =? 51 then Some Decimal.D3
  else if n =? 52 then Some Decimal.D4 else if n =? 53 then Some Decimal.D5
  else if n =? 54 then Some Decimal.D6 else if n =? 55 then Some Decimal.D7
  else if n =? 56 then Some Decimal.D8 else if n =? 57 then Some Decimal.D9
  else None.

(** The longest run of digits at the head of [s], and what follows it. *)
Fixpoint read_digits (s : string) : Decimal.uint * string :=
  match s with
  | String c rest =>
      match digit_of c with
      | Some d => let '(u, r) := read_digits rest in (d u, r)
      | None => (Decimal.Nil, s)
      end
  | EmptyString => (Decimal.Nil, s)
  end.

(** A fraction or an exponent follows. *)
Definition continues (r : string) : bool :=
  match r with
  | String d _ => (code d =? 46) || (code d =? 101) || (code d =? 69)
  | EmptyString => false
  end.

(** An integer literal: [0] or a non-zero digit followed by digits; a
    fraction or exponent part is outside this instance. *)
Definition parse_nat (s : string) : option (Z * string) :=
  let '(u, r) := read_digits s in
  match u with
  | Decimal.Nil => None
  | Decimal.D0 (Decimal.D0 _ | Decimal.D1 _ | Decimal.D2 _ | Decimal.D3 _
               | Decimal.D4 _ | Decimal.D5 _ | Decimal.D6 _ | Decimal.D7 _
               | Decimal.D8 _ | Decimal.D9 _) => None
  | _ => if continues r then None else Some (Z.of_uint u, r)
  end.

Definition hex_value (c : ascii) : option Z :=
  let n := code c in
  if (48 <=? n) && (n <=? 57) then Some (n - 48)
  else if (97 <=? n) && (n <=? 102) then Some (n - 87)
  else if (65 <=? n) && (n <=? 70) then Some (n - 55)
  else None.

(** UTF-8 bytes of a basic-plane code point outside the surrogate range. *)
Definition utf8 (cp : Z) : option string :=
  if cp <? 0x80 then Some (String (chr cp) "")
  else if cp <? 0x800 then
    Some (String (chr (0xC0 + Z.shiftr cp 6)) (String (chr (0x80 + Z.land cp 0x3F)) ""))
  else if (0xD800 <=? cp) && (cp <=? 0xDFFF) then None
  else Some (String (chr (0xE0 + Z.shiftr cp 12))
               (String (chr (0x80 + Z.land (Z.shiftr cp 6) 0x3F))
                  (String (chr (0x80 + Z.land cp 0x3F)) ""))).

(** The characters of a string literal after its opening quote. *)
Fixpoint parse_chars (fuel : nat) (s : string) : option (string * string) :=
  match fuel, s with
  | S fuel', String c rest =>
      if (c =? dquote)%char then Some ("", rest)
      else if (c =? backslash)%char then
        match rest with
        | String e rest' =>
            let plain (b : Z) :=
              match parse_chars fuel' rest' with
              | Some (t, r) => Some (String (chr b) t, r)
              | None => None
              end in
            if (e =? dquote)%char then plain 34
            else if (e =? backslash)%char then plain 92
            else if (e =? "/")%char then plain 47
            else if (e =? "b")%char then plain 8
            else if (e =? "f")%char then plain 12
            else if (e =? "n")%char then plain 10
            else if (e =? "r")%char then plain 13
            else if (e =? "t")%char then plain 9
            else if (e =? "u")%char then
              match rest' with
              | String h3 (String h2 (String h1 (String h0 rest''))) =>
                  match hex_value h3, hex_value h2, hex_value h1, hex_value h0 with
                  | Some a, Some b, Some c', Some d =>
                      match utf8 (4096 * a + 256 * b + 16 * c' + d),
                            parse_chars fuel' rest'' with
                      | Some u, Some (t, r) => Some (u ++ t, r)
                      | _, _ => None
                      end
                  | _, _, _, _ => None
                  end
              | _ => None
              end
            else None
        | EmptyString => None
        end
      else if code c <? 32 then None
      else match parse_chars fuel' rest with
           | Some (t, r) => Some (String c t, r)
           | None => None
           end
  | _, _ => None
  end.

Definition parse_string (s : string) : option (string * string) :=
  match s with
  | String c rest => if (c =? dquote)%char then parse_chars (String.length s) rest else None
  | EmptyString => None
  end.

Fixpoint parse_value (fuel : nat) (s : string) : option (JsValue * string) :=
  match fuel with
  | O => None
  | S fuel' =>
      let s := skip_ws s in
      match s with
      | EmptyString => None
      | String c rest =>
          if (c =? "[")%char then
            match skip_ws rest with
            | String "]" r => Some (JArr [], r)
            | _ => match parse_items fuel' rest with
                   | Some (items, r) => Some (JArr items, r)
                   | None => None
                   end
            end
          else if (c =? "{")%char then
            match skip_ws rest with
            | String "}" r => Some (JObj [], r)
            | _ => match parse_members fuel' rest with
                   | Some (members, r) =>
                       Some (JObj (fold_left (fun acc kv => set_key (fst kv) (snd kv) acc)
                                             members []), r)
                   | None => None
                   end
            end
          else if (c =? dquote)%char then
            match parse_string s with
            | Some (t, r) => Some (JStr t, r)
            | None => None
            end
          else if (c =? "-")%char then
            match parse_nat rest with
            | Some (n, r) => Some (JNum (- n), r)
            | None => None
            end
          else if is_digit c then
            match parse_nat s with
            | Some (n, r) => Some (JNum n, r)
            | None => None
            end
          else
            match strip_prefix "null" s, strip_prefix "true" s, strip_prefix "false" s with
            | Some r, _, _ => Some (JNull, r)
            | _, Some r, _ => Some (JBool true, r)
            | _, _, Some r => Some (JBool false, r)
            | _, _, _ => None
            end
      end
  end

with parse_items (fuel : nat) (s : string) : option (list JsValue * string) :=
  match fuel with
  | O => None
  | S fuel' =>
      match parse_value fuel' s with
      | Some (v, r) =>
          match skip_ws r with
          | String "," r' =>
              match parse_items fuel' r' with
              | Some (vs, r'') => Some (v :: vs, r'')
              | None => None
              end
          | String "]" r' => Some ([v], r')
          | _ => None
          end
      | None => None
      end
  end

with parse_members (fuel : nat) (s : string)
  : option (list (string * JsValue) * string) :=
  match fuel with
  | O => None
  | S fuel' =>
      match parse_string (skip_ws s) with
      | Some (k, r) =>
          match skip_ws r with
          | String ":" r' =>
              match parse_value fuel' r' with
              | Some (v, r'') =>
                  match skip_ws r'' with
                  | String "," r3 =>
                      match parse_members fuel' r3 with
                      | Some (ms, r4) => Some ((k, v) :: ms, r4)
                      | None => None
                      end
                  | String "}" r3 => Some ([(k, v)], r3)
                  | _ => None
                  end
              | None => None
              end
          | _ => None
          end
      | None => None
      end
  end.

(** [JSON.parse(text)] *)
Definition parse (text : string) : Completion JsValue :=
  match parse_value (2 * String.length text + 2) text with
  | Some (v, rest) =>
      match skip_ws rest with
      | EmptyString => Return v
      | _ => Throw (ErrorObj ClsSyntaxError "Unexpected non-whitespace character after JSON")
      end
  | None => Throw (ErrorObj ClsSyntaxError "Unexpected token in JSON")
  end.

(** *** Notions for the round trip of the codec *)

(** No key occurs twice. *)
Fixpoint distinct (keys : list string) : bool :=
  match keys with
  | [] => true
  | k :: rest => negb (existsb (String.eqb k) rest) && distinct rest
  end.

(** JSON data: no [undefined] anywhere, no object with a repeated key. *)
Fixpoint json_data (v : JsValue) : bool :=
  match v with
  | JUndefined => false
  | JNull | JBool _ | JNum _ | JStr _ => true
  | JArr items => forallb json_data items
  | JObj props =>
      forallb (fun kv => json_data (snd kv)) props && distinct (map fst props)
  end.

(** Fuel that suffices to read back the text of a value. *)
Fixpoint need (v : JsValue) : nat :=
  match v with
  | JArr items =>
      S ((fix sum (l : list JsValue) : nat :=
            match l with
            | [] => O
            | x :: rest => S (need x + sum rest)
            end) items)
  | JObj props =>
      S ((fix sum (l : list (string * JsValue)) : nat :=
            match l with
            | [] => O
            | (_, x) :: rest => S (need x + sum rest)
            end) props)
  | _ => 1%nat
  end.

(** The same for the items of an array and the properties of an object. *)
Definition need_items (l : list JsValue) : nat :=
  fold_right (fun x acc => S (need x + acc)) O l.

Definition need_members (l : list (string * JsValue)) : nat :=
  fold_right (fun kv acc => S (need (snd kv) + acc)) O l.

(** What may follow a value in a JSON text printed without white space. *)
Definition terminated (rest : string) : Prop :=
  match rest with
  | EmptyString => True
  | String c _ => c = ","%char \/ c = "]"%char \/ c = "}"%char
  end.

(** The text of one property. *)
Definition member_text (kv : string * JsValue) : string :=
  quote (fst kv) ++ ":" ++ str (snd kv).

(** The text goes on with a digit. *)
Definition starts_digit (rest : string) : bool :=
  match rest with
  | String c _ => match digit_of c with Some _ => true | None => false end
  | EmptyString => false
  end.

(** A character a value's text may start with. *)
Definition opens (c : ascii) : Prop :=
  is_ws c = false /\ c <> "]"%char /\ c <> "}"%char.

(** The round trip of one value, given enough fuel and a proper follower. *)
Definition reads_back (v : JsValue) : Prop :=
  json_data v = true ->
  forall (fuel : nat) (rest : string),
    (need v <= fuel)%nat -> terminated rest ->
    parse_value fuel (str v ++ rest) = Some (v, rest).

(** The fuel a value needs is within the length of its text. *)
Definition fits (v : JsValue) : Prop :=
  json_data v = true -> (need v <= String.length (str v))%nat.

End IntJson.

(* ===================================================================== *)
(** ** webhooks.js: signatures and event predicates *)
(* ===================================================================== *)

(** [v === lit] for a string literal [lit]. *)
Definition strict_eq_str (v : JsValue) (lit : string) : bool :=
  match v with
  | JStr s => (s =? lit)%string
  | _ => false
  end.

Definition verifyWebhookSignature (payload signature secret : string)
  : Completion bool :=
  if negb (truthy (JStr payload)) || negb (truthy (JStr signature))
     || negb (truthy (JStr secret))
  then Return false
  else
    try_catch
      (let expectedSignature := createHmac_sha256_hex secret payload in
       (* Use timing-safe comparison to prevent timing attacks *)
       timingSafeEqual (Buffer_from signature) (Buffer_from expectedSignature))
      (fun _ => Return false).

Definition validEvents : list string :=
  [ "POST_PUBLISHED"; "POST_UPDATED"; "POST_DELETED";
    "STATIC_PAGE_PUBLISHED"; "STATIC_PAGE_UPDATED"; "STATIC_PAGE_DELETED" ].

(** [validEvents.includes(event)] *)
Definition validEvents_includes (event : JsValue) : bool :=
  existsb (strict_eq_str event) validEvents.

Definition isPostEvent (event : JsValue) : bool :=
  strict_eq_str event "POST_PUBLISHED" || strict_eq_str event "POST_UPDATED"
  || strict_eq_str event "POST_DELETED".

Definition isStaticPageEvent (event : JsValue) : bool :=
  strict_eq_str event "STATIC_PAGE_PUBLISHED"
  || strict_eq_str event "STATIC_PAGE_UPDATED"
  || strict_eq_str event "STATIC_PAGE_DELETED".

Definition generateWebhookSignature (payload secret : string) : string :=
  createHmac_sha256_hex secret payload.

(** A digit of a lower-case hexadecimal numeral. *)
Definition lower_hex (c : ascii) : bool :=
  existsb (Ascii.eqb c) (list_ascii_of_string "0123456789abcdef").

(* ===================================================================== *)
(** ** The platform: promises, [fetch] and the remote end *)
(* ===================================================================== *)

(** What becomes of a promise: it fulfils, it rejects, or it never settles. *)
Inductive Settlement (A : Type) : Type :=
| Fulfilled (a : A)
| Rejected (e : JsThrown)
| Pending.
Arguments Fulfilled {A} a.
Arguments Rejected {A} e.
Arguments Pending {A}.

(** The second argument of [fetch].  [signal] is the only handle by which
    [fetch] can be made to give up: [Some ms] stands for
    [AbortSignal.timeout(ms)]. *)
Record RequestInit : Type := mkRequestInit
  { method : string;
    headers : list (string * string);
    body : option string;
    next_revalidate : option Z;
    cache : option string;
    signal : option Z }.

(** One call of [fetch]: the URL and the init object. *)
Definition FetchCall : Type := (string * RequestInit)%type.

(** types.ts: [GraphQLError] and [GraphQLResponse<T>].  An absent [data] is
    [JUndefined]; the payload under [data] is whatever the remote sent. *)
Record GraphQLErrorEntry : Type := mkGraphQLErrorEntry
  { message : string;
    extensions_code : option string }.

Record GraphQLResponse : Type := mkGraphQLResponse
  { data : JsValue;
    errors : option (list GraphQLErrorEntry) }.

(** A [Response]: its status line and its two body readers. *)
Record Response : Type := mkResponse
  { status : Z;
    statusText : string;
    text : Settlement string;
    json : Settlement GraphQLResponse }.

(** [response.ok] *)
Definition ok (r : Response) : bool := (200 <=? status r) && (status r <=? 299).

Inductive FetchOutcome : Type :=
| NetworkError (e : JsThrown)
| HttpResponse (r : Response).

(** What the remote end does with a request: after [delay_ms] milliseconds
    ([None]: never) the outcome [reply] is delivered. *)
Record RemoteReply : Type := mkRemoteReply
  { delay_ms : option Z;
    reply : FetchOutcome }.

(** The environment of a run: the runtime flags the client looks at and the
    behaviour of the remote end, which may depend on the calls made so far. *)
Record Env : Type := mkEnv
  { next_runtime : bool;
    env_HASHNODE_PUBLICATION_HOST : option string;
    remote : list FetchCall -> FetchCall -> RemoteReply }.

(** Asynchronous code threads the log of [fetch] calls made so far. *)
Definition Async (A : Type) : Type :=
  list FetchCall -> Settlement A * list FetchCall.

Definition resolve {A} (a : A) : Async A := fun log => (Fulfilled a, log).
Definition reject {A} (e : JsThrown) : Async A := fun log => (Rejected e, log).

(** [await p] for an already created promise. *)
Definition await {A} (p : Settlement A) : Async A := fun log => (p, log).

(** Synchronous code run inside an [async] function. *)
Definition lift {A} (c : Completion A) : Async A :=
  match c with
  | Return a => resolve a
  | Throw e => reject e
  end.

Definition abind {A B} (m : Async A) (k : A -> Async B) : Async B :=
  fun log =>
    match m log with
    | (Fulfilled a, log') => k a log'
    | (Rejected e, log') => (Rejected e, log')
    | (Pending, log') => (Pending, log')
    end.

(** [try { body } catch (error) { handler error }] around awaited code. *)
Definition atry {A} (body : Async A) (handler : JsThrown -> Async A) : Async A :=
  fun log =>
    match body log with
    | (Rejected e, log') => handler e log'
    | settled => settled
    end.

Notation "x <- m ;; k" := (abind m (fun x => k))
  (at level 61, m at next level, right associativity) : js_scope.

(** How a statement of a function body completes: control falls through to
    the next statement, or the function returns. *)
Inductive StmtResult (R : Type) : Type :=
| FallThrough
| Returned (r : R).
Arguments FallThrough {R}.
Arguments Returned {R} r.

(** [stmt; rest] *)
Definition seq_stmt {R} (stmt : Async (StmtResult R)) (rest : Async R) : Async R :=
  c <- stmt ;;
  match c with
  | Returned r => resolve r
  | FallThrough => rest
  end.

Definition timeout_error : JsThrown :=
  ErrorObj ClsDOMException "The operation was aborted due to timeout".

(** [fetch(url, init)]: the call is logged; the remote's outcome arrives
    unless an abort signal fires first. *)
Definition fetch (env : Env) (url : string) (init : RequestInit) : Async Response :=
  fun log =>
    let r := remote env log (url, init) in
    let delivered :=
      match reply r with
      | NetworkError e => Rejected e
      | HttpResponse resp => Fulfilled resp
      end in
    (match signal init, delay_ms r with
     | Some t, None => Rejected timeout_error
     | Some t, Some d => if t <? d then Rejected timeout_error else delivered
     | None, None => Pending
     | None, Some _ => delivered
     end,
     (log ++ [(url, init)])%list).

(* ===================================================================== *)
(** ** config.js and queries.js *)
(* ===================================================================== *)

Definition API_URL : string := "https://gql.hashnode.com".

(** [process.env.HASHNODE_PUBLICATION_HOST || 'yourblog.hashnode.dev'] *)
Definition PUBLICATION_HOST (env : Env) : string :=
  match env_HASHNODE_PUBLICATION_HOST env with
  | Some h => if truthy (JStr h) then h else "yourblog.hashnode.dev"
  | None => "yourblog.hashnode.dev"
  end.

Definition TIMEOUT_MS : Z := 15000.
Definition MAX_POSTS_PER_REQUEST : Z := 20.
Definition DEFAULT_POSTS_COUNT : Z := 10.

Definition POST_BASE_FIELDS : string :=
  "
  id
  title
  excerpt: brief
  slug
  coverImage { url }
  publishedAt
  readTimeInMinutes
  author { name username profilePicture }
".

Definition POST_EXTENDED_FIELDS : string :=
  "
  " ++ POST_BASE_FIELDS ++ "
  tags { name slug }
".

Definition POST_FULL_FIELDS : string :=
  "
  " ++ POST_BASE_FIELDS ++ "
  content { html markdown text }
".

Definition POST_FULL_EXTENDED_FIELDS : string :=
  "
  " ++ POST_EXTENDED_FIELDS ++ "
  content { html markdown text }
".

Definition HashnodeQueries_getBlogPosts (extended : bool) : string :=
  let fields := if extended then POST_EXTENDED_FIELDS else POST_BASE_FIELDS in
  "
      query GetBlogPosts($host: String!, $first: Int!) {
        publication(host: $host) {
          posts(first: $first) {
            edges {
              node {
                " ++ fields ++ "
              }
            }
            pageInfo { hasNextPage endCursor }
          }
        }
      }
    ".

Definition HashnodeQueries_getBlogPostBySlug (extended : bool) : string :=
  let fields := if extended then POST_FULL_EXTENDED_FIELDS else POST_FULL_FIELDS in
  "
      query GetBlogPost($host: String!, $slug: String!) {
        publication(host: $host) {
          post(slug: $slug) {
            " ++ fields ++ "
          }
        }
      }
    ".

(** The queries of the single-attempt operations. *)
Definition HashnodeQueries_getPublication : string :=
  "
      query GetPublication($host: String!) {
        publication(host: $host) {
          id
          title
          displayTitle
          descriptionSEO
          about { text }
          url
          author { name username profilePicture }
          favicon
          ogMetaData { image }
        }
      }
    ".

Definition HashnodeQueries_searchPosts : string :=
  "
      query SearchPostsOfPublication($first: Int!, $after: String, $filter: SearchPostsOfPublicationFilter!) {
        searchPostsOfPublication(first: $first, after: $after, filter: $filter) {
          edges {
            node {
              " ++ POST_EXTENDED_FIELDS ++ "
            }
            cursor
          }
          pageInfo { hasNextPage endCursor }
        }
      }
    ".

Definition HashnodeQueries_getSeriesList : string :=
  "
      query GetSeriesList($host: String!, $first: Int!, $after: String) {
        publication(host: $host) {
          seriesList(first: $first, after: $after) {
            edges {
              node {
                id name slug coverImage createdAt
                description { text html markdown }
                author { name username profilePicture }
                cuid sortOrder
              }
              cursor
            }
            pageInfo { hasNextPage endCursor }
            totalDocuments
          }
        }
      }
    ".

Definition HashnodeQueries_getSeries : string :=
  "
      query GetSeries($host: String!, $slug: String!) {
        publication(host: $host) {
          series(slug: $slug) {
            id name slug coverImage createdAt
            description { text html markdown }
            author { name username profilePicture }
            cuid sortOrder
          }
        }
      }
    ".

Definition HashnodeQueries_getSeriesPosts : string :=
  "
      query GetSeriesPosts($host: String!, $seriesSlug: String!, $first: Int!, $after: String) {
        publication(host: $host) {
          series(slug: $seriesSlug) {
            posts(first: $first, after: $after) {
              edges {
                node {
                  " ++ POST_EXTENDED_FIELDS ++ "
                }
                cursor
              }
              pageInfo { hasNextPage endCursor }
              totalDocuments
            }
          }
        }
      }
    ".

Definition HashnodeQueries_getStaticPages : string :=
  "
      query GetStaticPages($host: String!, $first: Int!, $after: String) {
        publication(host: $host) {
          staticPages(first: $first, after: $after) {
            edges {
              node {
                id title slug
                content { html markdown text }
                hidden
                ogMetaData { image }
                seo { title description }
              }
              cursor
            }
            pageInfo { hasNextPage endCursor }
            totalDocuments
          }
        }
      }
    ".

Definition HashnodeQueries_getStaticPage : string :=
  "
      query GetStaticPage($host: String!, $slug: String!) {
        publication(host: $host) {
          staticPage(slug: $slug) {
            id title slug
            content { html markdown text }
            hidden
            ogMetaData { image }
            seo { title description }
          }
        }
      }
    ".

Definition HashnodeQueries_getPostComments : string :=
  "
      query GetPostComments($postId: ID!, $first: Int!, $after: String) {
        post(id: $postId) {
          comments(first: $first, after: $after) {
            edges {
              node {
                id
                content { html markdown text }
                author { name username profilePicture }
                dateAdded
                totalReactions
                myTotalReactions
              }
              cursor
            }
            pageInfo { hasNextPage endCursor }
            totalDocuments
          }
        }
      }
    ".

Definition HashnodeQueries_getRecommendedPublications : string :=
  "
      query GetRecommendedPublications($host: String!) {
        publication(host: $host) {
          recommendedPublications {
            node {
              id title displayTitle url
              author { name username profilePicture }
            }
            totalFollowersGained
          }
          totalRecommendedPublications
        }
      }
    ".

Definition HashnodeQueries_getDrafts : string :=
  "
      query GetDrafts($host: String!, $first: Int!, $after: String) {
        publication(host: $host) {
          drafts(first: $first, after: $after) {
            edges {
              node {
                id slug title subtitle
                author { name username profilePicture }
                tags { name slug }
                coverImage { url }
                dateUpdated updatedAt
              }
              cursor
            }
            pageInfo { hasNextPage endCursor }
            totalDocuments
          }
        }
      }
    ".

(* ===================================================================== *)
(** ** The side of a webhook route: console and handlers *)
(* ===================================================================== *)

(** What a webhook route leaves behind besides its answer: console lines
    (the level, the first argument, an error object passed along) and
    whatever the application's handlers do. *)
Inductive HookEvent : Type :=
| Console (level : string) (text : string) (detail : option JsThrown)
| ConsoleValue (level : string) (text : string) (arg : JsValue)
| Custom (tag : string) (v : JsValue).

(** Asynchronous code of a route threads the trace of such events. *)
Definition Hook (A : Type) : Type :=
  list HookEvent -> Settlement A * list HookEvent.

Definition hresolve {A} (a : A) : Hook A := fun tr => (Fulfilled a, tr).
Definition hreject {A} (e : JsThrown) : Hook A := fun tr => (Rejected e, tr).
Definition hawait {A} (p : Settlement A) : Hook A := fun tr => (p, tr).

Definition hlift {A} (c : Completion A) : Hook A :=
  match c with
  | Return a => hresolve a
  | Throw e => hreject e
  end.

Definition hbind {A B} (m : Hook A) (k : A -> Hook B) : Hook B :=
  fun tr =>
    match m tr with
    | (Fulfilled a, tr') => k a tr'
    | (Rejected e, tr') => (Rejected e, tr')
    | (Pending, tr') => (Pending, tr')
    end.

Definition htry {A} (body : Hook A) (handler : JsThrown -> Hook A) : Hook A :=
  fun tr =>
    match body tr with
    | (Rejected e, tr') => handler e tr'
    | settled => settled
    end.

Notation "x <~ m ;; k" := (hbind m (fun x => k))
  (at level 61, m at next level, right associativity) : js_scope.

(** [console.log], [console.warn], [console.error] *)
Definition console (level text : string) (detail : option JsThrown) : Hook unit :=
  fun tr => (Fulfilled tt, (tr ++ [Console level text detail])%list).

(** [console.log(text, arg)] with a data argument. *)
Definition console_value (level text : string) (arg : JsValue) : Hook unit :=
  fun tr => (Fulfilled tt, (tr ++ [ConsoleValue level text arg])%list).

(** [v?.k] *)
Definition get_optional (v : JsValue) (k : string) : Completion JsValue :=
  match v with
  | JUndefined | JNull => Return JUndefined
  | _ => get v k
  end.

(** webhooks.ts: [WebhookHandler] and [WebhookHandlers], a partial table
    from event names to handlers. *)
Definition WebhookHandler : Type := JsValue -> Hook unit.
Definition WebhookHandlers : Type := list (string * WebhookHandler).

(** [handlers[key]], for the event names (none of which is inherited from a
    built-in prototype). *)
Fixpoint handler_for (key : string) (handlers : WebhookHandlers)
  : option WebhookHandler :=
  match handlers with
  | [] => None
  | (k, h) :: rest => if (key =? k)%string then Some h else handler_for key rest
  end.

(** The request a route receives, as far as the example reads it: the body
    promise of [request.text()] and the [x-hashnode-signature] header. *)
Record RouteRequest : Type := mkRouteRequest
  { request_text : Settlement string;
    x_hashnode_signature : option string }.

(** [new Response(body, { status })] *)
Record RouteResponse : Type := mkRouteResponse
  { route_body : string;
    route_status : Z }.

(* ===================================================================== *)
(** ** examples/advanced-usage.ts: post navigation *)
(* ===================================================================== *)

(** [posts[i]] for an integer [i]: [undefined] outside the array. *)
Definition element (posts : list JsValue) (i : Z) : JsValue :=
  if i <? 0 then JUndefined else nth (Z.to_nat i) posts JUndefined.

(** [v || null] *)
Definition or_null (v : JsValue) : JsValue := if truthy v then v else JNull.

Record PostNavigation : Type := mkPostNavigation
  { previous : JsValue;
    current : JsValue;
    next : JsValue }.

Definition buildPostNavigation (posts : list JsValue) (currentIndex : Z)
  : PostNavigation :=
  {| previous := or_null (element posts (currentIndex - 1));
     current := element posts currentIndex;
     next := or_null (element posts (currentIndex + 1)) |}.

(* ===================================================================== *)
(** ** Sample data *)
(* ===================================================================== *)

Definition sample_publication : JsValue :=
  JObj [("id", JStr "pub-1"); ("title", JStr "Engineering notes");
        ("url", JStr "https://notes.hashnode.dev")].

Definition sample_post : JsValue :=
  JObj [("id", JStr "post-7"); ("title", JStr "Hello"); ("slug", JStr "hello");
        ("publishedAt", JStr "2024-05-01T10:00:00.000Z");
        ("url", JStr "https://notes.hashnode.dev/hello");
        ("author", JObj [("id", JStr "u-1"); ("name", JStr "Ann");
                         ("username", JStr "ann")])].

(** A well-formed webhook payload. *)
Definition sample_payload : JsValue :=
  JObj [("event", JStr "POST_PUBLISHED");
        ("data", JObj [("post", sample_post)]);
        ("publication", sample_publication);
        ("timestamp", JStr "2024-05-01T10:00:01.000Z")].

(** The JSON text of [sample_payload]. *)
Definition sample_payload_text : string :=
  match IntJson.stringify sample_payload with
  | Some text => text
  | None => ""
  end.

(** The same payload with its [timestamp] present but empty. *)
Definition payload_blank_timestamp : JsValue :=
  JObj [("event", JStr "POST_PUBLISHED");
        ("data", JObj [("post", sample_post)]);
        ("publication", sample_publication);
        ("timestamp", JStr "")].

(** An event outside the enumeration, in a payload without [timestamp]. *)
Definition payload_archived_no_timestamp : JsValue :=
  JObj [("event", JStr "POST_ARCHIVED");
        ("data", JObj [("post", sample_post)]);
        ("publication", sample_publication)].

(** An event outside the enumeration, in an otherwise complete payload. *)
Definition payload_archived : JsValue :=
  JObj [("event", JStr "POST_ARCHIVED");
        ("data", JObj [("post", sample_post)]);
        ("publication", sample_publication);
        ("timestamp", JStr "2024-05-01T10:00:01.000Z")].

(** An object for an event, with an own [toString] entry, in an otherwise
    complete payload. *)
Definition payload_object_event : JsValue :=
  JObj [("event", JObj [("toString", JNum 1)]);
        ("data", JObj [("post", sample_post)]);
        ("publication", sample_publication);
        ("timestamp", JStr "2024-05-01T10:00:01.000Z")].

(** The JSON text of [payload_blank_timestamp]. *)
Definition payload_blank_timestamp_text : string :=
  match IntJson.stringify payload_blank_timestamp with
  | Some text => text
  | None => ""
  end.

(** A complete payload whose optional [post] entry is present but
    [undefined], and what JSON makes of it. *)
Definition payload_undefined_post : JsValue :=
  JObj [("event", JStr "POST_DELETED");
        ("data", JObj [("post", JUndefined)]);
        ("publication", sample_publication);
        ("timestamp", JStr "2024-05-01T10:00:01.000Z")].

Definition payload_without_post : JsValue :=
  JObj [("event", JStr "POST_DELETED");
        ("data", JObj []);
        ("publication", sample_publication);
        ("timestamp", JStr "2024-05-01T10:00:01.000Z")].

(** A payload whose [timestamp] is the number zero. *)
Definition payload_zero_timestamp_props : list (string * JsValue) :=
  [("event", JStr "POST_UPDATED");
   ("data", JObj []);
   ("publication", sample_publication);
   ("timestamp", JNum 0)].

(** A post as the list query returns it. *)
Definition sample_node : JsValue :=
  JObj [("id", JStr "post-7"); ("title", JStr "Hello"); ("excerpt", JStr "First post");
        ("slug", JStr "hello"); ("readTimeInMinutes", JNum 3)].

Definition posts_envelope : GraphQLResponse :=
  {| data := JObj [("publication",
                    JObj [("posts",
                           JObj [("edges", JArr [JObj [("node", sample_node)]]);
                                 ("pageInfo", JObj [("hasNextPage", JBool false)])])])];
     errors := None |}.

Definition post_envelope : GraphQLResponse :=
  {| data := JObj [("publication", JObj [("post", sample_node)])];
     errors := None |}.

(** The envelope of a remote whose schema lacks the extended fields. *)
Definition tags_error_envelope : GraphQLResponse :=
  {| data := JNull;
     errors := Some [ {| message := "Cannot query field tags on type Post";
                         extensions_code := Some "GRAPHQL_VALIDATION_FAILED" |} ] |}.

Definition http_ok (envelope : GraphQLResponse) : FetchOutcome :=
  HttpResponse {| status := 200; statusText := "OK";
                  text := Fulfilled "(body)"; json := Fulfilled envelope |}.

Definition http_unavailable : FetchOutcome :=
  HttpResponse {| status := 503; statusText := "Service Unavailable";
                  text := Fulfilled "upstream down";
                  json := Rejected (ErrorObj ClsSyntaxError "Unexpected token u in JSON") |}.

Definition env_of (remote : list FetchCall -> FetchCall -> RemoteReply) : Env :=
  {| next_runtime := false;
     env_HASHNODE_PUBLICATION_HOST := Some "notes.hashnode.dev";
     remote := remote |}.

(** A remote that answers every request well, a minute after it was sent. *)
Definition env_slow : Env :=
  env_of (fun _ _ => {| delay_ms := Some 60000; reply := http_ok posts_envelope |}).

(** A remote that never answers. *)
Definition env_silent : Env :=
  env_of (fun _ _ => {| delay_ms := None; reply := http_ok posts_envelope |}).

(** A remote that cannot be reached: every [fetch] fails at once. *)
Definition env_down : Env :=
  env_of (fun _ _ => {| delay_ms := Some 3;
                        reply := NetworkError (ErrorObj ClsTypeError "fetch failed") |}).

(** A remote that refuses the first request with a GraphQL error and answers
    every later one with 503. *)
Definition env_flaky : Env :=
  env_of (fun log _ =>
            match log with
            | [] => {| delay_ms := Some 40; reply := http_ok tags_error_envelope |}
            | _ => {| delay_ms := Some 40; reply := http_unavailable |}
            end).

(** A remote that refuses the first request with a GraphQL error and serves
    the single post afterwards. *)
Definition env_basic_only : Env :=
  env_of (fun log _ =>
            match log with
            | [] => {| delay_ms := Some 40; reply := http_ok tags_error_envelope |}
            | _ => {| delay_ms := Some 40; reply := http_ok post_envelope |}
            end).

(** A remote that serves the single post at once. *)
Definition env_good : Env :=
  env_of (fun _ _ => {| delay_ms := Some 40; reply := http_ok post_envelope |}).

(** An answer with a series list one of whose edges is [null], two static
    pages and no draft. *)
Definition catalog_envelope : GraphQLResponse :=
  {| data :=
       JObj [("publication",
              JObj [("seriesList",
                     JObj [("edges",
                            JArr [JObj [("node", JObj [("name", JStr "Basics")])];
                                  JNull])]);
                    ("staticPages",
                     JObj [("edges",
                            JArr [JObj [("node", JObj [("slug", JStr "about")])];
                                  JObj [("node", JObj [("slug", JStr "contact")])]])]);
                    ("drafts", JObj [("edges", JArr [])])])];
     errors := None |}.

Definition env_catalog : Env :=
  env_of (fun _ _ => {| delay_ms := Some 40; reply := http_ok catalog_envelope |}).

(** A remote that refuses the first request with a GraphQL error and serves
    the post list afterwards. *)
Definition env_posts_basic_only : Env :=
  env_of (fun log _ =>
            match log with
            | [] => {| delay_ms := Some 40; reply := http_ok tags_error_envelope |}
            | _ => {| delay_ms := Some 40; reply := http_ok posts_envelope |}
            end).

(** A remote that answers every request with 503. *)
Definition env_unavailable : Env :=
  env_of (fun _ _ => {| delay_ms := Some 40; reply := http_unavailable |}).

(** A remote whose 502 answer breaks off before its body can be read. *)
Definition env_broken_body : Env :=
  env_of (fun _ _ =>
            {| delay_ms := Some 40;
               reply := HttpResponse
                          {| status := 502; statusText := "Bad Gateway";
                             text := Rejected (ErrorObj ClsTypeError "terminated");
                             json := Rejected (ErrorObj ClsTypeError "terminated") |} |}).

(** A [fetch] that fails by throwing something that is not an [Error]. *)
Definition env_offline : Env :=
  env_of (fun _ _ => {| delay_ms := Some 1;
                        reply := NetworkError (ThrownValue (JStr "offline")) |}).

(** A remote that answers 200 with a page that is not JSON. *)
Definition env_html : Env :=
  env_of (fun _ _ =>
            {| delay_ms := Some 40;
               reply := HttpResponse
                          {| status := 200; statusText := "OK";
                             text := Fulfilled "<html></html>";
                             json := Rejected (ErrorObj ClsSyntaxError
                                                 "Unexpected token < in JSON") |} |}).

(** A deployment whose [HASHNODE_PUBLICATION_HOST] is set but empty. *)
Definition env_blank_host : Env :=
  {| next_runtime := true;
     env_HASHNODE_PUBLICATION_HOST := Some "";
     remote := remote env_down |}.

(** A complete payload without the optional [data] entry, and its JSON text. *)
Definition payload_without_data : JsValue :=
  JObj [("event", JStr "STATIC_PAGE_DELETED");
        ("publication", sample_publication);
        ("timestamp", JStr "2024-05-01T10:00:01.000Z")].

Definition payload_without_data_text : string :=
  match IntJson.stringify payload_without_data with
  | Some text => text
  | None => ""
  end.

(** A request whose signature header is the HMAC of its body, and one
    without the header. *)
Definition signed_request (body secret : string) : RouteRequest :=
  {| request_text := Fulfilled body;
     x_hashnode_signature := Some (generateWebhookSignature body secret) |}.

Definition unsigned_request (body : string) : RouteRequest :=
  {| request_text := Fulfilled body; x_hashnode_signature := None |}.

(** A handler that records the payload it was given. *)
Definition notify : WebhookHandler :=
  fun payload tr => (Fulfilled tt, (tr ++ [Custom "notified" payload])%list).

(* ===================================================================== *)
(** ** The client, over the platform's JSON functions *)
(* ===================================================================== *)

(** graphql-client.ts: the [payload] and [options] arguments of [query]. *)
Record QueryPayload : Type := mkQueryPayload
  { query : string;
    variables : option JsValue }.

Record QueryOptions : Type := mkQueryOptions
  { opt_timeout : option Z;
    opt_headers : option (list (string * string)) }.

(** The object value of a [QueryPayload], as [JSON.stringify] sees it. *)
Definition payload_value (p : QueryPayload) : JsValue :=
  JObj (("query", JStr (query p))
        :: match variables p with
           | Some v => [("variables", v)]
           | None => []
           end).

(** service.ts: the three read-only fields of a [HashnodeService]. *)
Record HashnodeService : Type := mkHashnodeService
  { apiUrl : string;
    publicationHost : string;
    timeout : Z }.

Section Client.

(** [JSON.parse] and [JSON.stringify] of the host. *)
Variable JSON_parse : string -> Completion JsValue.
Variable JSON_stringify : JsValue -> option string.

Variable env : Env.

(** *** webhooks.js *)

Definition parseWebhookPayload (payload : JsValue) : Completion JsValue :=
  let? data :=
    (if typeof_string payload
     then try_catch (JSON_parse (string_of payload))
                    (fun _ => Throw (new_Error "Invalid JSON payload"))
     else Return payload) in
  (* Validate required fields *)
  let? missing :=
    (let? event := get data "event" in
     if negb (truthy event) then Return true
     else
       let? publication := get data "publication" in
       if negb (truthy publication) then Return true
       else
         let? timestamp := get data "timestamp" in
         Return (negb (truthy timestamp))) in
  if missing then Throw (new_Error "Missing required webhook fields")
  else
    (* Validate event type *)
    let? event := get data "event" in
    if negb (validEvents_includes event)
    then
      let? shown := ToString event in
      Throw (new_Error ("Invalid webhook event: " ++ shown))
    else Return data.

(** *** graphql-client.ts *)

(** [GraphQLClient.query].  The [return response.json()] hands the body
    promise back without awaiting it, so its settlement is the caller's and
    does not pass through the [catch] clause. *)
Definition GraphQLClient_query (url : string) (payload : QueryPayload)
  (options : QueryOptions) : Async GraphQLResponse :=
  returned <-
    atry
      (response <-
         fetch env url
           {| method := "POST";
              headers := spread [("Content-Type", "application/json")]
                                (match opt_headers options with
                                 | Some h => h
                                 | None => []
                                 end);
              body := JSON_stringify (payload_value payload);
              (* Next.js fetch caching - cache for 5 minutes on server *)
              next_revalidate := if next_runtime env then Some 300 else None;
              cache := if next_runtime env then Some "no-store" else None;
              signal := None |} ;;
       if negb (ok response)
       then
         raw <- await (text response) ;;
         reject (GraphQLErrorObj
                   ("HTTP " ++ decimal (status response) ++ ": " ++ statusText response)
                   (Some (status response)) (Some (statusText response)) (Some raw))
       else resolve (json response))
      (fun error =>
         match error with
         | GraphQLErrorObj _ _ _ _ => reject error
         | ErrorObj _ msg => reject (GraphQLErrorObj msg None None None)
         | ThrownValue _ =>
             reject (GraphQLErrorObj "Network request failed" None None None)
         end) ;;
  await returned.

(** *** service.ts *)

(** [new HashnodeService()] with the defaults of config.js. *)
Definition hashnodeService : HashnodeService :=
  {| apiUrl := API_URL;
     publicationHost := PUBLICATION_HOST env;
     timeout := TIMEOUT_MS |}.

Definition executeQuery (this : HashnodeService) (q : string) (vars : JsValue)
  : Async GraphQLResponse :=
  GraphQLClient_query (apiUrl this)
    {| query := q; variables := Some vars |}
    {| opt_timeout := Some (timeout this); opt_headers := None |}.

Definition validateResponse (response : GraphQLResponse) : Completion JsValue :=
  match errors response with
  | Some (e :: es) =>
      let errorMessages := join ", " (map message (e :: es)) in
      Throw (new_Error ("GraphQL error: " ++ errorMessages))
  | _ =>
      if negb (truthy (data response))
      then Throw (new_Error "No data returned from GraphQL query")
      else Return (data response)
  end.

Definition HashnodeService_getBlogPosts (this : HashnodeService) (count : option Z)
  : Async (list JsValue) :=
  let limit :=
    Z.min (match count with Some c => c | None => DEFAULT_POSTS_COUNT end)
          MAX_POSTS_PER_REQUEST in
  let vars := JObj [("host", JStr (publicationHost this)); ("first", JNum limit)] in
  atry
    ((* Try extended query first *)
     response <- executeQuery this (HashnodeQueries_getBlogPosts true) vars ;;
     d <- lift (validateResponse response) ;;
     lift (let? publication := get d "publication" in
           let? posts := get publication "posts" in
           let? edges := get posts "edges" in
           Array_map (fun edge => get edge "node") edges))
    (fun error =>
       (* Fallback to basic query if extended fails *)
       seq_stmt
         (atry
            (response <- executeQuery this (HashnodeQueries_getBlogPosts false) vars ;;
             d <- lift (validateResponse response) ;;
             nodes <- lift (let? publication := get d "publication" in
                            let? posts := get publication "posts" in
                            let? edges := get posts "edges" in
                            Array_map (fun edge => get edge "node") edges) ;;
             resolve (Returned nodes))
            (fun _ =>
               (* Return empty array on complete failure *)
               resolve (Returned [])))
         (reject error)).

Definition HashnodeService_getBlogPostBySlug (this : HashnodeService) (slug : JsValue)
  : Async JsValue :=
  if negb (truthy slug) || negb (typeof_string slug)
     || (String.length (trim (string_of slug)) =? 0)%nat
  then reject (new_Error "Invalid slug parameter")
  else
    let cleanSlug := trim (string_of slug) in
    let vars := JObj [("host", JStr (publicationHost this)); ("slug", JStr cleanSlug)] in
    atry
      ((* Try extended query first *)
       response <- executeQuery this (HashnodeQueries_getBlogPostBySlug true) vars ;;
       d <- lift (validateResponse response) ;;
       lift (let? publication := get d "publication" in get publication "post"))
      (fun error =>
         (* Fallback to basic query if extended fails (e.g., GraphQL errors) *)
         atry
           (response <- executeQuery this (HashnodeQueries_getBlogPostBySlug false) vars ;;
            d <- lift (validateResponse response) ;;
            lift (let? publication := get d "publication" in get publication "post"))
           (fun _ =>
              (* If both queries fail, throw the original error *)
              reject error)).

(** *** index.js: the facade *)

Definition getBlogPosts (count : option Z) : Async (list JsValue) :=
  atry (HashnodeService_getBlogPosts hashnodeService count)
       (fun _ => resolve []).

Definition getBlogPostBySlug (slug : JsValue) : Async JsValue :=
  atry (HashnodeService_getBlogPostBySlug hashnodeService slug)
       (fun _ => resolve JNull).

(** *** service.ts: the single-attempt operations *)

Definition HashnodeService_getPublication (this : HashnodeService) : Async JsValue :=
  atry
    (response <- executeQuery this HashnodeQueries_getPublication
                   (JObj [("host", JStr (publicationHost this))]) ;;
     d <- lift (validateResponse response) ;;
     lift (get d "publication"))
    (fun _ => resolve JNull).

Definition HashnodeService_searchPosts (this : HashnodeService) (query : string)
  (limit : option Z) : Async (list JsValue) :=
  let limit := match limit with Some l => l | None => 10 end in
  if negb (truthy (JStr query)) || (String.length (trim query) =? 0)%nat
  then resolve []
  else
    atry
      (let vars :=
         JObj [("first", JNum (Z.min limit MAX_POSTS_PER_REQUEST));
               ("filter", JObj [("publicationId", JStr (publicationHost this));
                                ("query", JStr (trim query))])] in
       response <- executeQuery this HashnodeQueries_searchPosts vars ;;
       d <- lift (validateResponse response) ;;
       lift (let? found := get d "searchPostsOfPublication" in
             let? edges := get found "edges" in
             Array_map (fun edge => get edge "node") edges))
      (fun _ => resolve []).

Definition HashnodeService_getSeriesList (this : HashnodeService) (limit : option Z)
  : Async (list JsValue) :=
  let limit := match limit with Some l => l | None => 10 end in
  atry
    (let vars :=
       JObj [("host", JStr (publicationHost this));
             ("first", JNum (Z.min limit MAX_POSTS_PER_REQUEST))] in
     response <- executeQuery this HashnodeQueries_getSeriesList vars ;;
     d <- lift (validateResponse response) ;;
     lift (let? publication := get d "publication" in
           let? seriesList := get publication "seriesList" in
           let? edges := get seriesList "edges" in
           Array_map (fun edge => get edge "node") edges))
    (fun _ => resolve []).

Definition HashnodeService_getSeries (this : HashnodeService) (slug : string)
  : Async JsValue :=
  if negb (truthy (JStr slug)) || (String.length (trim slug) =? 0)%nat
  then resolve JNull
  else
    atry
      (let vars :=
         JObj [("host", JStr (publicationHost this)); ("slug", JStr (trim slug))] in
       response <- executeQuery this HashnodeQueries_getSeries vars ;;
       d <- lift (validateResponse response) ;;
       lift (let? publication := get d "publication" in get publication "series"))
      (fun _ => resolve JNull).

Definition HashnodeService_getSeriesPosts (this : HashnodeService)
  (seriesSlug : string) (limit : option Z) : Async (list JsValue) :=
  let limit := match limit with Some l => l | None => 10 end in
  if negb (truthy (JStr seriesSlug)) || (String.length (trim seriesSlug) =? 0)%nat
  then resolve []
  else
    atry
      (let vars :=
         JObj [("host", JStr (publicationHost this));
               ("seriesSlug", JStr (trim seriesSlug));
               ("first", JNum (Z.min limit MAX_POSTS_PER_REQUEST))] in
       response <- executeQuery this HashnodeQueries_getSeriesPosts vars ;;
       d <- lift (validateResponse response) ;;
       lift (let? publication := get d "publication" in
             let? series := get publication "series" in
             let? posts := get series "posts" in
             let? edges := get posts "edges" in
             Array_map (fun edge => get edge "node") edges))
      (fun _ => resolve []).

Definition HashnodeService_getStaticPages (this : HashnodeService) (limit : option Z)
  : Async (list JsValue) :=
  let limit := match limit with Some l => l | None => 10 end in
  atry
    (let vars :=
       JObj [("host", JStr (publicationHost this));
             ("first", JNum (Z.min limit MAX_POSTS_PER_REQUEST))] in
     response <- executeQuery this HashnodeQueries_getStaticPages vars ;;
     d <- lift (validateResponse response) ;;
     lift (let? publication := get d "publication" in
           let? staticPages := get publication "staticPages" in
           let? edges := get staticPages "edges" in
           Array_map (fun edge => get edge "node") edges))
    (fun _ => resolve []).

Definition HashnodeService_getStaticPage (this : HashnodeService) (slug : string)
  : Async JsValue :=
  if negb (truthy (JStr slug)) || (String.length (trim slug) =? 0)%nat
  then resolve JNull
  else
    atry
      (let vars :=
         JObj [("host", JStr (publicationHost this)); ("slug", JStr (trim slug))] in
       response <- executeQuery this HashnodeQueries_getStaticPage vars ;;
       d <- lift (validateResponse response) ;;
       lift (let? publication := get d "publication" in get publication "staticPage"))
      (fun _ => resolve JNull).

Definition HashnodeService_getPostComments (this : HashnodeService)
  (postId : string) (limit : option Z) : Async (list JsValue) :=
  let limit := match limit with Some l => l | None => 20 end in
  if negb (truthy (JStr postId)) || (String.length (trim postId) =? 0)%nat
  then resolve []
  else
    atry
      (let vars :=
         JObj [("postId", JStr (trim postId));
               ("first", JNum (Z.min limit 50))] (* Max 50 comments per page *) in
       response <- executeQuery this HashnodeQueries_getPostComments vars ;;
       d <- lift (validateResponse response) ;;
       lift (let? post := get d "post" in
             let? comments := get post "comments" in
             let? edges := get comments "edges" in
             Array_map (fun edge => get edge "node") edges))
      (fun _ => resolve []).

Definition HashnodeService_getRecommendedPublications (this : HashnodeService)
  : Async JsValue :=
  atry
    (let vars := JObj [("host", JStr (publicationHost this))] in
     response <- executeQuery this HashnodeQueries_getRecommendedPublications vars ;;
     d <- lift (validateResponse response) ;;
     lift (let? publication := get d "publication" in
           get publication "recommendedPublications"))
    (fun _ => resolve (JArr [])).

Definition HashnodeService_getDrafts (this : HashnodeService) (limit : option Z)
  : Async (list JsValue) :=
  let limit := match limit with Some l => l | None => 10 end in
  atry
    (let vars :=
       JObj [("host", JStr (publicationHost this));
             ("first", JNum (Z.min limit MAX_POSTS_PER_REQUEST))] in
     response <- executeQuery this HashnodeQueries_getDrafts vars ;;
     d <- lift (validateResponse response) ;;
     lift (let? publication := get d "publication" in
           let? drafts := get publication "drafts" in
           let? edges := get drafts "edges" in
           Array_map (fun edge => get edge "node") edges))
    (fun _ => resolve []).

(** *** index.js: the other facade wrappers *)

Definition getPublication : Async JsValue :=
  atry (HashnodeService_getPublication hashnodeService) (fun _ => resolve JNull).

Definition searchPosts (query : string) (limit : option Z) : Async (list JsValue) :=
  atry (HashnodeService_searchPosts hashnodeService query limit) (fun _ => resolve []).

Definition getSeriesList (limit : option Z) : Async (list JsValue) :=
  atry (HashnodeService_getSeriesList hashnodeService limit) (fun _ => resolve []).

Definition getSeries (slug : string) : Async JsValue :=
  atry (HashnodeService_getSeries hashnodeService slug) (fun _ => resolve JNull).

Definition getSeriesPosts (seriesSlug : string) (limit : option Z)
  : Async (list JsValue) :=
  atry (HashnodeService_getSeriesPosts hashnodeService seriesSlug limit)
       (fun _ => resolve []).

Definition getStaticPages (limit : option Z) : Async (list JsValue) :=
  atry (HashnodeService_getStaticPages hashnodeService limit) (fun _ => resolve []).

Definition getStaticPage (slug : string) : Async JsValue :=
  atry (HashnodeService_getStaticPage hashnodeService slug) (fun _ => resolve JNull).

Definition getPostComments (postId : string) (limit : option Z)
  : Async (list JsValue) :=
  atry (HashnodeService_getPostComments hashnodeService postId limit)
       (fun _ => resolve []).

Definition getRecommendedPublications : Async JsValue :=
  atry (HashnodeService_getRecommendedPublications hashnodeService)
       (fun _ => resolve (JArr [])).

Definition getDrafts (limit : option Z) : Async (list JsValue) :=
  atry (HashnodeService_getDrafts hashnodeService limit) (fun _ => resolve []).

(** *** webhooks.js: dispatch *)

Definition processWebhook (payload : JsValue) (handlers : WebhookHandlers)
  : Hook unit :=
  event <~ hlift (get payload "event") ;;
  key <~ hlift (ToString event) ;;
  match handler_for key handlers with
  | None =>
      shown <~ hlift (ToString event) ;;
      _ <~ console "warn" ("No handler registered for event: " ++ shown) None ;;
      hresolve tt
  | Some handler => handler payload
  end.

(** *** examples/webhook-handler.ts: the route *)

(** [console.log(`<label>${data.data.<entity>?.<field>}`)] *)
Definition log_field (label entity field : string) (data : JsValue) : Hook unit :=
  shown <~ hlift (let? d := get data "data" in
                  let? x := get d entity in
                  let? v := get_optional x field in
                  ToString v) ;;
  console "log" (label ++ shown) None.

(** The handler table of the example's [handleWebhookEvent]. *)
Definition handlers : WebhookHandlers :=
  [ (* Handle new post published *)
    ("POST_PUBLISHED", fun data =>
       _ <~ console "log" "📝 New post published!" None ;;
       _ <~ log_field "   Title: " "post" "title" data ;;
       _ <~ log_field "   URL: " "post" "url" data ;;
       shown <~ hlift (let? d := get data "data" in
                       let? post := get d "post" in
                       match post with
                       | JUndefined | JNull => ToString JUndefined
                       | _ => let? author := get post "author" in
                              let? name := get author "name" in
                              ToString name
                       end) ;;
       console "log" ("   Author: " ++ shown) None);
    (* Handle post updated *)
    ("POST_UPDATED", fun data =>
       _ <~ console "log" "✏️  Post updated!" None ;;
       _ <~ log_field "   Title: " "post" "title" data ;;
       log_field "   URL: " "post" "url" data);
    (* Handle post deleted *)
    ("POST_DELETED", fun data =>
       _ <~ console "log" "🗑️  Post deleted!" None ;;
       _ <~ log_field "   Post ID: " "post" "id" data ;;
       log_field "   Slug: " "post" "slug" data);
    (* Handle static page published *)
    ("STATIC_PAGE_PUBLISHED", fun data =>
       _ <~ console "log" "📄 New static page published!" None ;;
       _ <~ log_field "   Title: " "staticPage" "title" data ;;
       log_field "   URL: " "staticPage" "url" data);
    (* Handle static page updated *)
    ("STATIC_PAGE_UPDATED", fun data =>
       _ <~ console "log" "✏️  Static page updated!" None ;;
       log_field "   Title: " "staticPage" "title" data);
    (* Handle static page deleted *)
    ("STATIC_PAGE_DELETED", fun data =>
       _ <~ console "log" "🗑️  Static page deleted!" None ;;
       log_field "   Page ID: " "staticPage" "id" data) ].

(** [if (predicate(payload.event)) { console.log(line);
    console.log(label, payload.data.<entity>) }] *)
Definition log_details (predicate : JsValue -> bool) (line label entity : string)
  (payload : JsValue) : Hook unit :=
  event <~ hlift (get payload "event") ;;
  if predicate event
  then
    _ <~ console "log" line None ;;
    detail <~ hlift (let? d := get payload "data" in get d entity) ;;
    console_value "log" label detail
  else hresolve tt.

(** The example's [handleWebhookEvent]. *)
Definition handleWebhookEvent (payload : JsValue) : Hook unit :=
  (* Process the webhook with the handlers *)
  _ <~ processWebhook payload handlers ;;
  (* Alternative: Handle events manually *)
  _ <~ log_details isPostEvent "📰 This is a post-related event"
                   "   Post details:" "post" payload ;;
  log_details isStaticPageEvent "📄 This is a static page-related event"
              "   Page details:" "staticPage" payload.

(** [POST], with [process.env.HASHNODE_WEBHOOK_SECRET] as a parameter. *)
Definition POST (HASHNODE_WEBHOOK_SECRET : option string) (request : RouteRequest)
  : Hook RouteResponse :=
  htry
    ((* 1. Get raw body and signature from headers *)
     payload <~ hawait (request_text request) ;;
     let signature :=
       match x_hashnode_signature request with
       | Some h => if truthy (JStr h) then h else ""
       | None => ""
       end in
     let webhookSecret :=
       match HASHNODE_WEBHOOK_SECRET with
       | Some secret => JStr secret
       | None => JUndefined
       end in
     if negb (truthy webhookSecret)
     then
       _ <~ console "error" "❌ HASHNODE_WEBHOOK_SECRET not configured" None ;;
       hresolve {| route_body := "Webhook secret not configured"; route_status := 500 |}
     else
       (* 2. Verify webhook signature (CRITICAL for security) *)
       _ <~ console "log" "🔐 Verifying webhook signature..." None ;;
       isValidSignature <~
         hlift (verifyWebhookSignature payload signature (string_of webhookSecret)) ;;
       if negb isValidSignature
       then
         _ <~ console "error"
                "❌ Invalid webhook signature - possible attack attempt" None ;;
         hresolve {| route_body := "Invalid signature"; route_status := 401 |}
       else
         _ <~ console "log" "✅ Signature verified successfully" None ;;
         (* 3. Parse and validate webhook payload *)
         parsed <~
           htry
             (webhookData <~ hlift (parseWebhookPayload (JStr payload)) ;;
              event <~ hlift (get webhookData "event") ;;
              shown <~ hlift (ToString event) ;;
              _ <~ console "log" ("📨 Received webhook event: " ++ shown) None ;;
              hresolve (FallThrough, webhookData))
             (fun error =>
                _ <~ console "error" "❌ Invalid webhook payload:" (Some error) ;;
                hresolve
                  (Returned {| route_body := "Invalid payload"; route_status := 400 |},
                   JUndefined)) ;;
         match fst parsed with
         | Returned answer => hresolve answer
         | FallThrough =>
             (* 4. Process webhook based on event type *)
             _ <~ handleWebhookEvent (snd parsed) ;;
             (* 5. Return success response *)
             hresolve {| route_body := "Webhook processed successfully";
                         route_status := 200 |}
         end)
    (fun error =>
       _ <~ console "error" "❌ Error processing webhook:" (Some error) ;;
       hresolve {| route_body := "Internal server error"; route_status := 500 |}).

(** *** Named parts of the functions above, for the statements below *)

(** The first statement of [parseWebhookPayload]: the value validated. *)
Definition payload_data (payload : JsValue) : Completion JsValue :=
  if typeof_string payload
  then try_catch (JSON_parse (string_of payload))
                 (fun _ => Throw (new_Error "Invalid JSON payload"))
  else Return payload.

Definition missing_fields_error : JsThrown :=
  new_Error "Missing required webhook fields".

(** The three fields [parseWebhookPayload] requires. *)
Definition required_fields : list string := ["event"; "publication"; "timestamp"].

(** The claim's structural validity, in its own words: the event is one of
    the six literals, [publication] and [timestamp] are present. *)
Definition fields_present_valid (p : JsValue) : bool :=
  match p with
  | JObj props =>
      match lookup "event" props with
      | Some ev => validEvents_includes ev
      | None => false
      end
      && has_own "publication" props && has_own "timestamp" props
  | _ => false
  end.

(** A string made of white-space characters only (the empty string too). *)
Definition whitespace_only (s : string) : Prop :=
  exists toks : list string,
    Forall (fun t => In t WhiteSpace) toks /\ s = fold_right append "" toks.

(** A slug that passes the guard of [getBlogPostBySlug]. *)
Definition valid_slug (slug : JsValue) : Prop :=
  exists s : string, slug = JStr s /\ trim s <> "".

Definition invalid_slug_error : JsThrown := new_Error "Invalid slug parameter".

(** The [fetch] call that [GraphQLClient.query] makes. *)
Definition query_call (url : string) (payload : QueryPayload)
  (options : QueryOptions) : FetchCall :=
  (url,
   {| method := "POST";
      headers := spread [("Content-Type", "application/json")]
                        (match opt_headers options with
                         | Some h => h
                         | None => []
                         end);
      body := JSON_stringify (payload_value payload);
      next_revalidate := if next_runtime env then Some 300 else None;
      cache := if next_runtime env then Some "no-store" else None;
      signal := None |}).

(** The [fetch] call behind [executeQuery]. *)
Definition service_call (this : HashnodeService) (q : string) (vars : JsValue)
  : FetchCall :=
  query_call (apiUrl this) {| query := q; variables := Some vars |}
             {| opt_timeout := Some (timeout this); opt_headers := None |}.

(** One attempt of [getBlogPosts]: the body of either [try] block. *)
Definition posts_attempt (this : HashnodeService) (extended : bool)
  (vars : JsValue) : Async (list JsValue) :=
  response <- executeQuery this (HashnodeQueries_getBlogPosts extended) vars ;;
  d <- lift (validateResponse response) ;;
  lift (let? publication := get d "publication" in
        let? posts := get publication "posts" in
        let? edges := get posts "edges" in
        Array_map (fun edge => get edge "node") edges).

(** One attempt of [getBlogPostBySlug]: the body of either [try] block. *)
Definition post_attempt (this : HashnodeService) (extended : bool)
  (vars : JsValue) : Async JsValue :=
  response <- executeQuery this (HashnodeQueries_getBlogPostBySlug extended) vars ;;
  d <- lift (validateResponse response) ;;
  lift (let? publication := get d "publication" in get publication "post").

(** The inner [try] statement of [getBlogPosts]. *)
Definition posts_fallback (this : HashnodeService) (vars : JsValue)
  : Async (StmtResult (list JsValue)) :=
  atry (nodes <- posts_attempt this false vars ;; resolve (Returned nodes))
       (fun _ => resolve (Returned [])).

(** The page size the claim describes: the default when none is requested,
    the ceiling when the request exceeds it, the request otherwise. *)
Definition page_size (count : option Z) : Z :=
  match count with
  | None => DEFAULT_POSTS_COUNT
  | Some c => if MAX_POSTS_PER_REQUEST <? c then MAX_POSTS_PER_REQUEST else c
  end.

Definition posts_variables (this : HashnodeService) (first : Z) : JsValue :=
  JObj [("host", JStr (publicationHost this)); ("first", JNum first)].

Definition posts_call (this : HashnodeService) (extended : bool) (first : Z)
  : FetchCall :=
  service_call this (HashnodeQueries_getBlogPosts extended)
               (posts_variables this first).

Definition slug_variables (this : HashnodeService) (slug : JsValue) : JsValue :=
  JObj [("host", JStr (publicationHost this));
        ("slug", JStr (trim (string_of slug)))].

Definition post_call (this : HashnodeService) (extended : bool) (slug : JsValue)
  : FetchCall :=
  service_call this (HashnodeQueries_getBlogPostBySlug extended)
               (slug_variables this slug).

(** Every call of the transport rejects. *)
Definition transport_always_fails : Prop :=
  forall url payload options log,
    exists e, fst (GraphQLClient_query url payload options log) = Rejected e.

(** What [verifyWebhookSignature] decides: nothing is empty and the
    signature is the digest. *)
Definition authentic (payload signature secret : string) : bool :=
  truthy (JStr payload) && truthy (JStr signature) && truthy (JStr secret)
  && (signature =? generateWebhookSignature payload secret)%string.

(** [request.headers.get('x-hashnode-signature') || ''] *)
Definition signature_header (request : RouteRequest) : string :=
  match x_hashnode_signature request with
  | Some h => if truthy (JStr h) then h else ""
  | None => ""
  end.

(** The event name of a payload object. *)
Definition event_name (d : JsValue) : string :=
  match get d "event" with
  | Return (JStr e) => e
  | _ => ""
  end.

(** The console lines of the route up to the signature check, and up to
    the call of [handleWebhookEvent]. *)
Definition checking : list HookEvent :=
  [Console "log" "🔐 Verifying webhook signature..." None].

Definition received (d : JsValue) : list HookEvent :=
  [Console "log" "🔐 Verifying webhook signature..." None;
   Console "log" "✅ Signature verified successfully" None;
   Console "log" ("📨 Received webhook event: " ++ event_name d) None].

(** One attempt of a single-attempt operation, the body of its [try] block:
    run the query, validate the envelope, pick the result out of the data. *)
Definition attempt {A : Type} (this : HashnodeService) (q : string) (vars : JsValue)
  (extract : JsValue -> Completion A) : Async A :=
  response <- executeQuery this q vars ;;
  d <- lift (validateResponse response) ;;
  lift (extract d).

(** [v.k1.k2. ... .kn] *)
Fixpoint dig (path : list string) (v : JsValue) : Completion JsValue :=
  match path with
  | [] => Return v
  | k :: rest => let? x := get v k in dig rest x
  end.

(** [v.k1. ... .kn.map((edge) => edge.node)] *)
Definition nodes_at (path : list string) (v : JsValue) : Completion (list JsValue) :=
  let? edges := dig path v in Array_map (fun edge => get edge "node") edges.

(** What an operation of the form [try { attempt } catch { return dflt }]
    does, read off the outcome of its one transport call: it sends [call]
    and nothing else, never rejects, gives [dflt] when the call rejects,
    when the envelope lists errors, when the data is missing and when the
    data has not the expected shape, and the extracted result otherwise. *)
Definition defaults_on_failure {A : Type} (op : Async A) (this : HashnodeService)
  (q : string) (vars : JsValue) (extract : JsValue -> Completion A) (dflt : A)
  : Prop :=
  forall log : list FetchCall,
    snd (op log) = (log ++ [service_call this q vars])%list
    /\ (forall e, fst (op log) <> Rejected e)
    /\ (forall e l, executeQuery this q vars log = (Rejected e, l) ->
                    op log = (Fulfilled dflt, l))
    /\ (forall r l x xs, executeQuery this q vars log = (Fulfilled r, l) ->
                         errors r = Some (x :: xs) ->
                         op log = (Fulfilled dflt, l))
    /\ (forall r l, executeQuery this q vars log = (Fulfilled r, l) ->
                    errors r = None \/ errors r = Some [] ->
                    truthy (data r) = false ->
                    op log = (Fulfilled dflt, l))
    /\ (forall r l, executeQuery this q vars log = (Fulfilled r, l) ->
                    errors r = None \/ errors r = Some [] ->
                    truthy (data r) = true ->
                    op log = (match extract (data r) with
                              | Return a => Fulfilled a
                              | Throw _ => Fulfilled dflt
                              end, l)).

(** The [first] variable of a list operation: the requested size, or the
    default, cut down to the ceiling. *)
Definition clamp (limit : option Z) (default ceiling : Z) : Z :=
  Z.min (match limit with Some l => l | None => default end) ceiling.

(** An edge that [edge.node] can be read from. *)
Definition readable (edge : JsValue) : bool :=
  match edge with
  | JUndefined | JNull => false
  | _ => true
  end.

(** [edge.node] of a readable edge. *)
Definition node_of (edge : JsValue) : JsValue :=
  match edge with
  | JObj props => match lookup "node" props with Some x => x | None => JUndefined end
  | _ => JUndefined
  end.

(* --------------------------------------------------------------------- *)
(** *** Webhook payloads *)
(* --------------------------------------------------------------------- *)

Lemma truthy_JStr (s : string) : truthy (JStr s) = true <-> s <> "".
Proof.
  simpl. destruct (String.eqb_spec s ""); simpl; split; intros; congruence.
Qed.


Lemma validEvents_includes_spec (ev : JsValue) :
  validEvents_includes ev = true <-> exists e, ev = JStr e /\ In e validEvents.
Proof.
  unfold validEvents_includes. rewrite existsb_exists. split.
  - intros [lit [Hin Heq]]. destruct ev; simpl in Heq; try discriminate.
    apply String.eqb_eq in Heq. subst. eauto.
  - intros [e [-> Hin]]. exists e. split; [exact Hin|].
    simpl. apply String.eqb_refl.
Qed.

(** What [parseWebhookPayload] yields in terms of the three fields read. *)
Lemma parseWebhookPayload_fields (payload d ev pub ts : JsValue) :
  payload_data payload = Return d ->
  get d "event" = Return ev ->
  get d "publication" = Return pub ->
  get d "timestamp" = Return ts ->
  parseWebhookPayload payload =
    if truthy ev && truthy pub && truthy ts
    then if validEvents_includes ev
         then Return d
         else let? shown := ToString ev in
              Throw (new_Error ("Invalid webhook event: " ++ shown))
    else Throw missing_fields_error.
Proof.
  intros Hd He Hp Ht. unfold parseWebhookPayload.
  fold (payload_data payload). rewrite Hd. cbn [cbind].
  rewrite He. cbn [cbind].
  destruct (truthy ev); cbn [negb andb cbind]; [|reflexivity].
  rewrite Hp. cbn [cbind].
  destruct (truthy pub); cbn [negb andb cbind]; [|reflexivity].
  rewrite Ht. cbn [cbind].
  destruct (truthy ts); cbn [negb andb cbind]; [|reflexivity].
  destruct (validEvents_includes ev); reflexivity.
Qed.

Lemma get_JObj (props : list (string * JsValue)) (k : string) :
  get (JObj props) k
  = Return (match lookup k props with Some x => x | None => JUndefined end).
Proof. reflexivity. Qed.

Lemma lookup_remove_key_same (k : string) (props : list (string * JsValue)) :
  lookup k (remove_key k props) = None.
Proof.
  induction props as [|[k' v] props IH]; simpl; [reflexivity|].
  destruct (String.eqb_spec k k') as [E|N]; simpl; [exact IH|].
  destruct (String.eqb_spec k k'); [contradiction | exact IH].
Qed.

Lemma lookup_remove_key_other (k f : string) (props : list (string * JsValue)) :
  k <> f -> lookup k (remove_key f props) = lookup k props.
Proof.
  intros N. induction props as [|[k' v] props IH]; simpl; [reflexivity|].
  destruct (String.eqb_spec f k') as [E|N']; simpl.
  - subst k'. destruct (String.eqb_spec k f); [contradiction | exact IH].
  - destruct (String.eqb_spec k k'); [reflexivity | exact IH].
Qed.

(** The two event predicates split the six events between them. *)
Lemma event_predicates_partition (e : string) :
  In e validEvents ->
  isPostEvent (JStr e) = negb (isStaticPageEvent (JStr e)).
Proof.
  intros H. simpl in H.
  repeat (destruct H as [<-|H]; [reflexivity|]). contradiction.
Qed.

(** C10.  A required field that is present with a falsy value is treated
    as a missing one: the call throws the missing-fields error, which is
    also what it throws for the same object with the field deleted. *)
Theorem falsy_field_is_missing
  (payload : JsValue) (props : list (string * JsValue)) (field : string)
  (v : JsValue) :
  payload_data payload = Return (JObj props) ->
  In field required_fields ->
  lookup field props = Some v ->
  truthy v = false ->
  parseWebhookPayload payload = Throw missing_fields_error
  /\ parseWebhookPayload (JObj (remove_key field props))
     = Throw missing_fields_error.
Proof.
  intros Hd Hin Hv Hf. split.
  - rewrite (parseWebhookPayload_fields payload (JObj props) _ _ _ Hd
               (get_JObj props "event") (get_JObj props "publication")
               (get_JObj props "timestamp")).
    simpl in Hin. destruct Hin as [<-|[<-|[<-|[]]]]; rewrite Hv, Hf;
      rewrite ?andb_false_r; reflexivity.
  - rewrite (parseWebhookPayload_fields (JObj (remove_key field props))
               (JObj (remove_key field props)) _ _ _ eq_refl
               (get_JObj _ "event") (get_JObj _ "publication")
               (get_JObj _ "timestamp")).
    simpl in Hin. destruct Hin as [<-|[<-|[<-|[]]]];
      rewrite lookup_remove_key_same; cbn [truthy andb];
      rewrite ?andb_false_r; reflexivity.
Qed.

(** A payload whose event is one of the six literals and whose
    [publication] and [timestamp] are truthy is returned as it is, whenever
    the host's JSON functions reproduce it from its text. *)
Lemma parseWebhookPayload_accepts
  (p : JsValue) (text : string) (e : string) (pub ts : JsValue) :
  JSON_stringify p = Some text ->
  JSON_parse text = Return p ->
  get p "event" = Return (JStr e) -> In e validEvents ->
  get p "publication" = Return pub -> truthy pub = true ->
  get p "timestamp" = Return ts -> truthy ts = true ->
  parseWebhookPayload (JStr text) = Return p.
Proof.
  intros _ Hparse He Hin Hp Hpt Ht Htt.
  assert (Hd : payload_data (JStr text) = Return p).
  { unfold payload_data. cbn [typeof_string string_of]. rewrite Hparse.
    reflexivity. }
  rewrite (parseWebhookPayload_fields _ _ _ _ _ Hd He Hp Ht).
  rewrite Hpt, Htt.
  assert (Hv : validEvents_includes (JStr e) = true).
  { apply validEvents_includes_spec. eauto. }
  rewrite Hv.
  assert (He' : truthy (JStr e) = true).
  { apply truthy_JStr. intros ->. simpl in Hin. intuition discriminate. }
  rewrite He'. reflexivity.
Qed.

(** With [publication] and [timestamp] truthy, a truthy event outside the
    six literals makes the call throw: the invalid-event error with the
    event's text when the event converts to a string, as a string does. *)
Lemma parseWebhookPayload_unknown_event (payload d ev pub ts : JsValue) :
  payload_data payload = Return d ->
  get d "event" = Return ev -> truthy ev = true ->
  validEvents_includes ev = false ->
  get d "publication" = Return pub -> truthy pub = true ->
  get d "timestamp" = Return ts -> truthy ts = true ->
  (exists err, parseWebhookPayload payload = Throw err)
  /\ (forall shown, ToString ev = Return shown ->
        parseWebhookPayload payload
        = Throw (new_Error ("Invalid webhook event: " ++ shown)))
  /\ (forall e, ev = JStr e ->
        parseWebhookPayload payload
        = Throw (new_Error ("Invalid webhook event: " ++ e))).
Proof.
  intros Hd He Het Hinv Hp Hpt Ht Htt.
  rewrite (parseWebhookPayload_fields _ _ _ _ _ Hd He Hp Ht).
  rewrite Het, Hpt, Htt, Hinv. cbn [andb].
  split; [|split].
  - destruct (ToString ev) as [shown|err]; cbn [cbind]; eauto.
  - intros shown ->. reflexivity.
  - intros e ->. reflexivity.
Qed.

(* --------------------------------------------------------------------- *)
(** *** The slug guard *)
(* --------------------------------------------------------------------- *)

Lemma length_append (a b : string) :
  String.length (a ++ b) = (String.length a + String.length b)%nat.
Proof. induction a as [|c a IH]; simpl; [reflexivity | rewrite IH; reflexivity]. Qed.

Lemma strip_first_WhiteSpace (t rest : string) :
  In t WhiteSpace -> strip_first WhiteSpace (t ++ rest) = Some rest.
Proof.
  intros H. cbv in H.
  repeat (destruct H as [<-|H]; [reflexivity|]). contradiction.
Qed.

Lemma WhiteSpace_nonempty (t : string) :
  In t WhiteSpace -> (1 <= String.length t)%nat.
Proof.
  intros H. cbv in H.
  repeat (destruct H as [<-|H]; [simpl; lia|]). contradiction.
Qed.

Lemma strip_all_WhiteSpace (toks : list string) :
  Forall (fun t => In t WhiteSpace) toks ->
  forall fuel, (List.length toks <= fuel)%nat ->
  strip_all fuel WhiteSpace (fold_right append "" toks) = "".
Proof.
  induction 1 as [|t toks Ht _ IH]; intros fuel Hf.
  - destruct fuel; reflexivity.
  - destruct fuel as [|fuel]; [simpl in Hf; lia|].
    cbn [fold_right strip_all]. rewrite (strip_first_WhiteSpace _ _ Ht).
    apply IH. simpl in Hf. lia.
Qed.

Lemma tokens_length (toks : list string) :
  Forall (fun t => In t WhiteSpace) toks ->
  (List.length toks <= String.length (fold_right append "" toks))%nat.
Proof.
  induction 1 as [|t toks Ht _ IH]; simpl; [lia|].
  rewrite length_append. pose proof (WhiteSpace_nonempty t Ht). lia.
Qed.

Lemma trim_whitespace_only (s : string) : whitespace_only s -> trim s = "".
Proof.
  intros [toks [Hws ->]]. unfold trim, trimStart.
  rewrite (strip_all_WhiteSpace toks Hws); [reflexivity|].
  apply tokens_length. exact Hws.
Qed.

Lemma strip_prefix_Some (p s rest : string) :
  strip_prefix p s = Some rest -> s = p ++ rest.
Proof.
  revert s. induction p as [|a p IH]; intros s H; simpl in H.
  - injection H as ->. reflexivity.
  - destruct s as [|b s]; [discriminate|].
    destruct (Ascii.eqb_spec a b) as [->|_]; [|discriminate].
    simpl. f_equal. apply IH. exact H.
Qed.

Lemma strip_first_Some (toks : list string) (s rest : string) :
  strip_first toks s = Some rest -> exists t, In t toks /\ s = t ++ rest.
Proof.
  induction toks as [|t toks IH]; simpl; [discriminate|].
  destruct (strip_prefix t s) as [r|] eqn:E.
  - intros H. injection H as ->. exists t. split; [left; reflexivity|].
    apply strip_prefix_Some. exact E.
  - intros H. destruct (IH H) as [t' [Hin Hs]]. exists t'. split; [right|]; assumption.
Qed.

(** What [strip_all] removed is a run of the given tokens. *)
Lemma strip_all_removed (toks : list string) (fuel : nat) (s : string) :
  exists run, Forall (fun t => In t toks) run
              /\ s = fold_right append (strip_all fuel toks s) run.
Proof.
  revert s. induction fuel as [|fuel IH]; intros s; simpl.
  - exists []. split; [constructor | reflexivity].
  - destruct (strip_first toks s) as [rest|] eqn:E.
    + destruct (strip_first_Some _ _ _ E) as [t [Hin ->]].
      destruct (IH rest) as [run [Hrun Hrest]].
      exists (t :: run). split; [constructor; assumption|].
      simpl. rewrite <- Hrest. reflexivity.
    + exists []. split; [constructor | reflexivity].
Qed.

Lemma list_ascii_of_string_append (a b : string) :
  list_ascii_of_string (a ++ b)
  = (list_ascii_of_string a ++ list_ascii_of_string b)%list.
Proof. induction a as [|c a IH]; simpl; [reflexivity | rewrite IH; reflexivity]. Qed.

Lemma string_of_list_ascii_app (a b : list ascii) :
  string_of_list_ascii (a ++ b)%list
  = string_of_list_ascii a ++ string_of_list_ascii b.
Proof. induction a as [|c a IH]; simpl; [reflexivity | rewrite IH; reflexivity]. Qed.

Lemma reverse_append (a b : string) : reverse (a ++ b) = reverse b ++ reverse a.
Proof.
  unfold reverse. rewrite list_ascii_of_string_append, rev_app_distr.
  apply string_of_list_ascii_app.
Qed.

Lemma reverse_involutive (s : string) : reverse (reverse s) = s.
Proof.
  unfold reverse. rewrite list_ascii_of_string_of_list_ascii, rev_involutive.
  apply string_of_list_ascii_of_string.
Qed.

Lemma append_empty_r (s : string) : s ++ "" = s.
Proof. induction s as [|c s IH]; simpl; [reflexivity | rewrite IH; reflexivity]. Qed.

Lemma append_assoc (a b c : string) : (a ++ b) ++ c = a ++ (b ++ c).
Proof. induction a as [|x a IH]; simpl; [reflexivity | rewrite IH; reflexivity]. Qed.

Lemma fold_append_app (l1 l2 : list string) (tail : string) :
  fold_right append tail (l1 ++ l2)%list
  = fold_right append "" l1 ++ fold_right append tail l2.
Proof.
  induction l1 as [|t l1 IH]; simpl; [reflexivity|].
  rewrite IH, append_assoc. reflexivity.
Qed.

Lemma fold_append_tail (l : list string) (tail : string) :
  fold_right append tail l = fold_right append "" l ++ tail.
Proof.
  induction l as [|t l IH]; simpl; [reflexivity|].
  rewrite IH, append_assoc. reflexivity.
Qed.

(** Reversing a run of reversed tokens gives a run of tokens. *)
Lemma reverse_run (run : list string) :
  Forall (fun t => In t (map reverse WhiteSpace)) run ->
  exists run', Forall (fun t => In t WhiteSpace) run'
               /\ reverse (fold_right append "" run) = fold_right append "" run'.
Proof.
  induction 1 as [|t run Ht _ [run' [Hrun' IH]]].
  - exists []. split; [constructor | reflexivity].
  - apply in_map_iff in Ht. destruct Ht as [w [<- Hw]].
    exists (run' ++ [w])%list. split.
    + apply Forall_app. split; [exact Hrun' | constructor; [exact Hw | constructor]].
    + simpl. rewrite reverse_append, reverse_involutive, IH, fold_append_app.
      simpl. rewrite append_empty_r. reflexivity.
Qed.

(** Conversely, a string that [trim] empties is white space throughout. *)
Lemma trim_empty_whitespace_only (s : string) : trim s = "" -> whitespace_only s.
Proof.
  unfold trim, trimEnd. set (r := trimStart s). intros H.
  destruct (strip_all_removed WhiteSpace (String.length s) s) as [run1 [H1 Hs]].
  fold (trimStart s) in Hs. fold r in Hs.
  destruct (strip_all_removed (map reverse WhiteSpace) (String.length r) (reverse r))
    as [run2 [H2 Hr]].
  apply (f_equal reverse) in H. rewrite reverse_involutive in H.
  change (reverse "") with "" in H. rewrite H in Hr.
  apply (f_equal reverse) in Hr. rewrite reverse_involutive in Hr.
  destruct (reverse_run run2 H2) as [run2' [H2' E2]].
  rewrite E2 in Hr.
  exists (run1 ++ run2')%list. split.
  - apply Forall_app. split; assumption.
  - rewrite Hs, Hr, fold_append_app. apply fold_append_tail.
Qed.

(** Every slug is either refused by the guard or valid. *)
Lemma slug_cases (slug : JsValue) :
  valid_slug slug
  \/ (truthy slug = false \/ typeof_string slug = false
      \/ exists s, slug = JStr s /\ whitespace_only s).
Proof.
  destruct slug as [| |b|n|s|items|props];
    try (right; right; left; reflexivity).
  destruct (string_dec (trim s) "") as [E|N].
  - right. right. right. exists s. split; [reflexivity|].
    apply trim_empty_whitespace_only. exact E.
  - left. exists s. split; [reflexivity | exact N].
Qed.

(** C6.  An empty, non-string or white-space-only slug makes
    [getBlogPostBySlug] reject with the input-validation error before any
    request: the log of [fetch] calls is the one it started with. *)
Theorem invalid_slug_rejected_without_request
  (this : HashnodeService) (slug : JsValue) (log : list FetchCall) :
  truthy slug = false \/ typeof_string slug = false
  \/ (exists s, slug = JStr s /\ whitespace_only s) ->
  HashnodeService_getBlogPostBySlug this slug log
  = (Rejected invalid_slug_error, log).
Proof.
  intros H. unfold HashnodeService_getBlogPostBySlug.
  destruct H as [H|[H|[s [-> H]]]].
  - rewrite H. reflexivity.
  - rewrite H. rewrite orb_true_r. reflexivity.
  - cbn [string_of]. rewrite (trim_whitespace_only s H).
    rewrite !orb_true_r. reflexivity.
Qed.

(* --------------------------------------------------------------------- *)
(** *** The transport *)
(* --------------------------------------------------------------------- *)

(** [GraphQLClient.query] makes exactly one [fetch] call. *)
Lemma GraphQLClient_query_log url payload options log :
  snd (GraphQLClient_query url payload options log)
  = (log ++ [query_call url payload options])%list.
Proof.
  unfold GraphQLClient_query, abind, atry, fetch, await, reject, resolve, query_call.
  cbn [signal].
  destruct (delay_ms _); [|reflexivity].
  destruct (reply _) as [e|resp]; [destruct e; reflexivity|].
  destruct (ok resp); cbn [negb]; [reflexivity|].
  destruct (text resp) as [raw|e|]; try reflexivity.
  destruct e; reflexivity.
Qed.

Lemma executeQuery_log this q vars log :
  snd (executeQuery this q vars log) = (log ++ [service_call this q vars])%list.
Proof. apply GraphQLClient_query_log. Qed.

Lemma abind_lift_log {A B C} (m : Async A) (f : A -> Completion B)
  (g : B -> Completion C) log :
  snd ((x <- m ;; y <- lift (f x) ;; lift (g y)) log) = snd (m log).
Proof.
  unfold abind. destruct (m log) as [[a|e|] l]; try reflexivity.
  destruct (f a) as [b|e]; cbn; [|reflexivity].
  destruct (g b); reflexivity.
Qed.

Lemma posts_attempt_log this extended vars log :
  snd (posts_attempt this extended vars log)
  = (log ++ [service_call this (HashnodeQueries_getBlogPosts extended) vars])%list.
Proof.
  unfold posts_attempt.
  rewrite (abind_lift_log _ validateResponse). apply executeQuery_log.
Qed.

Lemma post_attempt_log this extended vars log :
  snd (post_attempt this extended vars log)
  = (log ++ [service_call this (HashnodeQueries_getBlogPostBySlug extended) vars])%list.
Proof.
  unfold post_attempt.
  rewrite (abind_lift_log _ validateResponse). apply executeQuery_log.
Qed.

(* --------------------------------------------------------------------- *)
(** *** The two-attempt policy *)
(* --------------------------------------------------------------------- *)

Lemma atry_ext {A} (b1 b2 : Async A) (h1 h2 : JsThrown -> Async A) log :
  b1 log = b2 log -> (forall e l, h1 e l = h2 e l) ->
  atry b1 h1 log = atry b2 h2 log.
Proof.
  intros Hb Hh. unfold atry. rewrite Hb.
  destruct (b2 log) as [[a|e|] l]; [reflexivity | apply Hh | reflexivity].
Qed.

Lemma seq_stmt_ext {R} (s1 s2 : Async (StmtResult R)) (rest : Async R) log :
  s1 log = s2 log -> seq_stmt s1 rest log = seq_stmt s2 rest log.
Proof. intros H. unfold seq_stmt, abind. rewrite H. reflexivity. Qed.

Lemma page_size_min (count : option Z) :
  Z.min (match count with Some c => c | None => DEFAULT_POSTS_COUNT end)
        MAX_POSTS_PER_REQUEST
  = page_size count.
Proof.
  unfold page_size, DEFAULT_POSTS_COUNT, MAX_POSTS_PER_REQUEST.
  destruct count as [c|]; [|reflexivity].
  destruct (Z.ltb_spec 20 c); lia.
Qed.

(** [getBlogPosts] in terms of its attempts. *)
Lemma getBlogPosts_run this count log :
  HashnodeService_getBlogPosts this count log
  = atry (posts_attempt this true (posts_variables this (page_size count)))
         (fun error =>
            seq_stmt (posts_fallback this (posts_variables this (page_size count)))
                     (reject error)) log.
Proof.
  unfold HashnodeService_getBlogPosts. rewrite page_size_min.
  apply atry_ext; [reflexivity|]. intros error l.
  apply seq_stmt_ext. unfold posts_fallback.
  apply atry_ext; [|reflexivity].
  unfold posts_attempt, abind.
  destruct (executeQuery _ _ _ l) as [[r|e|] l']; try reflexivity.
  destruct (validateResponse r) as [d|e]; cbn; [|reflexivity].
  destruct (cbind (get d "publication") _); reflexivity.
Qed.

(** The inner [try] statement always returns from the function (or never
    settles): it neither rejects nor falls through. *)
Lemma posts_fallback_returns this vars log :
  (exists nodes, fst (posts_fallback this vars log) = Fulfilled (Returned nodes))
  \/ fst (posts_fallback this vars log) = Pending.
Proof.
  unfold posts_fallback, atry, abind.
  destruct (posts_attempt this false vars log) as [[nodes|e|] l]; cbn; eauto.
Qed.

Lemma length_zero_empty (s : string) : String.length s = 0%nat <-> s = "".
Proof. destruct s; simpl; split; intros; congruence. Qed.

(** [getBlogPostBySlug] on a slug that passes the guard. *)
Lemma getBlogPostBySlug_run this slug log :
  valid_slug slug ->
  HashnodeService_getBlogPostBySlug this slug log
  = atry (post_attempt this true (slug_variables this slug))
         (fun error =>
            atry (post_attempt this false (slug_variables this slug))
                 (fun _ => reject error)) log.
Proof.
  intros [s [-> Hs]]. unfold HashnodeService_getBlogPostBySlug.
  assert (Ht : truthy (JStr s) = true).
  { apply truthy_JStr. intros ->. apply Hs. reflexivity. }
  rewrite Ht. cbn [typeof_string string_of negb orb].
  destruct (Nat.eqb_spec (String.length (trim s)) 0) as [E|_].
  - apply length_zero_empty in E. contradiction.
  - reflexivity.
Qed.

(** The two field-set tiers are different documents. *)
Lemma post_queries_differ :
  HashnodeQueries_getBlogPostBySlug true <> HashnodeQueries_getBlogPostBySlug false.
Proof. intros H. apply (f_equal String.length) in H. vm_compute in H. discriminate H. Qed.

Lemma posts_queries_differ :
  HashnodeQueries_getBlogPosts true <> HashnodeQueries_getBlogPosts false.
Proof. intros H. apply (f_equal String.length) in H. vm_compute in H. discriminate H. Qed.

(** C1.  When both attempts of [getBlogPostBySlug] fail, the caller sees
    the error of the first (extended) attempt. *)
Theorem both_attempts_fail_first_error
  (this : HashnodeService) (slug : JsValue) (log log1 log2 : list FetchCall)
  (e1 e2 : JsThrown) :
  valid_slug slug ->
  post_attempt this true (slug_variables this slug) log = (Rejected e1, log1) ->
  post_attempt this false (slug_variables this slug) log1 = (Rejected e2, log2) ->
  HashnodeService_getBlogPostBySlug this slug log = (Rejected e1, log2).
Proof.
  intros Hv H1 H2. rewrite (getBlogPostBySlug_run _ _ _ Hv).
  unfold atry. rewrite H1, H2. reflexivity.
Qed.

(** C2.  On a valid slug the first request carries the extended query; a
    second request, carrying the basic query, is made exactly when the
    first attempt rejects; there is never a third; and a fulfilled first
    attempt leaves the log with the one request. *)
Theorem slug_requests_extended_then_basic
  (this : HashnodeService) (slug : JsValue) (log : list FetchCall) :
  valid_slug slug ->
  let vars := slug_variables this slug in
  let first := post_attempt this true vars log in
  let final := snd (HashnodeService_getBlogPostBySlug this slug log) in
  snd first = (log ++ [post_call this true slug])%list
  /\ (final = (log ++ [post_call this true slug])%list
      \/ final = (log ++ [post_call this true slug; post_call this false slug])%list)
  /\ (final = (log ++ [post_call this true slug; post_call this false slug])%list
      <-> exists e, fst first = Rejected e)
  /\ ((exists v, fst first = Fulfilled v) ->
      final = (log ++ [post_call this true slug])%list).
Proof.
  intros Hv vars first final.
  assert (Hfirst : snd first = (log ++ [post_call this true slug])%list)
    by apply post_attempt_log.
  assert (Hfinal :
    final = match fst first with
            | Rejected _ =>
                (log ++ [post_call this true slug; post_call this false slug])%list
            | _ => (log ++ [post_call this true slug])%list
            end).
  { subst final. rewrite (getBlogPostBySlug_run _ _ _ Hv). fold vars.
    unfold atry. fold first.
    destruct first as [[v|e|] l] eqn:E; cbn [fst snd] in *; subst l;
      try reflexivity.
    pose proof (post_attempt_log this false vars
                  (log ++ [post_call this true slug])%list) as L.
    destruct (post_attempt this false vars _) as [[v|e'|] l]; cbn [fst snd] in *;
      subst l; rewrite <- app_assoc; reflexivity. }
  assert (Hlen : (log ++ [post_call this true slug])%list
                 <> (log ++ [post_call this true slug; post_call this false slug])%list).
  { intros H. apply (f_equal (@List.length _)) in H.
    rewrite !length_app in H. simpl in H. lia. }
  split; [exact Hfirst|]. split; [|split].
  - rewrite Hfinal. destruct (fst first); auto.
  - rewrite Hfinal. destruct (fst first) as [v|e|]; split.
    + intros H. contradiction.
    + intros [e H]. discriminate H.
    + eauto.
    + reflexivity.
    + intros H. contradiction.
    + intros [e H]. discriminate H.
  - intros [v H]. rewrite Hfinal, H. reflexivity.
Qed.

(** C3.  When both attempts of [getBlogPosts] fail it fulfils with the
    empty list; it rejects on no input at all; whatever statement follows
    the inner [try] is never run, so the trailing [throw error] is dead; and
    the facade's [getBlogPosts] fulfils with the empty list when every
    transport call fails. *)
Theorem posts_both_fail_empty_list
  (this : HashnodeService) (count : option Z) (log : list FetchCall) :
  let vars := posts_variables this (page_size count) in
  (forall e1 e2 log1 log2,
      posts_attempt this true vars log = (Rejected e1, log1) ->
      posts_attempt this false vars log1 = (Rejected e2, log2) ->
      HashnodeService_getBlogPosts this count log = (Fulfilled [], log2))
  /\ (forall e, fst (HashnodeService_getBlogPosts this count log) <> Rejected e)
  /\ (forall (tail : Async (list JsValue)) (error : JsThrown) l,
         seq_stmt (posts_fallback this vars) tail l
         = seq_stmt (posts_fallback this vars) (reject error) l)
  /\ (transport_always_fails -> fst (getBlogPosts count log) = Fulfilled []).
Proof.
  intros vars. split; [|split; [|split]].
  - intros e1 e2 log1 log2 H1 H2. rewrite getBlogPosts_run. fold vars.
    unfold atry at 1. rewrite H1.
    unfold seq_stmt, posts_fallback, atry, abind. rewrite H2. reflexivity.
  - intros e. rewrite getBlogPosts_run. fold vars. unfold atry at 1.
    destruct (posts_attempt this true vars log) as [[nodes|e1|] log1];
      cbn [fst]; try discriminate.
    unfold seq_stmt, abind.
    destruct (posts_fallback_returns this vars log1) as [[nodes H]|H];
      destruct (posts_fallback this vars log1) as [[c|e2|] log2];
      cbn [fst] in H; try discriminate H.
    + injection H as ->. discriminate.
    + discriminate.
  - intros tail error l. unfold seq_stmt, abind.
    destruct (posts_fallback_returns this vars l) as [[nodes H]|H];
      destruct (posts_fallback this vars l) as [[c|e2|] log2];
      cbn [fst] in H; try discriminate H.
    + injection H as ->. reflexivity.
    + reflexivity.
  - intros Hfail. unfold getBlogPosts, atry at 1.
    rewrite getBlogPosts_run.
    set (v := posts_variables hashnodeService (page_size count)).
    assert (Hatt : forall ext l, exists e,
               fst (posts_attempt hashnodeService ext v l) = Rejected e).
    { intros ext l. unfold posts_attempt, abind, executeQuery.
      destruct (Hfail (apiUrl hashnodeService)
                  {| query := HashnodeQueries_getBlogPosts ext; variables := Some v |}
                  {| opt_timeout := Some (timeout hashnodeService);
                     opt_headers := None |} l) as [e He].
      destruct (GraphQLClient_query _ _ _ l) as [[r|e'|] l']; cbn [fst] in He;
        try discriminate He. cbn. eauto. }
    unfold atry at 1.
    destruct (Hatt true log) as [e1 H1].
    destruct (posts_attempt hashnodeService true v log) as [[?|?|] log1];
      cbn [fst] in H1; try discriminate H1.
    unfold seq_stmt, posts_fallback, atry, abind.
    destruct (Hatt false log1) as [e2 H2].
    destruct (posts_attempt hashnodeService false v log1) as [[?|?|] log2];
      cbn [fst] in H2; try discriminate H2.
    reflexivity.
Qed.

(** C5.  The [first] variable of every request [getBlogPosts] sends is
    [min (count ?? default) ceiling]: the ceiling for a request above it,
    the request itself at or below it (zero and negative ones included),
    the default when none is given. *)
Theorem sent_page_size
  (this : HashnodeService) (count : option Z) (log : list FetchCall) :
  page_size count
  = Z.min (match count with Some c => c | None => DEFAULT_POSTS_COUNT end)
          MAX_POSTS_PER_REQUEST
  /\ (forall c, count = Some c -> MAX_POSTS_PER_REQUEST < c ->
        page_size count = MAX_POSTS_PER_REQUEST)
  /\ (forall c, count = Some c -> c <= MAX_POSTS_PER_REQUEST -> page_size count = c)
  /\ exists issued : list FetchCall,
       snd (HashnodeService_getBlogPosts this count log) = (log ++ issued)%list
       /\ issued <> []
       /\ Forall (fun call =>
                    exists extended, call = posts_call this extended (page_size count))
                 issued.
Proof.
  split; [symmetry; apply page_size_min|]. split; [|split].
  - intros c -> H. unfold page_size.
    destruct (Z.ltb_spec MAX_POSTS_PER_REQUEST c); [reflexivity | lia].
  - intros c -> H. unfold page_size.
    destruct (Z.ltb_spec MAX_POSTS_PER_REQUEST c); [lia | reflexivity].
  - rewrite getBlogPosts_run.
    set (vars := posts_variables this (page_size count)).
    unfold atry at 1.
    pose proof (posts_attempt_log this true vars log) as L1.
    destruct (posts_attempt this true vars log) as [[nodes|e1|] log1];
      cbn [snd] in *; subst log1.
    + exists [posts_call this true (page_size count)].
      split; [reflexivity|]. split; [discriminate|].
      constructor; [eauto | constructor].
    + exists [posts_call this true (page_size count);
              posts_call this false (page_size count)].
      split.
      * unfold seq_stmt, posts_fallback, atry, abind.
        pose proof (posts_attempt_log this false vars
                      (log ++ [posts_call this true (page_size count)])%list) as L2.
        fold (posts_call this true (page_size count)).
        destruct (posts_attempt this false vars _) as [[nodes|e2|] log2];
          cbn [snd] in *; subst log2; rewrite <- app_assoc; reflexivity.
      * split; [discriminate|].
        constructor; [eauto | constructor; [eauto | constructor]].
    + exists [posts_call this true (page_size count)].
      split; [reflexivity|]. split; [discriminate|].
      constructor; [eauto | constructor].
Qed.

(** How an attempt of [getBlogPostBySlug] fails: by a transport error, by
    a populated error list, by missing data. *)
Lemma post_attempt_failure_modes this extended vars log :
  let q := HashnodeQueries_getBlogPostBySlug extended in
  (forall e l, executeQuery this q vars log = (Rejected e, l) ->
               post_attempt this extended vars log = (Rejected e, l))
  /\ (forall r l e es,
         executeQuery this q vars log = (Fulfilled r, l) ->
         errors r = Some (e :: es) ->
         post_attempt this extended vars log
         = (Rejected (new_Error ("GraphQL error: "
                                 ++ join ", " (map message (e :: es)))), l))
  /\ (forall r l,
         executeQuery this q vars log = (Fulfilled r, l) ->
         errors r = None \/ errors r = Some [] ->
         truthy (data r) = false ->
         post_attempt this extended vars log
         = (Rejected (new_Error "No data returned from GraphQL query"), l)).
Proof.
  intros q. unfold post_attempt, abind. fold q. split; [|split].
  - intros e l ->. reflexivity.
  - intros r l e es -> He. unfold validateResponse. rewrite He. reflexivity.
  - intros r l -> He Hd. unfold validateResponse.
    destruct He as [-> | ->]; rewrite Hd; reflexivity.
Qed.

(** However long the remote takes, and whatever [timeout] says, a 2xx
    response is waited for and its body promise handed back. *)
Lemma GraphQLClient_query_waits url payload options log d resp :
  remote env log (query_call url payload options)
  = {| delay_ms := Some d; reply := HttpResponse resp |} ->
  ok resp = true ->
  fst (GraphQLClient_query url payload options log) = json resp.
Proof.
  intros Hr Hok.
  unfold GraphQLClient_query, abind, atry, fetch, await, resolve.
  fold (query_call url payload options). rewrite Hr. cbn.
  rewrite Hok. cbn. destruct (json resp); reflexivity.
Qed.

(** A remote that stays silent leaves the call pending for good. *)
Lemma GraphQLClient_query_hangs url payload options log r :
  remote env log (query_call url payload options)
  = {| delay_ms := None; reply := r |} ->
  fst (GraphQLClient_query url payload options log) = Pending.
Proof.
  intros Hr.
  unfold GraphQLClient_query, abind, atry, fetch, await, resolve.
  fold (query_call url payload options). rewrite Hr. reflexivity.
Qed.

(** The [timeout] option has no part in what [GraphQLClient.query] does. *)
Lemma GraphQLClient_query_timeout_unused url payload t1 t2 h log :
  GraphQLClient_query url payload {| opt_timeout := t1; opt_headers := h |} log
  = GraphQLClient_query url payload {| opt_timeout := t2; opt_headers := h |} log.
Proof. reflexivity. Qed.

(* --------------------------------------------------------------------- *)
(** *** The single-attempt operations *)
(* --------------------------------------------------------------------- *)

Lemma attempt_log {A} this q vars (extract : JsValue -> Completion A) log :
  snd (attempt this q vars extract log) = (log ++ [service_call this q vars])%list.
Proof.
  unfold attempt. rewrite (abind_lift_log _ validateResponse). apply executeQuery_log.
Qed.

Lemma validateResponse_errors r x xs :
  errors r = Some (x :: xs) ->
  validateResponse r
  = Throw (new_Error ("GraphQL error: " ++ join ", " (map message (x :: xs)))).
Proof. intros H. unfold validateResponse. rewrite H. reflexivity. Qed.

Lemma validateResponse_no_errors r :
  errors r = None \/ errors r = Some [] ->
  validateResponse r
  = if truthy (data r) then Return (data r)
    else Throw (new_Error "No data returned from GraphQL query").
Proof.
  intros [H|H]; unfold validateResponse; rewrite H; destruct (truthy (data r));
    reflexivity.
Qed.

(** The shape [try { attempt } catch { return dflt }] meets its contract. *)
Lemma attempt_defaults_on_failure {A} this q vars
  (extract : JsValue -> Completion A) (dflt : A) (op : Async A) :
  (forall log, op log = atry (attempt this q vars extract) (fun _ => resolve dflt) log) ->
  defaults_on_failure op this q vars extract dflt.
Proof.
  intros Hop log. rewrite Hop. unfold atry.
  pose proof (attempt_log this q vars extract log) as Hlog.
  pose proof (executeQuery_log this q vars log) as Hq.
  unfold attempt, abind in *.
  destruct (executeQuery this q vars log) as [[r|e|] l]; cbn [fst snd] in *; subst l.
  - repeat split.
    + destruct (lift (validateResponse r) _) as [[d|e|] l] eqn:E; cbn [snd] in *;
        try (subst l; reflexivity).
      destruct (lift (extract d) l) as [[a|e|] l'] eqn:E'; cbn [snd] in *;
        subst l'; reflexivity.
    + intros e.
      destruct (validateResponse r) as [d|e']; cbn; [|discriminate].
      destruct (extract d); cbn; discriminate.
    + intros e l H. discriminate H.
    + intros r' l x xs H He. injection H as <- <-.
      rewrite (validateResponse_errors _ _ _ He). reflexivity.
    + intros r' l H He Hd. injection H as <- <-.
      rewrite (validateResponse_no_errors _ He), Hd. reflexivity.
    + intros r' l H He Hd. injection H as <- <-.
      rewrite (validateResponse_no_errors _ He), Hd. cbn.
      destruct (extract (data r)); reflexivity.
  - repeat split; try (intros; discriminate).
    intros e' l H. injection H as <- <-. reflexivity.
  - repeat split; try (intros; discriminate).
Qed.

Ltac by_gets :=
  repeat match goal with
         | |- context [get ?v ?k] => destruct (get v k); cbn [cbind]
         end;
  reflexivity.

(** An operation written with the inline extraction is the same attempt. *)
Ltac same_attempt :=
  intros; apply atry_ext; [|reflexivity];
  unfold attempt, abind, clamp;
  match goal with
  | |- context [executeQuery ?t ?q ?v ?l] =>
      destruct (executeQuery t q v l) as [[?r|?e|] ?l']; try reflexivity
  end;
  match goal with
  | |- context [validateResponse ?r] =>
      destruct (validateResponse r) as [?d|?e]; cbn; [|reflexivity]
  end;
  unfold nodes_at, dig; f_equal; by_gets.

Lemma blank_guard (s : string) :
  whitespace_only s ->
  negb (truthy (JStr s)) || (String.length (trim s) =? 0)%nat = true.
Proof.
  intros H. rewrite (trim_whitespace_only s H). apply orb_true_r.
Qed.

Lemma nonblank_guard (s : string) :
  trim s <> "" ->
  negb (truthy (JStr s)) || (String.length (trim s) =? 0)%nat = false.
Proof.
  intros H.
  assert (Ht : truthy (JStr s) = true).
  { apply truthy_JStr. intros ->. apply H. reflexivity. }
  rewrite Ht. cbn [negb orb].
  destruct (Nat.eqb_spec (String.length (trim s)) 0) as [E|_]; [|reflexivity].
  apply length_zero_empty in E. contradiction.
Qed.

Lemma clamp_le (limit : option Z) (default ceiling : Z) :
  clamp limit default ceiling <= ceiling.
Proof. unfold clamp. lia. Qed.

(** X1.  [getPublication] and [getRecommendedPublications]: one request
    carrying the host, never a rejection, [null] (respectively the empty
    array) on every failure, the [publication] (respectively its
    [recommendedPublications]) entry of the data otherwise. *)
Theorem publication_operations_default (this : HashnodeService) :
  defaults_on_failure (HashnodeService_getPublication this) this
    HashnodeQueries_getPublication
    (JObj [("host", JStr (publicationHost this))])
    (dig ["publication"]) JNull
  /\ defaults_on_failure (HashnodeService_getRecommendedPublications this) this
       HashnodeQueries_getRecommendedPublications
       (JObj [("host", JStr (publicationHost this))])
       (dig ["publication"; "recommendedPublications"]) (JArr []).
Proof.
  split; apply attempt_defaults_on_failure.
  - unfold HashnodeService_getPublication. intros; apply atry_ext; [|reflexivity].
    unfold attempt, abind.
    destruct (executeQuery _ _ _ log) as [[r|e|] l]; try reflexivity.
    destruct (validateResponse r) as [d|e]; cbn; [|reflexivity].
    unfold dig. f_equal. by_gets.
  - unfold HashnodeService_getRecommendedPublications.
    intros; apply atry_ext; [|reflexivity].
    unfold attempt, abind.
    destruct (executeQuery _ _ _ log) as [[r|e|] l]; try reflexivity.
    destruct (validateResponse r) as [d|e]; cbn; [|reflexivity].
    unfold dig. f_equal. by_gets.
Qed.

(** X2.  [getSeriesList], [getStaticPages] and [getDrafts]: one request
    whose [first] is [min (limit ?? 10) 20], never a rejection, the empty
    list on every failure, the nodes of the edges otherwise. *)
Theorem list_operations_default (this : HashnodeService) (limit : option Z) :
  let vars :=
    JObj [("host", JStr (publicationHost this));
          ("first", JNum (clamp limit 10 MAX_POSTS_PER_REQUEST))] in
  clamp limit 10 MAX_POSTS_PER_REQUEST <= 20
  /\ defaults_on_failure (HashnodeService_getSeriesList this limit) this
       HashnodeQueries_getSeriesList vars
       (nodes_at ["publication"; "seriesList"; "edges"]) []
  /\ defaults_on_failure (HashnodeService_getStaticPages this limit) this
       HashnodeQueries_getStaticPages vars
       (nodes_at ["publication"; "staticPages"; "edges"]) []
  /\ defaults_on_failure (HashnodeService_getDrafts this limit) this
       HashnodeQueries_getDrafts vars
       (nodes_at ["publication"; "drafts"; "edges"]) [].
Proof.
  cbv zeta. split; [apply clamp_le|].
  split; [|split]; apply attempt_defaults_on_failure.
  - unfold HashnodeService_getSeriesList. same_attempt.
  - unfold HashnodeService_getStaticPages. same_attempt.
  - unfold HashnodeService_getDrafts. same_attempt.
Qed.

(** X3.  [getSeries] and [getStaticPage]: a blank slug gives [null] with
    nothing sent; any other slug gives one request carrying the trimmed
    slug, never a rejection, [null] on every failure. *)
Theorem slug_lookups_default (this : HashnodeService) (slug : string) :
  (whitespace_only slug ->
   forall log,
     HashnodeService_getSeries this slug log = (Fulfilled JNull, log)
     /\ HashnodeService_getStaticPage this slug log = (Fulfilled JNull, log))
  /\ (trim slug <> "" ->
      let vars :=
        JObj [("host", JStr (publicationHost this)); ("slug", JStr (trim slug))] in
      defaults_on_failure (HashnodeService_getSeries this slug) this
        HashnodeQueries_getSeries vars (dig ["publication"; "series"]) JNull
      /\ defaults_on_failure (HashnodeService_getStaticPage this slug) this
           HashnodeQueries_getStaticPage vars (dig ["publication"; "staticPage"]) JNull).
Proof.
  split.
  - intros H log. unfold HashnodeService_getSeries, HashnodeService_getStaticPage.
    rewrite (blank_guard slug H). split; reflexivity.
  - intros H. cbv zeta. split; apply attempt_defaults_on_failure.
    + unfold HashnodeService_getSeries. rewrite (nonblank_guard slug H).
      intros; apply atry_ext; [|reflexivity].
      unfold attempt, abind.
      destruct (executeQuery _ _ _ log) as [[r|e|] l]; try reflexivity.
      destruct (validateResponse r) as [d|e]; cbn; [|reflexivity].
      unfold dig. f_equal. by_gets.
    + unfold HashnodeService_getStaticPage. rewrite (nonblank_guard slug H).
      intros; apply atry_ext; [|reflexivity].
      unfold attempt, abind.
      destruct (executeQuery _ _ _ log) as [[r|e|] l]; try reflexivity.
      destruct (validateResponse r) as [d|e]; cbn; [|reflexivity].
      unfold dig. f_equal. by_gets.
Qed.

(** X4.  [searchPosts]: a blank query gives the empty list with nothing
    sent; any other query gives one request whose [first] is
    [min (limit ?? 10) 20] and whose filter carries the trimmed query, never
    a rejection, the empty list on every failure. *)
Theorem searchPosts_default (this : HashnodeService) (query : string)
  (limit : option Z) :
  (whitespace_only query ->
   forall log, HashnodeService_searchPosts this query limit log = (Fulfilled [], log))
  /\ (trim query <> "" ->
      defaults_on_failure (HashnodeService_searchPosts this query limit) this
        HashnodeQueries_searchPosts
        (JObj [("first", JNum (clamp limit 10 MAX_POSTS_PER_REQUEST));
               ("filter", JObj [("publicationId", JStr (publicationHost this));
                                ("query", JStr (trim query))])])
        (nodes_at ["searchPostsOfPublication"; "edges"]) []).
Proof.
  split.
  - intros H log. unfold HashnodeService_searchPosts.
    rewrite (blank_guard query H). reflexivity.
  - intros H. apply attempt_defaults_on_failure.
    unfold HashnodeService_searchPosts. rewrite (nonblank_guard query H).
    same_attempt.
Qed.

(** X5.  [getSeriesPosts]: a blank series slug gives the empty list with
    nothing sent; any other gives one request carrying the trimmed slug and
    [first = min (limit ?? 10) 20], never a rejection, the empty list on
    every failure. *)
Theorem getSeriesPosts_default (this : HashnodeService) (seriesSlug : string)
  (limit : option Z) :
  (whitespace_only seriesSlug ->
   forall log,
     HashnodeService_getSeriesPosts this seriesSlug limit log = (Fulfilled [], log))
  /\ (trim seriesSlug <> "" ->
      defaults_on_failure (HashnodeService_getSeriesPosts this seriesSlug limit) this
        HashnodeQueries_getSeriesPosts
        (JObj [("host", JStr (publicationHost this));
               ("seriesSlug", JStr (trim seriesSlug));
               ("first", JNum (clamp limit 10 MAX_POSTS_PER_REQUEST))])
        (nodes_at ["publication"; "series"; "posts"; "edges"]) []).
Proof.
  split.
  - intros H log. unfold HashnodeService_getSeriesPosts.
    rewrite (blank_guard seriesSlug H). reflexivity.
  - intros H. apply attempt_defaults_on_failure.
    unfold HashnodeService_getSeriesPosts. rewrite (nonblank_guard seriesSlug H).
    same_attempt.
Qed.

(** X6.  [getPostComments]: a blank post id gives the empty list with
    nothing sent; any other gives one request carrying the trimmed id and
    [first = min (limit ?? 20) 50] (its own default and ceiling, and no host),
    never a rejection, the empty list on every failure. *)
Theorem getPostComments_default (this : HashnodeService) (postId : string)
  (limit : option Z) :
  clamp limit 20 50 <= 50
  /\ (whitespace_only postId ->
      forall log,
        HashnodeService_getPostComments this postId limit log = (Fulfilled [], log))
  /\ (trim postId <> "" ->
      defaults_on_failure (HashnodeService_getPostComments this postId limit) this
        HashnodeQueries_getPostComments
        (JObj [("postId", JStr (trim postId)); ("first", JNum (clamp limit 20 50))])
        (nodes_at ["post"; "comments"; "edges"]) []).
Proof.
  split; [apply clamp_le|]. split.
  - intros H log. unfold HashnodeService_getPostComments.
    rewrite (blank_guard postId H). reflexivity.
  - intros H. apply attempt_defaults_on_failure.
    unfold HashnodeService_getPostComments. rewrite (nonblank_guard postId H).
    same_attempt.
Qed.

(* --------------------------------------------------------------------- *)
(** *** Edges and nodes *)
(* --------------------------------------------------------------------- *)

Lemma mapM_nodes_readable (items : list JsValue) :
  forallb readable items = true ->
  mapM (fun edge => get edge "node") items = Return (map node_of items).
Proof.
  induction items as [|x items IH]; [reflexivity|].
  cbn [forallb]. intros H. apply andb_prop in H as [Hx Hr].
  cbn [mapM map]. rewrite (IH Hr).
  destruct x; try discriminate Hx; reflexivity.
Qed.

Lemma mapM_nodes_unreadable (items : list JsValue) :
  forallb readable items = false ->
  exists msg, mapM (fun edge => get edge "node") items = Throw (new_TypeError msg).
Proof.
  induction items as [|x items IH]; [discriminate|].
  cbn [forallb]. intros H. cbn [mapM].
  destruct (readable x) eqn:Hx.
  - cbn [andb] in H. destruct (IH H) as [msg E]. rewrite E.
    exists msg. destruct x; try discriminate Hx; reflexivity.
  - destruct x; try discriminate Hx; cbn; eauto.
Qed.

(** A read two levels deep succeeds on objects only. *)
Lemma dig_truthy (k1 k2 : string) (rest : list string) (v x : JsValue) :
  dig (k1 :: k2 :: rest) v = Return x -> truthy v = true.
Proof.
  cbn [dig]. destruct v; cbn; try discriminate; try reflexivity.
Qed.

(** The result of an attempt on a clean envelope. *)
Lemma attempt_clean {A} this q vars (extract : JsValue -> Completion A) log r l :
  executeQuery this q vars log = (Fulfilled r, l) ->
  errors r = None \/ errors r = Some [] ->
  truthy (data r) = true ->
  attempt this q vars extract log = lift (extract (data r)) l.
Proof.
  intros Hq He Hd. unfold attempt, abind. rewrite Hq.
  rewrite (validateResponse_no_errors _ He), Hd. reflexivity.
Qed.

Lemma nodes_at_edges (path : list string) (v : JsValue) (items : list JsValue) :
  dig path v = Return (JArr items) ->
  nodes_at path v
  = if forallb readable items then Return (map node_of items)
    else mapM (fun edge => get edge "node") items.
Proof.
  intros H. unfold nodes_at. rewrite H. cbn [cbind Array_map].
  destruct (forallb readable items) eqn:F; [|reflexivity].
  apply mapM_nodes_readable. exact F.
Qed.

(** An operation of the shape [try { ...edges.map(edge => edge.node) }
    catch { return [] }] on an answer that has an edge array. *)
Lemma edges_result this q vars path (op : Async (list JsValue)) k1 k2 rest :
  path = k1 :: k2 :: rest ->
  (forall log, op log = atry (attempt this q vars (nodes_at path))
                             (fun _ => resolve []) log) ->
  forall log r l items,
    executeQuery this q vars log = (Fulfilled r, l) ->
    errors r = None \/ errors r = Some [] ->
    dig path (data r) = Return (JArr items) ->
    op log = (Fulfilled (if forallb readable items then map node_of items else []), l).
Proof.
  intros Hp Hop log r l items Hq He Hd. rewrite Hop. unfold atry.
  assert (Ht : truthy (data r) = true).
  { rewrite Hp in Hd. apply (dig_truthy _ _ _ _ _ Hd). }
  rewrite (attempt_clean _ _ _ _ _ _ _ Hq He Ht).
  rewrite (nodes_at_edges _ _ _ Hd).
  destruct (forallb readable items) eqn:F; [reflexivity|].
  destruct (mapM_nodes_unreadable items F) as [msg ->]. reflexivity.
Qed.

(** X7.  The list operations keep all nodes or none: on an answer whose
    edge array holds only readable edges the result is the list of their
    [node]s; one [null] or [undefined] edge makes the whole result the empty
    list, the other nodes being dropped with it. *)
Theorem edge_lists_all_or_nothing (this : HashnodeService) (limit : option Z)
  (log l : list FetchCall) (r : GraphQLResponse) (items : list JsValue) :
  let vars :=
    JObj [("host", JStr (publicationHost this));
          ("first", JNum (clamp limit 10 MAX_POSTS_PER_REQUEST))] in
  let result := if forallb readable items then map node_of items else [] in
  errors r = None \/ errors r = Some [] ->
  (executeQuery this HashnodeQueries_getSeriesList vars log = (Fulfilled r, l) ->
   dig ["publication"; "seriesList"; "edges"] (data r) = Return (JArr items) ->
   HashnodeService_getSeriesList this limit log = (Fulfilled result, l))
  /\ (executeQuery this HashnodeQueries_getStaticPages vars log = (Fulfilled r, l) ->
      dig ["publication"; "staticPages"; "edges"] (data r) = Return (JArr items) ->
      HashnodeService_getStaticPages this limit log = (Fulfilled result, l))
  /\ (executeQuery this HashnodeQueries_getDrafts vars log = (Fulfilled r, l) ->
      dig ["publication"; "drafts"; "edges"] (data r) = Return (JArr items) ->
      HashnodeService_getDrafts this limit log = (Fulfilled result, l)).
Proof.
  cbv zeta. intros He. split; [|split]; intros Hq Hd.
  - refine (edges_result this _ _ _ _ _ _ _ eq_refl _ log r l items Hq He Hd).
    unfold HashnodeService_getSeriesList. same_attempt.
  - refine (edges_result this _ _ _ _ _ _ _ eq_refl _ log r l items Hq He Hd).
    unfold HashnodeService_getStaticPages. same_attempt.
  - refine (edges_result this _ _ _ _ _ _ _ eq_refl _ log r l items Hq He Hd).
    unfold HashnodeService_getDrafts. same_attempt.
Qed.

(* --------------------------------------------------------------------- *)
(** *** What the two-attempt operations return *)
(* --------------------------------------------------------------------- *)

Lemma posts_attempt_attempt this extended vars log :
  posts_attempt this extended vars log
  = attempt this (HashnodeQueries_getBlogPosts extended) vars
            (nodes_at ["publication"; "posts"; "edges"]) log.
Proof.
  unfold posts_attempt, attempt, abind.
  destruct (executeQuery _ _ _ log) as [[r|e|] l]; try reflexivity.
  destruct (validateResponse r) as [d|e]; cbn; [|reflexivity].
  unfold nodes_at, dig. f_equal. by_gets.
Qed.

Lemma post_attempt_attempt this extended vars log :
  post_attempt this extended vars log
  = attempt this (HashnodeQueries_getBlogPostBySlug extended) vars
            (dig ["publication"; "post"]) log.
Proof.
  unfold post_attempt, attempt, abind.
  destruct (executeQuery _ _ _ log) as [[r|e|] l]; try reflexivity.
  destruct (validateResponse r) as [d|e]; cbn; [|reflexivity].
  unfold dig. f_equal. by_gets.
Qed.

Lemma posts_attempt_edges this extended vars log r l items :
  executeQuery this (HashnodeQueries_getBlogPosts extended) vars log = (Fulfilled r, l) ->
  errors r = None \/ errors r = Some [] ->
  dig ["publication"; "posts"; "edges"] (data r) = Return (JArr items) ->
  posts_attempt this extended vars log
  = (if forallb readable items then Fulfilled (map node_of items)
     else match mapM (fun edge => get edge "node") items with
          | Return nodes => Fulfilled nodes
          | Throw e => Rejected e
          end, l).
Proof.
  intros Hq He Hd. rewrite posts_attempt_attempt.
  rewrite (attempt_clean _ _ _ _ _ _ _ Hq He (dig_truthy _ _ _ _ _ Hd)).
  rewrite (nodes_at_edges _ _ _ Hd).
  destruct (forallb readable items); [reflexivity|].
  destruct (mapM _ items); reflexivity.
Qed.

(** X8.  What [getBlogPosts] returns.  A clean extended answer with
    readable edges gives their nodes after the one request.  When the
    extended request fails, or its answer lists errors, or one of its edges
    is unreadable, the basic query is sent and a clean basic answer with
    readable edges gives its nodes. *)
Theorem getBlogPosts_result (this : HashnodeService) (count : option Z)
  (log : list FetchCall) :
  let vars := posts_variables this (page_size count) in
  let extended := executeQuery this (HashnodeQueries_getBlogPosts true) vars in
  let basic := executeQuery this (HashnodeQueries_getBlogPosts false) vars in
  let edges := dig ["publication"; "posts"; "edges"] in
  let clean (r : GraphQLResponse) := errors r = None \/ errors r = Some [] in
  (forall r l items,
      extended log = (Fulfilled r, l) -> clean r ->
      edges (data r) = Return (JArr items) -> forallb readable items = true ->
      HashnodeService_getBlogPosts this count log = (Fulfilled (map node_of items), l))
  /\ (forall l r2 l2 items2,
         ((exists e, extended log = (Rejected e, l))
          \/ (exists r x xs, extended log = (Fulfilled r, l)
                             /\ errors r = Some (x :: xs))
          \/ (exists r items, extended log = (Fulfilled r, l) /\ clean r
                              /\ edges (data r) = Return (JArr items)
                              /\ forallb readable items = false)) ->
         basic l = (Fulfilled r2, l2) -> clean r2 ->
         edges (data r2) = Return (JArr items2) -> forallb readable items2 = true ->
         HashnodeService_getBlogPosts this count log
         = (Fulfilled (map node_of items2), l2)).
Proof.
  cbv zeta. split.
  - intros r l items Hq He Hd Hr. rewrite getBlogPosts_run. unfold atry.
    rewrite (posts_attempt_edges _ _ _ _ _ _ _ Hq He Hd), Hr. reflexivity.
  - intros l r2 l2 items2 Hfirst Hq2 He2 Hd2 Hr2. rewrite getBlogPosts_run.
    assert (H1 : exists e, posts_attempt this true
                             (posts_variables this (page_size count)) log
                           = (Rejected e, l)).
    { destruct Hfirst as [[e Hq]|[[r [x [xs [Hq He]]]]|[r [items [Hq [He [Hd Hr]]]]]]].
      - exists e. unfold posts_attempt, abind. rewrite Hq. reflexivity.
      - eexists. unfold posts_attempt, abind. rewrite Hq.
        rewrite (validateResponse_errors _ _ _ He). reflexivity.
      - rewrite (posts_attempt_edges _ _ _ _ _ _ _ Hq He Hd), Hr.
        destruct (mapM_nodes_unreadable items Hr) as [msg ->]. eauto. }
    destruct H1 as [e H1]. unfold atry at 1. rewrite H1.
    unfold seq_stmt, posts_fallback, atry, abind.
    rewrite (posts_attempt_edges _ _ _ _ _ _ _ Hq2 He2 Hd2), Hr2. reflexivity.
Qed.

(** X9.  What [getBlogPostBySlug] returns on a valid slug.  A clean
    extended answer gives its [publication.post] after the one request, be
    it [null] or [undefined] for a post that does not exist: no second
    attempt is made for a missing post.  An answer without a publication
    counts as a failed attempt, and a clean basic answer then decides. *)
Theorem getBlogPostBySlug_result (this : HashnodeService) (slug : JsValue)
  (log : list FetchCall) :
  valid_slug slug ->
  let vars := slug_variables this slug in
  let extended := executeQuery this (HashnodeQueries_getBlogPostBySlug true) vars in
  let basic := executeQuery this (HashnodeQueries_getBlogPostBySlug false) vars in
  let clean (r : GraphQLResponse) := errors r = None \/ errors r = Some [] in
  (forall r l post,
      extended log = (Fulfilled r, l) -> clean r ->
      dig ["publication"; "post"] (data r) = Return post ->
      HashnodeService_getBlogPostBySlug this slug log = (Fulfilled post, l))
  /\ (forall l r2 l2 post,
         ((exists e, extended log = (Rejected e, l))
          \/ (exists r x xs, extended log = (Fulfilled r, l)
                             /\ errors r = Some (x :: xs))
          \/ (exists r, extended log = (Fulfilled r, l) /\ clean r
                        /\ (truthy (data r) = false
                            \/ get (data r) "publication" = Return JNull
                            \/ get (data r) "publication" = Return JUndefined))) ->
         basic l = (Fulfilled r2, l2) -> clean r2 ->
         dig ["publication"; "post"] (data r2) = Return post ->
         HashnodeService_getBlogPostBySlug this slug log = (Fulfilled post, l2)).
Proof.
  intros Hv. cbv zeta. split.
  - intros r l post Hq He Hd. rewrite (getBlogPostBySlug_run _ _ _ Hv). unfold atry.
    rewrite post_attempt_attempt.
    rewrite (attempt_clean _ _ _ _ _ _ _ Hq He (dig_truthy _ _ _ _ _ Hd)), Hd.
    reflexivity.
  - intros l r2 l2 post Hfirst Hq2 He2 Hd2. rewrite (getBlogPostBySlug_run _ _ _ Hv).
    assert (H1 : exists e, post_attempt this true (slug_variables this slug) log
                           = (Rejected e, l)).
    { destruct Hfirst as [[e Hq]|[[r [x [xs [Hq He]]]]|[r [Hq [He Hd]]]]].
      - exists e. unfold post_attempt, abind. rewrite Hq. reflexivity.
      - eexists. unfold post_attempt, abind. rewrite Hq.
        rewrite (validateResponse_errors _ _ _ He). reflexivity.
      - unfold post_attempt, abind. rewrite Hq.
        rewrite (validateResponse_no_errors _ He).
        destruct Hd as [Hd|[Hd|Hd]].
        + rewrite Hd. cbn. eauto.
        + destruct (truthy (data r)); cbn; [|eauto].
          rewrite Hd. cbn. unfold reject. eauto.
        + destruct (truthy (data r)); cbn; [|eauto].
          rewrite Hd. cbn. unfold reject. eauto. }
    destruct H1 as [e H1]. unfold atry at 1. rewrite H1.
    unfold atry. rewrite post_attempt_attempt.
    rewrite (attempt_clean _ _ _ _ _ _ _ Hq2 He2 (dig_truthy _ _ _ _ _ Hd2)), Hd2.
    reflexivity.
Qed.

(* --------------------------------------------------------------------- *)
(** *** What the transport rejects with *)
(* --------------------------------------------------------------------- *)

(** [GraphQLClient.query] once the remote has delivered its outcome. *)
Lemma GraphQLClient_query_delivered url payload options log d outcome :
  remote env log (query_call url payload options)
  = {| delay_ms := Some d; reply := outcome |} ->
  GraphQLClient_query url payload options log
  = (match outcome with
     | NetworkError (GraphQLErrorObj m s st b) => Rejected (GraphQLErrorObj m s st b)
     | NetworkError (ErrorObj _ msg) => Rejected (GraphQLErrorObj msg None None None)
     | NetworkError (ThrownValue _) =>
         Rejected (GraphQLErrorObj "Network request failed" None None None)
     | HttpResponse resp =>
         if ok resp then json resp
         else match text resp with
              | Fulfilled raw =>
                  Rejected (GraphQLErrorObj
                              ("HTTP " ++ decimal (status resp) ++ ": " ++ statusText resp)
                              (Some (status resp)) (Some (statusText resp)) (Some raw))
              | Rejected (GraphQLErrorObj m s st b) => Rejected (GraphQLErrorObj m s st b)
              | Rejected (ErrorObj _ msg) => Rejected (GraphQLErrorObj msg None None None)
              | Rejected (ThrownValue _) =>
                  Rejected (GraphQLErrorObj "Network request failed" None None None)
              | Pending => Pending
              end
     end, (log ++ [query_call url payload options])%list).
Proof.
  intros Hr.
  unfold GraphQLClient_query, abind, atry, fetch, await, resolve, reject.
  fold (query_call url payload options). rewrite Hr. cbn.
  destruct outcome as [e|resp].
  - destruct e; reflexivity.
  - destruct (ok resp); cbn.
    + destruct (json resp); reflexivity.
    + destruct (text resp) as [raw|e|]; try reflexivity. destruct e; reflexivity.
Qed.

(** X10.  A response outside 200..299 makes [GraphQLClient.query] reject
    with a [GraphQLError] whose message is [HTTP <status>: <statusText>] and
    which carries the status, the status text and the body text; the JSON
    reader of the response plays no part.  When the body cannot be read,
    the rejection is a [GraphQLError] with the reader's message and no
    status. *)
Theorem http_error_rejection url payload options log d resp :
  remote env log (query_call url payload options)
  = {| delay_ms := Some d; reply := HttpResponse resp |} ->
  ok resp = false ->
  (forall raw, text resp = Fulfilled raw ->
     fst (GraphQLClient_query url payload options log)
     = Rejected (GraphQLErrorObj
                   ("HTTP " ++ decimal (status resp) ++ ": " ++ statusText resp)
                   (Some (status resp)) (Some (statusText resp)) (Some raw)))
  /\ (forall cls msg, text resp = Rejected (ErrorObj cls msg) ->
        fst (GraphQLClient_query url payload options log)
        = Rejected (GraphQLErrorObj msg None None None)).
Proof.
  intros Hr Hok.
  rewrite (GraphQLClient_query_delivered _ _ _ _ _ _ Hr), Hok. cbn [fst].
  split.
  - intros raw ->. reflexivity.
  - intros cls msg ->. reflexivity.
Qed.

(** X11.  A failed [fetch] makes [GraphQLClient.query] reject with a
    [GraphQLError] without status: it keeps the message of an [Error] and
    says [Network request failed] for any other thrown value. *)
Theorem network_failure_rejection url payload options log d e :
  remote env log (query_call url payload options)
  = {| delay_ms := Some d; reply := NetworkError e |} ->
  (forall cls msg, e = ErrorObj cls msg ->
     fst (GraphQLClient_query url payload options log)
     = Rejected (GraphQLErrorObj msg None None None))
  /\ (forall v, e = ThrownValue v ->
        fst (GraphQLClient_query url payload options log)
        = Rejected (GraphQLErrorObj "Network request failed" None None None)).
Proof.
  intros Hr. rewrite (GraphQLClient_query_delivered _ _ _ _ _ _ Hr). cbn [fst].
  split; [intros cls msg -> | intros v ->]; reflexivity.
Qed.

(** X12.  Every rejection of [GraphQLClient.query] is a [GraphQLError],
    with one exception: the body promise of a 2xx response is returned
    without being awaited, so when the body is not JSON the caller gets the
    reader's own error, not a [GraphQLError]. *)
Theorem rejection_is_GraphQLError_or_body url payload options log e l :
  GraphQLClient_query url payload options log = (Rejected e, l) ->
  (exists msg st stt b, e = GraphQLErrorObj msg st stt b)
  \/ (exists d resp,
         remote env log (query_call url payload options)
         = {| delay_ms := Some d; reply := HttpResponse resp |}
         /\ ok resp = true /\ json resp = Rejected e).
Proof.
  intros H.
  destruct (remote env log (query_call url payload options)) as [[d|] outcome] eqn:Hr.
  - rewrite (GraphQLClient_query_delivered _ _ _ _ _ _ Hr) in H.
    injection H as H _.
    destruct outcome as [e0|resp].
    + left. destruct e0; injection H as <-; eauto.
    + destruct (ok resp) eqn:Hok.
      * right. exists d, resp. auto.
      * left. destruct (text resp) as [raw|e0|]; try discriminate H.
        -- injection H as <-. eauto.
        -- destruct e0; injection H as <-; eauto.
  - rewrite (surjective_pairing (GraphQLClient_query url payload options log)) in H.
    rewrite (GraphQLClient_query_hangs _ _ _ _ _ Hr) in H. discriminate H.
Qed.

(** X13.  [validateResponse] returns exactly when the envelope lists no
    error and its data is truthy, and then it returns the data; a populated
    error list wins over the data, which is dropped with it. *)
Theorem validateResponse_returns (r : GraphQLResponse) :
  (forall d, validateResponse r = Return d
             <-> (errors r = None \/ errors r = Some [])
                 /\ truthy (data r) = true /\ d = data r)
  /\ (forall x xs, errors r = Some (x :: xs) ->
        validateResponse r
        = Throw (new_Error ("GraphQL error: "
                            ++ join ", " (message x :: map message xs)))).
Proof.
  split.
  - intros d. unfold validateResponse.
    destruct (errors r) as [[|x xs]|]; cbn [negb].
    + destruct (truthy (data r)); cbn [negb]; split.
      * intros H. injection H as <-. auto.
      * intros [_ [_ ->]]. reflexivity.
      * discriminate.
      * intros [_ [H _]]. discriminate H.
    + split; [discriminate|]. intros [[H|H] _]; discriminate H.
    + destruct (truthy (data r)); cbn [negb]; split.
      * intros H. injection H as <-. auto.
      * intros [_ [_ ->]]. reflexivity.
      * discriminate.
      * intros [_ [H _]]. discriminate H.
  - intros x xs H. apply (validateResponse_errors _ _ _ H).
Qed.

(* --------------------------------------------------------------------- *)
(** *** The facade *)
(* --------------------------------------------------------------------- *)

Lemma atry_resolve_settles {A} (m : Async A) (dflt : A) log e :
  fst (atry m (fun _ => resolve dflt) log) <> Rejected e.
Proof.
  unfold atry. destruct (m log) as [[a|e'|] l]; cbn; discriminate.
Qed.

(** A [catch] around code that never rejects is never entered. *)
Lemma atry_unused {A} (m : Async A) (h : JsThrown -> Async A) log :
  (forall e, fst (m log) <> Rejected e) -> atry m h log = m log.
Proof.
  unfold atry. intros H. destruct (m log) as [[a|e|] l]; try reflexivity.
  exfalso. apply (H e). reflexivity.
Qed.

Lemma guarded_settles {A} (guard : bool) (dflt : A) (m : Async A) log e :
  fst ((if guard then resolve dflt
        else atry m (fun _ => resolve dflt)) log) <> Rejected e.
Proof.
  destruct guard; [discriminate | apply atry_resolve_settles].
Qed.

(** No single-attempt operation of the service rejects. *)
Lemma single_attempts_settle this (s : string) (limit : option Z) log e :
  fst (HashnodeService_getPublication this log) <> Rejected e
  /\ fst (HashnodeService_searchPosts this s limit log) <> Rejected e
  /\ fst (HashnodeService_getSeriesList this limit log) <> Rejected e
  /\ fst (HashnodeService_getSeries this s log) <> Rejected e
  /\ fst (HashnodeService_getSeriesPosts this s limit log) <> Rejected e
  /\ fst (HashnodeService_getStaticPages this limit log) <> Rejected e
  /\ fst (HashnodeService_getStaticPage this s log) <> Rejected e
  /\ fst (HashnodeService_getPostComments this s limit log) <> Rejected e
  /\ fst (HashnodeService_getRecommendedPublications this log) <> Rejected e
  /\ fst (HashnodeService_getDrafts this limit log) <> Rejected e.
Proof.
  repeat split;
    first [ apply atry_resolve_settles | apply guarded_settles ].
Qed.

Lemma getBlogPosts_settles this count log e :
  fst (HashnodeService_getBlogPosts this count log) <> Rejected e.
Proof.
  rewrite getBlogPosts_run. unfold atry at 1.
  destruct (posts_attempt this true _ log) as [[nodes|e1|] log1];
    cbn [fst]; try discriminate.
  unfold seq_stmt, abind.
  destruct (posts_fallback_returns this (posts_variables this (page_size count)) log1)
    as [[nodes H]|H];
    destruct (posts_fallback this _ log1) as [[c|e2|] log2];
    cbn [fst] in H; try discriminate H.
  - injection H as ->. discriminate.
  - discriminate.
Qed.

(** X14.  No function of the facade rejects, whatever the remote does and
    whatever the arguments are. *)
Theorem facade_never_rejects (s : string) (slug : JsValue) (limit : option Z)
  (log : list FetchCall) (e : JsThrown) :
  fst (getPublication log) <> Rejected e
  /\ fst (getBlogPosts limit log) <> Rejected e
  /\ fst (getBlogPostBySlug slug log) <> Rejected e
  /\ fst (searchPosts s limit log) <> Rejected e
  /\ fst (getSeriesList limit log) <> Rejected e
  /\ fst (getSeries s log) <> Rejected e
  /\ fst (getSeriesPosts s limit log) <> Rejected e
  /\ fst (getStaticPages limit log) <> Rejected e
  /\ fst (getStaticPage s log) <> Rejected e
  /\ fst (getPostComments s limit log) <> Rejected e
  /\ fst (getRecommendedPublications log) <> Rejected e
  /\ fst (getDrafts limit log) <> Rejected e.
Proof.
  repeat split; apply atry_resolve_settles.
Qed.

(** X15.  For every operation but [getBlogPostBySlug] the facade's own
    [catch] is never entered: the facade function does exactly what the
    service method does on the shared instance. *)
Theorem facade_is_service (s : string) (limit : option Z) (log : list FetchCall) :
  getPublication log = HashnodeService_getPublication hashnodeService log
  /\ getBlogPosts limit log = HashnodeService_getBlogPosts hashnodeService limit log
  /\ searchPosts s limit log = HashnodeService_searchPosts hashnodeService s limit log
  /\ getSeriesList limit log = HashnodeService_getSeriesList hashnodeService limit log
  /\ getSeries s log = HashnodeService_getSeries hashnodeService s log
  /\ getSeriesPosts s limit log
     = HashnodeService_getSeriesPosts hashnodeService s limit log
  /\ getStaticPages limit log = HashnodeService_getStaticPages hashnodeService limit log
  /\ getStaticPage s log = HashnodeService_getStaticPage hashnodeService s log
  /\ getPostComments s limit log
     = HashnodeService_getPostComments hashnodeService s limit log
  /\ getRecommendedPublications log
     = HashnodeService_getRecommendedPublications hashnodeService log
  /\ getDrafts limit log = HashnodeService_getDrafts hashnodeService limit log.
Proof.
  repeat split; apply atry_unused; intros e;
    first [ apply getBlogPosts_settles
          | apply (single_attempts_settle hashnodeService s limit log e) ].
Qed.

(** X16.  The facade's [getBlogPostBySlug] turns the service's rejections
    into [null]: an empty, non-string or blank slug gives [null] with nothing
    sent; a valid slug both of whose attempts fail gives [null] after the two
    requests; any other outcome is the service's. *)
Theorem facade_getBlogPostBySlug_null (slug : JsValue) (log : list FetchCall) :
  (truthy slug = false \/ typeof_string slug = false
   \/ (exists s, slug = JStr s /\ whitespace_only s) ->
   getBlogPostBySlug slug log = (Fulfilled JNull, log))
  /\ (valid_slug slug ->
      forall e1 e2 l1 l2,
        post_attempt hashnodeService true (slug_variables hashnodeService slug) log
        = (Rejected e1, l1) ->
        post_attempt hashnodeService false (slug_variables hashnodeService slug) l1
        = (Rejected e2, l2) ->
        getBlogPostBySlug slug log = (Fulfilled JNull, l2)
        /\ l2 = (log ++ [post_call hashnodeService true slug;
                         post_call hashnodeService false slug])%list)
  /\ ((forall e, fst (HashnodeService_getBlogPostBySlug hashnodeService slug log)
                 <> Rejected e) ->
      getBlogPostBySlug slug log
      = HashnodeService_getBlogPostBySlug hashnodeService slug log).
Proof.
  split; [|split].
  - intros H. unfold getBlogPostBySlug, atry, HashnodeService_getBlogPostBySlug.
    destruct H as [H|[H|[s [-> H]]]].
    + rewrite H. reflexivity.
    + rewrite H. rewrite orb_true_r. reflexivity.
    + cbn [string_of]. rewrite (trim_whitespace_only s H).
      rewrite !orb_true_r. reflexivity.
  - intros Hv e1 e2 l1 l2 H1 H2. split.
    + unfold getBlogPostBySlug, atry at 1. rewrite (getBlogPostBySlug_run _ _ _ Hv).
      unfold atry. rewrite H1, H2. reflexivity.
    + pose proof (post_attempt_log hashnodeService true
                    (slug_variables hashnodeService slug) log) as L1.
      rewrite H1 in L1. cbn [snd] in L1. subst l1.
      pose proof (post_attempt_log hashnodeService false
                    (slug_variables hashnodeService slug)
                    (log ++ [post_call hashnodeService true slug])%list) as L2.
      unfold post_call in L2 at 1. rewrite H2 in L2. cbn [snd] in L2. subst l2.
      rewrite <- app_assoc. reflexivity.
  - intros H. apply atry_unused. exact H.
Qed.

(** X17.  The publication host is never empty: an unset or empty
    [HASHNODE_PUBLICATION_HOST] gives the placeholder host, any other value
    is taken as it is; and the shared service instance carries that host,
    the Hashnode endpoint and the configured timeout. *)
Theorem publication_host_never_empty :
  PUBLICATION_HOST env <> ""
  /\ (forall h, env_HASHNODE_PUBLICATION_HOST env = Some h -> h <> "" ->
                PUBLICATION_HOST env = h)
  /\ (env_HASHNODE_PUBLICATION_HOST env = None
      \/ env_HASHNODE_PUBLICATION_HOST env = Some "" ->
      PUBLICATION_HOST env = "yourblog.hashnode.dev")
  /\ publicationHost hashnodeService = PUBLICATION_HOST env.
Proof.
  unfold PUBLICATION_HOST. split; [|split; [|split]].
  - destruct (env_HASHNODE_PUBLICATION_HOST env) as [h|]; [|discriminate].
    destruct (truthy (JStr h)) eqn:E; [|discriminate].
    apply truthy_JStr. exact E.
  - intros h -> Hh. apply truthy_JStr in Hh. rewrite Hh. reflexivity.
  - intros [-> | ->]; reflexivity.
  - reflexivity.
Qed.

(* --------------------------------------------------------------------- *)
(** *** Webhook payloads: what is accepted, what is thrown, dispatch *)
(* --------------------------------------------------------------------- *)

Lemma ToString_throws (v : JsValue) :
  forall e, ToString v = Throw e ->
            e = new_TypeError "Cannot convert object to primitive value".
Proof.
  induction v as [| |b|n|s|items IH|props IH] using JsValue_nested_ind;
    intros e H; try discriminate H.
  - destruct b; discriminate H.
  - cbn [ToString] in H. revert e H.
    induction IH as [|x l Hx Hl IHl]; intros e H; [discriminate H|].
    assert (Hhead : forall e',
               match x with
               | JUndefined | JNull => Return ""
               | _ => ToString x
               end = Throw e' ->
               e' = new_TypeError "Cannot convert object to primitive value").
    { intros e' H'. destruct x; try discriminate H'; apply Hx; exact H'. }
    simpl in H.
    destruct (match x with
              | JUndefined | JNull => Return ""
              | _ => ToString x
              end) as [sx|ex] eqn:Ex.
    + destruct l as [|y l']; [discriminate H|].
      cbn [cbind] in H.
      match type of H with
      | cbind ?j _ = _ => destruct j as [sr|er] eqn:Er
      end.
      * discriminate H.
      * cbn [cbind] in H. injection H as <-. apply IHl. exact Er.
    + cbn [cbind] in H. injection H as <-. apply Hhead. reflexivity.
  - cbn [ToString] in H. destruct (has_own "toString" props); [|discriminate H].
    injection H as <-. reflexivity.
Qed.

(** What an accepted payload looks like. *)
Lemma parseWebhookPayload_inv (payload d : JsValue) :
  parseWebhookPayload payload = Return d ->
  payload_data payload = Return d
  /\ exists props e pub ts,
       d = JObj props
       /\ lookup "event" props = Some (JStr e) /\ In e validEvents
       /\ lookup "publication" props = Some pub /\ truthy pub = true
       /\ lookup "timestamp" props = Some ts /\ truthy ts = true.
Proof.
  intros H.
  destruct (payload_data payload) as [d0|err] eqn:Hd.
  2:{ unfold parseWebhookPayload in H. fold (payload_data payload) in H.
      rewrite Hd in H. discriminate H. }
  destruct d0 as [| |b|n|s|items|props];
    try (unfold parseWebhookPayload in H; fold (payload_data payload) in H;
         rewrite Hd in H; discriminate H).
  rewrite (parseWebhookPayload_fields payload (JObj props) _ _ _ Hd
             (get_JObj props "event") (get_JObj props "publication")
             (get_JObj props "timestamp")) in H.
  destruct (lookup "event" props) as [ev|] eqn:Hev; [|discriminate H].
  destruct (truthy ev) eqn:Tev; [|discriminate H].
  destruct (lookup "publication" props) as [pub|] eqn:Hpub;
    [|rewrite andb_false_r in H; discriminate H].
  destruct (truthy pub) eqn:Tpub; [|discriminate H].
  destruct (lookup "timestamp" props) as [ts|] eqn:Hts; [|discriminate H].
  destruct (truthy ts) eqn:Tts; [|discriminate H].
  cbn [andb] in H.
  destruct (validEvents_includes ev) eqn:Hinc.
  - injection H as <-. split; [reflexivity|].
    apply validEvents_includes_spec in Hinc as [e [-> Hin]].
    exists props, e, pub, ts. repeat split; assumption.
  - destruct (ToString ev); discriminate H.
Qed.

(** X18.  What [parseWebhookPayload] returns is an object whose [event]
    is one of the six event names and whose [publication] and [timestamp]
    are truthy; it is the value parsed from a string argument, or the
    argument itself; and validating it again returns it unchanged. *)
Theorem parseWebhookPayload_sound (payload d : JsValue) :
  parseWebhookPayload payload = Return d ->
  (exists props e pub ts,
      d = JObj props
      /\ lookup "event" props = Some (JStr e) /\ In e validEvents
      /\ lookup "publication" props = Some pub /\ truthy pub = true
      /\ lookup "timestamp" props = Some ts /\ truthy ts = true)
  /\ (typeof_string payload = false -> d = payload)
  /\ (forall text, payload = JStr text -> JSON_parse text = Return d)
  /\ parseWebhookPayload d = Return d.
Proof.
  intros H. destruct (parseWebhookPayload_inv _ _ H) as [Hd Hshape].
  split; [exact Hshape|]. split; [|split].
  - intros Hs. unfold payload_data in Hd. rewrite Hs in Hd.
    injection Hd as <-. reflexivity.
  - intros text ->. unfold payload_data in Hd. cbn [typeof_string string_of] in Hd.
    destruct (JSON_parse text) as [v|err]; [exact Hd | discriminate Hd].
  - destruct Hshape as [props [e [pub [ts [-> [He [Hin [Hp [Tp [Ht Tt]]]]]]]]]].
    rewrite (parseWebhookPayload_fields (JObj props) (JObj props) _ _ _ eq_refl
               (get_JObj props "event") (get_JObj props "publication")
               (get_JObj props "timestamp")).
    rewrite He, Hp, Ht, Tp, Tt.
    assert (Hv : validEvents_includes (JStr e) = true).
    { apply validEvents_includes_spec. eauto. }
    assert (Te : truthy (JStr e) = true).
    { apply truthy_JStr. intros ->. simpl in Hin.
      repeat (destruct Hin as [Hin|Hin]; [discriminate Hin|]). contradiction. }
    rewrite Hv, Te. reflexivity.
Qed.

(** X19.  What [parseWebhookPayload] throws: the invalid-JSON error (for
    a string argument only), the missing-fields error, the invalid-event
    error, or a [TypeError]; the last for a [null] or [undefined] value,
    which a string argument holding the JSON text [null] produces too. *)
Theorem parseWebhookPayload_throws (payload : JsValue) (err : JsThrown) :
  parseWebhookPayload payload = Throw err ->
  (typeof_string payload = true /\ err = new_Error "Invalid JSON payload")
  \/ err = missing_fields_error
  \/ (exists ev shown, ToString ev = Return shown
                       /\ validEvents_includes ev = false
                       /\ err = new_Error ("Invalid webhook event: " ++ shown))
  \/ (payload_data payload = Return JNull
      /\ err = new_TypeError "Cannot read properties of null (reading 'event')")
  \/ (payload_data payload = Return JUndefined
      /\ err = new_TypeError "Cannot read properties of undefined (reading 'event')")
  \/ err = new_TypeError "Cannot convert object to primitive value".
Proof.
  intros H.
  destruct (payload_data payload) as [d0|e0] eqn:Hd.
  2:{ left. unfold parseWebhookPayload in H. fold (payload_data payload) in H.
      rewrite Hd in H. injection H as <-.
      unfold payload_data in Hd.
      destruct (typeof_string payload); [|discriminate Hd].
      split; [reflexivity|].
      destruct (JSON_parse _); [discriminate Hd|]. injection Hd as <-. reflexivity. }
  destruct d0 as [| |b|n|s|items|props];
    try (right; left; unfold parseWebhookPayload in H;
         fold (payload_data payload) in H; rewrite Hd in H;
         injection H as <-; reflexivity).
  - right. right. right. right. left.
    unfold parseWebhookPayload in H. fold (payload_data payload) in H.
    rewrite Hd in H. injection H as <-. split; reflexivity.
  - right. right. right. left.
    unfold parseWebhookPayload in H. fold (payload_data payload) in H.
    rewrite Hd in H. injection H as <-. split; reflexivity.
  - rewrite (parseWebhookPayload_fields payload (JObj props) _ _ _ Hd
               (get_JObj props "event") (get_JObj props "publication")
               (get_JObj props "timestamp")) in H.
    destruct (truthy _ && truthy _ && truthy _).
    + destruct (validEvents_includes _) eqn:Hinc; [discriminate H|].
      destruct (ToString _) as [shown|e1] eqn:Hs; cbn [cbind] in H;
        injection H as <-.
      * right. right. left. eauto.
      * right. right. right. right. right. apply (ToString_throws _ _ Hs).
    + right. left. injection H as <-. reflexivity.
Qed.

(** X20.  [processWebhook] on a payload that [parseWebhookPayload]
    accepted: the handler registered for its event is run on it, and nothing
    else happens; with no handler registered the call fulfils after one
    [console.warn] naming the event. *)
Theorem processWebhook_dispatch (payload d : JsValue) (table : WebhookHandlers)
  (tr : list HookEvent) :
  parseWebhookPayload payload = Return d ->
  exists e, get d "event" = Return (JStr e) /\ In e validEvents
    /\ processWebhook d table tr
       = match handler_for e table with
         | Some handler => handler d tr
         | None =>
             (Fulfilled tt,
              (tr ++ [Console "warn" ("No handler registered for event: " ++ e)
                              None])%list)
         end.
Proof.
  intros H. destruct (parseWebhookPayload_inv _ _ H) as [_ Hshape].
  destruct Hshape as [props [e [pub [ts [-> [He [Hin _]]]]]]].
  exists e. rewrite get_JObj, He. split; [reflexivity|]. split; [exact Hin|].
  unfold processWebhook, hbind. rewrite get_JObj, He. cbn.
  destruct (handler_for e table); reflexivity.
Qed.

End Client.

(* ===================================================================== *)
(** ** The JSON codec reads back what it prints *)
(* ===================================================================== *)

Module IntJsonFacts.
Import IntJson.

Lemma need_JArr items : need (JArr items) = S (need_items items).
Proof. reflexivity. Qed.

Lemma need_JObj props : need (JObj props) = S (need_members props).
Proof.
  change (need (JObj props)) with
    (S ((fix sum (l : list (string * JsValue)) : nat :=
           match l with [] => O | (_, x) :: rest => S (need x + sum rest) end) props)).
  f_equal. induction props as [|[k x] l IH]; simpl; [reflexivity | rewrite IH; reflexivity].
Qed.

Lemma str_JArr items :
  str (JArr items) = "[" ++ String.concat "," (map str items) ++ "]".
Proof. reflexivity. Qed.

Lemma str_JObj props :
  forallb (fun kv => json_data (snd kv)) props = true ->
  str (JObj props) = "{" ++ String.concat "," (map member_text props) ++ "}".
Proof.
  intros H.
  change (str (JObj props)) with
    ("{" ++ String.concat ","
        ((fix each (l : list (string * JsValue)) : list string :=
            match l with
            | [] => []
            | (_, JUndefined) :: rest => each rest
            | (k, x) :: rest => (quote k ++ ":" ++ str x) :: each rest
            end) props) ++ "}").
  do 3 f_equal.
  induction props as [|[k x] l IH]; [reflexivity|].
  simpl in H. apply andb_prop in H. destruct H as [Hx Hl].
  rewrite (IH Hl). destruct x; try reflexivity. discriminate Hx.
Qed.

(* ---- numbers ---- *)

Lemma read_digits_text (u : Decimal.uint) (rest : string) :
  starts_digit rest = false ->
  read_digits (NilEmpty.string_of_uint u ++ rest) = (u, rest).
Proof.
  intros H. induction u; simpl;
    try (rewrite IHu; reflexivity).
  destruct rest as [|c r]; [reflexivity|].
  simpl in H. simpl. destruct (digit_of c); [discriminate | reflexivity].
Qed.

Lemma terminated_not_digit rest : terminated rest -> starts_digit rest = false.
Proof.
  destruct rest as [|c r]; [reflexivity|]. simpl.
  intros [-> | [-> | ->]]; reflexivity.
Qed.

Lemma terminated_not_continues rest : terminated rest -> continues rest = false.
Proof.
  destruct rest as [|c r]; [reflexivity|]. simpl.
  intros [-> | [-> | ->]]; reflexivity.
Qed.

Lemma to_uint_normal (p : positive) :
  Pos.to_uint p = Decimal.nzhead (Pos.to_uint p)
  /\ Pos.to_uint p <> Decimal.Nil.
Proof.
  split; [|apply DecimalPos.Unsigned.to_uint_nonnil].
  pose proof (DecimalPos.Unsigned.to_of (Pos.to_uint p)) as H.
  rewrite DecimalPos.Unsigned.of_to in H. simpl in H.
  assert (N : Decimal.nzhead (Pos.to_uint p) <> Decimal.Nil).
  { intros E. apply DecimalFacts.unorm_0 in E. rewrite <- H in E.
    apply (DecimalPos.Unsigned.to_uint_nonzero p E). }
  rewrite (DecimalFacts.unorm_nzhead _ N) in H. exact H.
Qed.

Lemma parse_nat_pos (p : positive) (rest : string) :
  terminated rest ->
  parse_nat (NilEmpty.string_of_uint (Pos.to_uint p) ++ rest) = Some (Z.pos p, rest).
Proof.
  intros T. unfold parse_nat.
  rewrite (read_digits_text _ _ (terminated_not_digit _ T)).
  rewrite (terminated_not_continues _ T).
  destruct (to_uint_normal p) as [Hn Hnil].
  assert (Hz : Z.of_uint (Pos.to_uint p) = Z.pos p).
  { unfold Z.of_uint. rewrite DecimalPos.Unsigned.of_to. reflexivity. }
  rewrite Hz.
  destruct (Pos.to_uint p) as [|u|u|u|u|u|u|u|u|u|u] eqn:E; try reflexivity.
  - contradiction.
  - exfalso. symmetry in Hn. apply (DecimalFacts.nzhead_nonzero _ _ Hn).
Qed.

(* ---- strings ---- *)

Lemma parse_chars_escape_char (c : ascii) (f : nat) (X : string) :
  parse_chars (S f) (escape_char c ++ X)
  = match parse_chars f X with
    | Some (t, r) => Some (String c t, r)
    | None => None
    end.
Proof.
  destruct c as [b0 b1 b2 b3 b4 b5 b6 b7].
  destruct b0, b1, b2, b3, b4, b5, b6, b7; reflexivity.
Qed.

Lemma escape_char_length (c : ascii) : (1 <= String.length (escape_char c))%nat.
Proof.
  unfold escape_char.
  repeat match goal with
         | |- context [if ?b then _ else _] => destruct b
         end; simpl; lia.
Qed.

Lemma escape_length (s : string) : (String.length s <= String.length (escape s))%nat.
Proof.
  induction s as [|c s IH]; simpl; [lia|].
  rewrite length_append. pose proof (escape_char_length c). lia.
Qed.

Lemma parse_chars_escape (s : string) :
  forall (f : nat) (rest : string),
    (String.length s < f)%nat ->
    parse_chars f (escape s ++ String dquote rest) = Some (s, rest).
Proof.
  induction s as [|c s IH]; intros f rest Hf.
  - destruct f as [|f]; [inversion Hf | reflexivity].
  - destruct f as [|f]; [inversion Hf|].
    cbn [escape]. rewrite append_assoc, parse_chars_escape_char.
    rewrite IH; [reflexivity | simpl in Hf; lia].
Qed.

Lemma quote_append (s rest : string) :
  quote s ++ rest = String dquote (escape s ++ String dquote rest).
Proof. unfold quote. cbn [append]. rewrite append_assoc. reflexivity. Qed.

Lemma parse_string_quote (s rest : string) :
  parse_string (quote s ++ rest) = Some (s, rest).
Proof.
  rewrite quote_append. unfold parse_string.
  change ((dquote =? dquote)%char) with true. cbv iota.
  apply parse_chars_escape.
  cbn [String.length]. rewrite length_append. pose proof (escape_length s).
  cbn [String.length]. lia.
Qed.

(* ---- dispatch on the first character ---- *)

Lemma parse_value_digit (f : nat) (c : ascii) (s : string) :
  digit_of c <> None ->
  parse_value (S f) (String c s)
  = match parse_nat (String c s) with
    | Some (n, r) => Some (JNum n, r)
    | None => None
    end.
Proof.
  destruct c as [b0 b1 b2 b3 b4 b5 b6 b7].
  destruct b0, b1, b2, b3, b4, b5, b6, b7; intros H;
    try (exfalso; apply H; reflexivity); reflexivity.
Qed.

Lemma parse_value_minus (f : nat) (s : string) :
  parse_value (S f) (String "-" s)
  = match parse_nat s with
    | Some (n, r) => Some (JNum (- n), r)
    | None => None
    end.
Proof. reflexivity. Qed.

Lemma parse_value_quote (f : nat) (s : string) :
  parse_value (S f) (String dquote s)
  = match parse_string (String dquote s) with
    | Some (t, r) => Some (JStr t, r)
    | None => None
    end.
Proof. reflexivity. Qed.

Lemma parse_value_array (f : nat) (c : ascii) (s : string) :
  opens c ->
  parse_value (S f) (String "[" (String c s))
  = match parse_items f (String c s) with
    | Some (items, r) => Some (JArr items, r)
    | None => None
    end.
Proof.
  intros [Hws [Hb _]].
  destruct c as [b0 b1 b2 b3 b4 b5 b6 b7].
  destruct b0, b1, b2, b3, b4, b5, b6, b7;
    try discriminate Hws; try (exfalso; apply Hb; reflexivity); reflexivity.
Qed.

Lemma parse_value_object (f : nat) (c : ascii) (s : string) :
  opens c ->
  parse_value (S f) (String "{" (String c s))
  = match parse_members f (String c s) with
    | Some (members, r) =>
        Some (JObj (fold_left (fun acc kv => set_key (fst kv) (snd kv) acc) members []), r)
    | None => None
    end.
Proof.
  intros [Hws [_ Hb]].
  destruct c as [b0 b1 b2 b3 b4 b5 b6 b7].
  destruct b0, b1, b2, b3, b4, b5, b6, b7;
    try discriminate Hws; try (exfalso; apply Hb; reflexivity); reflexivity.
Qed.

Lemma skip_ws_opens (c : ascii) (s : string) :
  is_ws c = false -> skip_ws (String c s) = String c s.
Proof. intros H. simpl. rewrite H. reflexivity. Qed.

Lemma digits_head (u : Decimal.uint) :
  u <> Decimal.Nil ->
  exists c s, NilEmpty.string_of_uint u = String c s /\ digit_of c <> None /\ opens c.
Proof.
  destruct u; intros H; try contradiction; simpl; do 2 eexists;
    (split; [reflexivity|]); (split; [discriminate|]);
    (split; [reflexivity | split; discriminate]).
Qed.

Lemma decimal_pos (p : positive) :
  decimal (Z.pos p) = NilEmpty.string_of_uint (Pos.to_uint p).
Proof.
  unfold decimal. simpl.
  pose proof (DecimalPos.Unsigned.to_uint_nonnil p).
  destruct (Pos.to_uint p); try reflexivity. contradiction.
Qed.

Lemma decimal_neg (p : positive) :
  decimal (Z.neg p) = String "-" (NilEmpty.string_of_uint (Pos.to_uint p)).
Proof.
  unfold decimal. simpl.
  pose proof (DecimalPos.Unsigned.to_uint_nonnil p).
  destruct (Pos.to_uint p); try reflexivity. contradiction.
Qed.

(** The text of a value starts with a character that opens a value. *)
Lemma str_head (v : JsValue) : exists c s, str v = String c s /\ opens c.
Proof.
  destruct v as [| |[|]|[|p|p]|s|items|props].
  1-5: do 2 eexists; (split; [reflexivity|]); (split; [reflexivity | split; discriminate]).
  - change (str (JNum (Z.pos p))) with (decimal (Z.pos p)). rewrite decimal_pos.
    destruct (digits_head _ (DecimalPos.Unsigned.to_uint_nonnil p)) as [c [s [E [_ Ho]]]].
    eauto.
  - change (str (JNum (Z.neg p))) with (decimal (Z.neg p)). rewrite decimal_neg.
    do 2 eexists; (split; [reflexivity|]); (split; [reflexivity | split; discriminate]).
  - do 2 eexists; (split; [reflexivity|]); (split; [reflexivity | split; discriminate]).
  - rewrite str_JArr. do 2 eexists; (split; [reflexivity|]); (split; [reflexivity | split; discriminate]).
  - do 2 eexists; (split; [reflexivity|]); (split; [reflexivity | split; discriminate]).
Qed.

Lemma parse_nat_zero (rest : string) :
  terminated rest -> parse_nat (String "0" rest) = Some (0, rest).
Proof.
  intros T. unfold parse_nat.
  change (String "0" rest) with (NilEmpty.string_of_uint (Decimal.D0 Decimal.Nil) ++ rest).
  rewrite (read_digits_text _ _ (terminated_not_digit _ T)).
  rewrite (terminated_not_continues _ T). reflexivity.
Qed.

Lemma parse_value_JNum (n : Z) (f : nat) (rest : string) :
  terminated rest ->
  parse_value (S f) (decimal n ++ rest) = Some (JNum n, rest).
Proof.
  intros T. destruct n as [|p|p].
  - change (decimal 0 ++ rest) with (String "0" rest).
    rewrite parse_value_digit by discriminate.
    rewrite (parse_nat_zero _ T). reflexivity.
  - rewrite decimal_pos.
    destruct (digits_head _ (DecimalPos.Unsigned.to_uint_nonnil p)) as [c [s [E [Hd _]]]].
    pose proof (parse_nat_pos p rest T) as Hp.
    rewrite E in *. cbn [append] in *.
    rewrite (parse_value_digit _ _ _ Hd), Hp. reflexivity.
  - rewrite decimal_neg. cbn [append].
    rewrite parse_value_minus, (parse_nat_pos p rest T). reflexivity.
Qed.

Lemma parse_value_JStr (s : string) (f : nat) (rest : string) :
  parse_value (S f) (quote s ++ rest) = Some (JStr s, rest).
Proof.
  pose proof (parse_string_quote s rest) as H.
  rewrite quote_append in *. rewrite parse_value_quote, H. reflexivity.
Qed.

Lemma parse_items_step (f : nat) (s : string) :
  parse_items (S f) s
  = match parse_value f s with
    | Some (v, r) =>
        match skip_ws r with
        | String "," r' =>
            match parse_items f r' with
            | Some (vs, r'') => Some (v :: vs, r'')
            | None => None
            end
        | String "]" r' => Some ([v], r')
        | _ => None
        end
    | None => None
    end.
Proof. reflexivity. Qed.

Lemma parse_members_step (f : nat) (s : string) :
  parse_members (S f) s
  = match parse_string (skip_ws s) with
    | Some (k, r) =>
        match skip_ws r with
        | String ":" r' =>
            match parse_value f r' with
            | Some (v, r'') =>
                match skip_ws r'' with
                | String "," r3 =>
                    match parse_members f r3 with
                    | Some (ms, r4) => Some ((k, v) :: ms, r4)
                    | None => None
                    end
                | String "}" r3 => Some ([(k, v)], r3)
                | _ => None
                end
            | None => None
            end
        | _ => None
        end
    | None => None
    end.
Proof. reflexivity. Qed.

Lemma parse_items_text (items : list JsValue) :
  items <> [] ->
  Forall reads_back items ->
  forallb json_data items = true ->
  forall (f : nat) (rest : string),
    (need_items items <= f)%nat ->
    parse_items f (String.concat "," (map str items) ++ String "]" rest)
    = Some (items, rest).
Proof.
  intros Hne Hall. induction Hall as [|x l Hx Hl IH]; [contradiction|].
  intros Hj f rest Hf. simpl in Hj. apply andb_prop in Hj. destruct Hj as [Hjx Hjl].
  destruct f as [|f]; [simpl in Hf; lia|].
  simpl in Hf. rewrite parse_items_step.
  destruct l as [|y l].
  - cbn [map String.concat].
    rewrite (Hx Hjx f (String "]" rest)); [reflexivity | lia | simpl; tauto].
  - change (String.concat "," (map str (x :: y :: l)))
      with (str x ++ "," ++ String.concat "," (map str (y :: l))).
    rewrite !append_assoc. cbn [append].
    rewrite (Hx Hjx f (String "," _)); [| lia | simpl; tauto].
    rewrite skip_ws_opens by reflexivity. cbv beta match.
    rewrite IH; [reflexivity | discriminate | exact Hjl |].
    fold (need_items (y :: l)) in Hf. lia.
Qed.

Lemma member_text_append (kv : string * JsValue) (X : string) :
  member_text kv ++ X = quote (fst kv) ++ String ":" (str (snd kv) ++ X).
Proof. unfold member_text. rewrite !append_assoc. reflexivity. Qed.

Lemma skip_ws_quote (k X : string) : skip_ws (quote k ++ X) = quote k ++ X.
Proof. rewrite quote_append. reflexivity. Qed.

Lemma parse_members_text (props : list (string * JsValue)) :
  props <> [] ->
  Forall (fun kv => reads_back (snd kv)) props ->
  forallb (fun kv => json_data (snd kv)) props = true ->
  forall (f : nat) (rest : string),
    (need_members props <= f)%nat ->
    parse_members f (String.concat "," (map member_text props) ++ String "}" rest)
    = Some (props, rest).
Proof.
  intros Hne Hall. induction Hall as [|[k x] l Hx Hl IH]; [contradiction|].
  intros Hj f rest Hf. simpl in Hj. apply andb_prop in Hj. destruct Hj as [Hjx Hjl].
  destruct f as [|f]; [simpl in Hf; lia|].
  simpl in Hf, Hx. rewrite parse_members_step.
  destruct l as [|y l].
  - cbn [map String.concat]. rewrite member_text_append. cbn [fst snd].
    rewrite skip_ws_quote, parse_string_quote.
    rewrite skip_ws_opens by reflexivity. cbv beta match.
    rewrite (Hx Hjx f (String "}" rest)); [reflexivity | lia | simpl; tauto].
  - change (String.concat "," (map member_text ((k, x) :: y :: l)))
      with (member_text (k, x) ++ "," ++ String.concat "," (map member_text (y :: l))).
    rewrite append_assoc, member_text_append. cbn [fst snd].
    rewrite skip_ws_quote, parse_string_quote.
    rewrite skip_ws_opens by reflexivity. cbv beta match.
    rewrite !append_assoc. cbn [append].
    rewrite (Hx Hjx f (String "," _)); [| lia | simpl; tauto].
    rewrite skip_ws_opens by reflexivity. cbv beta match.
    rewrite IH; [reflexivity | discriminate | exact Hjl |].
    fold (need_members (y :: l)) in Hf. lia.
Qed.

Lemma set_key_fresh {V} (k : string) (v : V) (acc : list (string * V)) :
  existsb (String.eqb k) (map fst acc) = false ->
  set_key k v acc = (acc ++ [(k, v)])%list.
Proof.
  induction acc as [|[k' v'] acc IH]; simpl; [reflexivity|].
  intros H. apply orb_false_elim in H. destruct H as [Hk Hacc].
  rewrite Hk, (IH Hacc). reflexivity.
Qed.

Lemma existsb_app_false {A} (f : A -> bool) (l1 l2 : list A) :
  existsb f l1 = false -> existsb f l2 = false -> existsb f (l1 ++ l2) = false.
Proof. intros H1 H2. rewrite existsb_app, H1, H2. reflexivity. Qed.

Lemma fold_set_key_distinct (props acc : list (string * JsValue)) :
  distinct (map fst props) = true ->
  (forall k, In k (map fst props) -> existsb (String.eqb k) (map fst acc) = false) ->
  fold_left (fun a kv => set_key (fst kv) (snd kv) a) props acc = (acc ++ props)%list.
Proof.
  revert acc. induction props as [|[k v] props IH]; intros acc Hd Hacc.
  - simpl. rewrite List.app_nil_r. reflexivity.
  - simpl in Hd. apply andb_prop in Hd. destruct Hd as [Hk Hd].
    apply negb_true_iff in Hk.
    cbn [fold_left fst snd].
    rewrite set_key_fresh by (apply Hacc; left; reflexivity).
    rewrite IH; [rewrite <- List.app_assoc; reflexivity | exact Hd |].
    intros k' Hin. rewrite map_app. apply existsb_app_false.
    + apply Hacc. right. exact Hin.
    + simpl. rewrite orb_false_r.
      destruct (String.eqb_spec k' k) as [->|N]; [|reflexivity].
      exfalso. assert (E : existsb (String.eqb k) (map fst props) = true).
      { apply existsb_exists. exists k. split; [exact Hin | apply String.eqb_refl]. }
      congruence.
Qed.

(** Every JSON datum is read back from its text. *)
Lemma str_reads_back (v : JsValue) : reads_back v.
Proof.
  induction v as [| |b|n|s|items IH|props IH] using JsValue_nested_ind;
    intros Hj fuel rest Hf T.
  - discriminate Hj.
  - destruct fuel; [simpl in Hf; lia | reflexivity].
  - destruct fuel; [simpl in Hf; lia | destruct b; reflexivity].
  - destruct fuel; [simpl in Hf; lia | apply parse_value_JNum; exact T].
  - destruct fuel; [simpl in Hf; lia | apply parse_value_JStr].
  - rewrite need_JArr in Hf. destruct fuel as [|f]; [lia|].
    rewrite str_JArr. cbn [json_data] in Hj.
    destruct items as [|x l]; [reflexivity|].
    rewrite !append_assoc. cbn [append].
    destruct (str_head x) as [c [s [E Ho]]].
    pose proof (parse_items_text (x :: l) ltac:(discriminate) IH Hj f rest ltac:(lia)) as P.
    destruct l as [|y l].
    + cbn [map String.concat] in *. rewrite E in *. cbn [append] in *.
      rewrite (parse_value_array _ _ _ Ho), P. reflexivity.
    + change (String.concat "," (map str (x :: y :: l)))
        with (str x ++ "," ++ String.concat "," (map str (y :: l))) in *.
      rewrite E in *. cbn [append] in *.
      rewrite (parse_value_array _ _ _ Ho), P. reflexivity.
  - rewrite need_JObj in Hf. destruct fuel as [|f]; [lia|].
    cbn [json_data] in Hj. apply andb_prop in Hj. destruct Hj as [Hj Hd].
    rewrite (str_JObj _ Hj).
    destruct props as [|[k x] l]; [reflexivity|].
    rewrite !append_assoc. cbn [append].
    pose proof (parse_members_text ((k, x) :: l) ltac:(discriminate) IH Hj f rest
                  ltac:(lia)) as P.
    assert (Ho : opens dquote) by (split; [reflexivity | split; discriminate]).
    assert (F : fold_left (fun a kv => set_key (fst kv) (snd kv) a) ((k, x) :: l) []
                = (k, x) :: l).
    { apply (fold_set_key_distinct ((k, x) :: l) [] Hd). intros; reflexivity. }
    destruct l as [|y l].
    + cbn [map String.concat] in *. rewrite member_text_append, quote_append in *.
      cbn [fst snd] in *.
      rewrite (parse_value_object _ _ _ Ho), P, F. reflexivity.
    + change (String.concat "," (map member_text ((k, x) :: y :: l)))
        with (member_text (k, x) ++ "," ++ String.concat "," (map member_text (y :: l))) in *.
      rewrite append_assoc, member_text_append, quote_append in *.
      cbn [fst snd] in *.
      rewrite (parse_value_object _ _ _ Ho), P, F. reflexivity.
Qed.

Lemma need_items_fits (items : list JsValue) :
  Forall fits items ->
  forallb json_data items = true ->
  (need_items items <= String.length (String.concat "," (map str items)) + 1)%nat.
Proof.
  induction 1 as [|x l Hx Hl IH]; intros Hj; [simpl; lia|].
  simpl in Hj. apply andb_prop in Hj. destruct Hj as [Hjx Hjl].
  specialize (Hx Hjx). specialize (IH Hjl).
  destruct l as [|y l].
  - simpl. lia.
  - change (String.concat "," (map str (x :: y :: l)))
      with (str x ++ "," ++ String.concat "," (map str (y :: l))).
    rewrite !length_append. cbn [need_items fold_right] in *.
    cbn [String.length]. lia.
Qed.

Lemma need_members_fits (props : list (string * JsValue)) :
  Forall (fun kv => fits (snd kv)) props ->
  forallb (fun kv => json_data (snd kv)) props = true ->
  (need_members props
   <= String.length (String.concat "," (map member_text props)) + 1)%nat.
Proof.
  induction 1 as [|[k x] l Hx Hl IH]; intros Hj; [simpl; lia|].
  simpl in Hj. apply andb_prop in Hj. destruct Hj as [Hjx Hjl].
  simpl in Hx. specialize (Hx Hjx). specialize (IH Hjl).
  assert (Hm : (need x <= String.length (member_text (k, x)))%nat).
  { unfold member_text. rewrite !length_append. cbn [snd]. lia. }
  destruct l as [|y l].
  - simpl in *. lia.
  - change (String.concat "," (map member_text ((k, x) :: y :: l)))
      with (member_text (k, x) ++ "," ++ String.concat "," (map member_text (y :: l))).
    rewrite !length_append. cbn [need_members fold_right snd] in *.
    cbn [String.length]. lia.
Qed.

Lemma need_fits (v : JsValue) : fits v.
Proof.
  induction v as [| |b|n|s|items IH|props IH] using JsValue_nested_ind; intros Hj.
  - discriminate Hj.
  - simpl. lia.
  - destruct b; simpl; lia.
  - destruct (str_head (JNum n)) as [c [s [E _]]]. rewrite E. simpl. lia.
  - simpl. lia.
  - rewrite need_JArr, str_JArr. cbn [json_data] in Hj.
    pose proof (need_items_fits items IH Hj).
    rewrite !length_append. cbn [String.length]. lia.
  - rewrite need_JObj. cbn [json_data] in Hj. apply andb_prop in Hj.
    destruct Hj as [Hj _]. rewrite (str_JObj _ Hj).
    pose proof (need_members_fits props IH Hj).
    rewrite !length_append. cbn [String.length]. lia.
Qed.

(** [JSON.parse (JSON.stringify v)] is [v] for every JSON datum [v]. *)
Theorem parse_stringify (v : JsValue) :
  json_data v = true ->
  exists text, stringify v = Some text /\ parse text = Return v.
Proof.
  intros Hj. exists (str v). split.
  - destruct v; try reflexivity. discriminate Hj.
  - pose proof (need_fits v Hj) as Hn.
    assert (P : parse_value (2 * String.length (str v) + 2) (str v) = Some (v, "")).
    { rewrite <- (append_empty_r (str v)) at 2.
      apply str_reads_back; [exact Hj | lia | exact I]. }
    unfold parse. rewrite P. reflexivity.
Qed.

End IntJsonFacts.

(* ===================================================================== *)
(** ** Webhook payloads through JSON *)
(* ===================================================================== *)

(** C9, as amended.  (1) Whatever the host's JSON functions are, a payload
    they reproduce from its text, whose event is one of the six literals
    and whose [publication] and [timestamp] hold truthy values, comes back
    unchanged from [parseWebhookPayload (JSON.stringify p)].  (2) With the
    executable codec this holds for every JSON datum of that kind.  (3) When
    [publication] and [timestamp] are truthy and the event is truthy but not
    one of the six literals, the call throws; the error is the invalid-event
    error carrying the event's text whenever the event converts to a string,
    as every string event does. *)
Theorem parse_valid_payload_roundtrip :
  (forall (JSON_parse : string -> Completion JsValue)
          (JSON_stringify : JsValue -> option string)
          (p : JsValue) (text : string) (e : string) (pub ts : JsValue),
      JSON_stringify p = Some text ->
      JSON_parse text = Return p ->
      get p "event" = Return (JStr e) -> In e validEvents ->
      get p "publication" = Return pub -> truthy pub = true ->
      get p "timestamp" = Return ts -> truthy ts = true ->
      parseWebhookPayload JSON_parse (JStr text) = Return p)
  /\ (forall (p : JsValue) (e : string) (pub ts : JsValue),
         IntJson.json_data p = true ->
         get p "event" = Return (JStr e) -> In e validEvents ->
         get p "publication" = Return pub -> truthy pub = true ->
         get p "timestamp" = Return ts -> truthy ts = true ->
         exists text,
           IntJson.stringify p = Some text
           /\ parseWebhookPayload IntJson.parse (JStr text) = Return p)
  /\ (forall (JSON_parse : string -> Completion JsValue)
             (payload d ev pub ts : JsValue),
         payload_data JSON_parse payload = Return d ->
         get d "event" = Return ev -> truthy ev = true ->
         validEvents_includes ev = false ->
         get d "publication" = Return pub -> truthy pub = true ->
         get d "timestamp" = Return ts -> truthy ts = true ->
         (exists err, parseWebhookPayload JSON_parse payload = Throw err)
         /\ (forall shown, ToString ev = Return shown ->
               parseWebhookPayload JSON_parse payload
               = Throw (new_Error ("Invalid webhook event: " ++ shown)))
         /\ (forall e, ev = JStr e ->
               parseWebhookPayload JSON_parse payload
               = Throw (new_Error ("Invalid webhook event: " ++ e)))).
Proof.
  split; [|split].
  - intros JSON_parse JSON_stringify p text e pub ts.
    apply parseWebhookPayload_accepts.
  - intros p e pub ts Hj He Hin Hp Hpt Ht Htt.
    destruct (IntJsonFacts.parse_stringify p Hj) as [text [Hs Hr]].
    exists text. split; [exact Hs|].
    exact (parseWebhookPayload_accepts IntJson.parse IntJson.stringify
             p text e pub ts Hs Hr He Hin Hp Hpt Ht Htt).
  - intros JSON_parse payload d ev pub ts.
    apply parseWebhookPayload_unknown_event.
Qed.

(* ===================================================================== *)
(** ** HMAC-SHA256 against published test vectors *)
(* ===================================================================== *)

Example sha256_abc :
  Sha256.hex (Sha256.sha256 (Buffer_from "abc"))
  = "ba7816bf8f01cfea414140de5dae2223b00361a396177a9cb410ff61f20015ad".
Proof. vm_compute. reflexivity. Qed.

Example sha256_two_blocks :
  Sha256.hex (Sha256.sha256
     (Buffer_from "abcdbcdecdefdefgefghfghighijhijkijkljklmklmnlmnomnopnopq"))
  = "248d6a61d20638b8e5c026930c3e6039a33ce45964ff2167f6ecedd419db06c1".
Proof. vm_compute. reflexivity. Qed.

Example hmac_rfc4231_case2 :
  createHmac_sha256_hex "Jefe" "what do ya want for nothing?"
  = "5bdcc146bf60754e6a042426089575c75a003f089d2739839dec58b964ec3843".
Proof. vm_compute. reflexivity. Qed.

(* ===================================================================== *)
(** ** Webhook signatures *)
(* ===================================================================== *)

Lemma digest_bytes_length (s : Sha256.State) :
  List.length (flat_map (Sha256.be_bytes 4) (Sha256.digest_words s)) = 32%nat.
Proof. reflexivity. Qed.

Lemma sha256_length (msg : list Z) : List.length (Sha256.sha256 msg) = 32%nat.
Proof. unfold Sha256.sha256. apply digest_bytes_length. Qed.

Lemma hmac_length (key msg : list Z) : List.length (Sha256.hmac key msg) = 32%nat.
Proof. unfold Sha256.hmac. apply sha256_length. Qed.

Lemma hex_length (l : list Z) :
  String.length (Sha256.hex l) = (2 * List.length l)%nat.
Proof. induction l as [|b l IH]; simpl; [reflexivity | rewrite IH; lia]. Qed.

(** A hex digest of SHA-256 has 64 characters. *)
Lemma createHmac_sha256_hex_length (secret payload : string) :
  String.length (createHmac_sha256_hex secret payload) = 64%nat.
Proof.
  unfold createHmac_sha256_hex. rewrite hex_length, hmac_length. reflexivity.
Qed.

Lemma createHmac_sha256_hex_nonempty (secret payload : string) :
  createHmac_sha256_hex secret payload <> "".
Proof.
  intros H. pose proof (createHmac_sha256_hex_length secret payload) as L.
  rewrite H in L. discriminate L.
Qed.

Lemma same_bytes_refl (l : list Z) :
  forallb (fun p => fst p =? snd p) (combine l l) = true.
Proof.
  induction l as [|x l IH]; simpl; [reflexivity|].
  rewrite Z.eqb_refl. exact IH.
Qed.

Lemma same_bytes_eq (a b : list Z) :
  List.length a = List.length b ->
  forallb (fun p => fst p =? snd p) (combine a b) = true -> a = b.
Proof.
  revert b. induction a as [|x a IH]; intros [|y b] L H; simpl in *;
    try discriminate; [reflexivity|].
  apply andb_prop in H. destruct H as [Hxy H].
  apply Z.eqb_eq in Hxy. subst y. f_equal. apply IH; [lia | exact H].
Qed.

Lemma Buffer_from_injective (s t : string) : Buffer_from s = Buffer_from t -> s = t.
Proof.
  unfold Buffer_from. revert t.
  induction s as [|c s IH]; intros [|d t] H; simpl in *; try discriminate;
    [reflexivity|].
  injection H as Hc Ht. apply Nat2Z.inj in Hc.
  f_equal; [| apply IH; exact Ht].
  rewrite <- (ascii_nat_embedding c), <- (ascii_nat_embedding d), Hc. reflexivity.
Qed.

Lemma timingSafeEqual_refl (b : list Z) : timingSafeEqual b b = Return true.
Proof.
  unfold timingSafeEqual. rewrite Nat.eqb_refl, same_bytes_refl. reflexivity.
Qed.

(** C7.  Round trip of the signature helpers: for a non-empty body and a
    non-empty secret, the signature that [generateWebhookSignature] computes
    for the body is accepted by [verifyWebhookSignature] under the same
    secret. *)
Theorem verify_generated_signature (body secret : string) :
  body <> "" -> secret <> "" ->
  verifyWebhookSignature body (generateWebhookSignature body secret) secret
  = Return true.
Proof.
  intros Hb Hs. unfold verifyWebhookSignature, generateWebhookSignature.
  apply truthy_JStr in Hb. apply truthy_JStr in Hs.
  pose proof (createHmac_sha256_hex_nonempty secret body) as Hd.
  apply truthy_JStr in Hd.
  rewrite Hb, Hs, Hd. cbn [negb orb]. cbv zeta.
  rewrite timingSafeEqual_refl. reflexivity.
Qed.

(** C8.  [verifyWebhookSignature] is total and never throws: it returns a
    boolean for every payload, signature and secret, and that boolean is
    [false] when an input is empty, when the signature's byte length
    differs from the digest's (the [RangeError] of [timingSafeEqual], caught
    inside), and when the signature is not the expected digest. *)
Theorem verify_never_throws (payload signature secret : string) :
  exists b : bool,
    verifyWebhookSignature payload signature secret = Return b
    /\ (payload = "" \/ signature = "" \/ secret = "" -> b = false)
    /\ (List.length (Buffer_from signature)
        <> List.length (Buffer_from (createHmac_sha256_hex secret payload))
        -> b = false)
    /\ (signature <> createHmac_sha256_hex secret payload -> b = false).
Proof.
  unfold verifyWebhookSignature.
  destruct (truthy (JStr payload)) eqn:Hp; cbn [negb orb].
  2:{ exists false. repeat split; reflexivity. }
  destruct (truthy (JStr signature)) eqn:Hs; cbn [negb orb].
  2:{ exists false. repeat split; reflexivity. }
  destruct (truthy (JStr secret)) eqn:Hk; cbn [negb orb].
  2:{ exists false. repeat split; reflexivity. }
  apply truthy_JStr in Hp, Hs, Hk. cbv zeta. unfold timingSafeEqual.
  destruct (Nat.eqb_spec (List.length (Buffer_from signature))
              (List.length (Buffer_from (createHmac_sha256_hex secret payload))))
    as [L|L]; cbn [try_catch].
  - eexists. split; [reflexivity|]. split; [|split].
    + intros [E|[E|E]]; congruence.
    + intros N. contradiction.
    + intros N.
      destruct (forallb _ _) eqn:F; [|reflexivity].
      exfalso. apply N. apply Buffer_from_injective.
      apply same_bytes_eq; assumption.
  - exists false. repeat split; reflexivity.
Qed.

Lemma verify_generated_signature_witness :
  "{}" <> "" /\ "whsec" <> ""
  /\ verifyWebhookSignature "{}" (generateWebhookSignature "{}" "whsec") "whsec"
     = Return true.
Proof.
  split; [discriminate|]. split; [discriminate|].
  apply (verify_generated_signature "{}" "whsec"); discriminate.
Defined.

Lemma verify_never_throws_witness :
  verifyWebhookSignature "{}" "deadbeef" "whsec" = Return false
  /\ verifyWebhookSignature "{}" "" "whsec" = Return false.
Proof.
  split.
  - destruct (verify_never_throws "{}" "deadbeef" "whsec") as [b [E [_ [_ N]]]].
    rewrite E. f_equal. apply N. intros H.
    apply (f_equal String.length) in H.
    rewrite createHmac_sha256_hex_length in H. discriminate H.
  - destruct (verify_never_throws "{}" "" "whsec") as [b [E [N _]]].
    rewrite E. f_equal. apply N. right. left. reflexivity.
Defined.

(* ===================================================================== *)
(** ** Runs on sample data *)
(* ===================================================================== *)

(** C4.  The transport applies no timeout.  With the service's 15 s timeout
    passed in [options], a remote that answers after 60 s is waited for and
    its answer returned; a remote that never answers leaves the call
    pending; the one [fetch] call made carries no abort signal.  (Had the
    init object carried the signal, [fetch] would have rejected.) *)
Theorem query_applies_no_timeout :
  let options := {| opt_timeout := Some TIMEOUT_MS; opt_headers := None |} in
  let payload := {| query := HashnodeQueries_getBlogPosts true; variables := None |} in
  fst (GraphQLClient_query IntJson.stringify env_slow API_URL payload options [])
  = Fulfilled posts_envelope
  /\ fst (GraphQLClient_query IntJson.stringify env_silent API_URL payload options [])
     = Pending
  /\ map (fun call => signal (snd call))
         (snd (GraphQLClient_query IntJson.stringify env_slow API_URL payload options []))
     = [None]
  /\ fst (fetch env_slow API_URL
            {| method := "POST"; headers := []; body := None;
               next_revalidate := None; cache := None;
               signal := Some TIMEOUT_MS |} [])
     = Rejected timeout_error.
Proof. repeat split. Qed.

Lemma valid_slug_hello : valid_slug (JStr " hello ").
Proof. exists " hello ". split; [reflexivity | vm_compute; discriminate]. Qed.

(** On [env_flaky] the extended attempt fails with the GraphQL error and the
    basic one with the 503; the caller gets the former. *)
Lemma both_attempts_fail_first_error_witness :
  fst (HashnodeService_getBlogPostBySlug IntJson.stringify env_flaky
         (hashnodeService env_flaky) (JStr " hello ") [])
  = Rejected (new_Error "GraphQL error: Cannot query field tags on type Post")
  /\ fst (post_attempt IntJson.stringify env_flaky (hashnodeService env_flaky) false
            (slug_variables (hashnodeService env_flaky) (JStr " hello "))
            [post_call IntJson.stringify env_flaky (hashnodeService env_flaky) true
               (JStr " hello ")])
     = Rejected (GraphQLErrorObj "HTTP 503: Service Unavailable" (Some 503)
                   (Some "Service Unavailable") (Some "upstream down")).
Proof.
  split; [|reflexivity].
  assert (H : exists log2,
             HashnodeService_getBlogPostBySlug IntJson.stringify env_flaky
               (hashnodeService env_flaky) (JStr " hello ") []
             = (Rejected (new_Error "GraphQL error: Cannot query field tags on type Post"),
                log2)).
  { eexists.
    eapply (both_attempts_fail_first_error IntJson.stringify env_flaky
              (hashnodeService env_flaky) (JStr " hello ") []).
    - exact valid_slug_hello.
    - reflexivity.
    - reflexivity. }
  destruct H as [log2 ->]. reflexivity.
Defined.

(** On [env_basic_only] the first attempt fails, so two requests go out; on
    [env_good] it succeeds, so one does. *)
Lemma slug_requests_extended_then_basic_witness :
  snd (HashnodeService_getBlogPostBySlug IntJson.stringify env_basic_only
         (hashnodeService env_basic_only) (JStr " hello ") [])
  = [post_call IntJson.stringify env_basic_only (hashnodeService env_basic_only)
       true (JStr " hello ");
     post_call IntJson.stringify env_basic_only (hashnodeService env_basic_only)
       false (JStr " hello ")]
  /\ snd (HashnodeService_getBlogPostBySlug IntJson.stringify env_good
            (hashnodeService env_good) (JStr " hello ") [])
     = [post_call IntJson.stringify env_good (hashnodeService env_good)
          true (JStr " hello ")].
Proof.
  split.
  - destruct (slug_requests_extended_then_basic IntJson.stringify env_basic_only
                (hashnodeService env_basic_only) (JStr " hello ") []
                valid_slug_hello) as [_ [_ [Hiff _]]].
    apply Hiff. eexists. reflexivity.
  - destruct (slug_requests_extended_then_basic IntJson.stringify env_good
                (hashnodeService env_good) (JStr " hello ") []
                valid_slug_hello) as [_ [_ [_ Hone]]].
    apply Hone. eexists. reflexivity.
Defined.

Lemma env_down_always_fails : transport_always_fails IntJson.stringify env_down.
Proof. intros url payload options log. eexists. reflexivity. Qed.

(** On [env_down] both attempts fail: the service and the facade both give
    the empty list. *)
Lemma posts_both_fail_empty_list_witness :
  fst (HashnodeService_getBlogPosts IntJson.stringify env_down
         (hashnodeService env_down) (Some 50) [])
  = Fulfilled []
  /\ fst (getBlogPosts IntJson.stringify env_down (Some 50) []) = Fulfilled [].
Proof.
  destruct (posts_both_fail_empty_list IntJson.stringify env_down
              (hashnodeService env_down) (Some 50) []) as [Hboth [_ [_ Hfacade]]].
  split.
  - erewrite Hboth; reflexivity.
  - apply Hfacade. exact env_down_always_fails.
Defined.

(** Fifty is cut down to twenty; seven, zero and minus three go out as they
    are; every request of the run carries that number. *)
Lemma sent_page_size_witness :
  page_size (Some 50) = 20 /\ page_size (Some 7) = 7
  /\ page_size (Some 0) = 0 /\ page_size (Some (-3)) = -3
  /\ exists issued : list FetchCall,
       snd (HashnodeService_getBlogPosts IntJson.stringify env_down
              (hashnodeService env_down) (Some 50) [])
       = ([] ++ issued)%list
       /\ issued <> []
       /\ Forall (fun call =>
                    exists extended,
                      call = posts_call IntJson.stringify env_down
                               (hashnodeService env_down) extended 20)
                 issued.
Proof.
  split; [|split; [|split; [|split]]].
  - apply (proj1 (proj2 (sent_page_size IntJson.stringify env_down
                           (hashnodeService env_down) (Some 50) []))
                 50 eq_refl).
    reflexivity.
  - apply (proj1 (proj2 (proj2 (sent_page_size IntJson.stringify env_down
                                  (hashnodeService env_down) (Some 7) [])))
                 7 eq_refl).
    discriminate.
  - apply (proj1 (proj2 (proj2 (sent_page_size IntJson.stringify env_down
                                  (hashnodeService env_down) (Some 0) [])))
                 0 eq_refl).
    discriminate.
  - apply (proj1 (proj2 (proj2 (sent_page_size IntJson.stringify env_down
                                  (hashnodeService env_down) (Some (-3)) [])))
                 (-3) eq_refl).
    discriminate.
  - exact (proj2 (proj2 (proj2 (sent_page_size IntJson.stringify env_down
                                  (hashnodeService env_down) (Some 50) [])))).
Defined.

Lemma whitespace_only_sample : whitespace_only (bytes [32; 9; 194; 160; 10]).
Proof.
  exists [bytes [32]; bytes [9]; bytes [194; 160]; bytes [10]].
  split; [|reflexivity].
  repeat constructor; cbv; tauto.
Qed.

(** The empty string, a number and a run of white space are all refused
    with nothing sent. *)
Lemma invalid_slug_rejected_without_request_witness :
  HashnodeService_getBlogPostBySlug IntJson.stringify env_good
    (hashnodeService env_good) (JStr "") []
  = (Rejected invalid_slug_error, [])
  /\ HashnodeService_getBlogPostBySlug IntJson.stringify env_good
       (hashnodeService env_good) (JNum 42) []
     = (Rejected invalid_slug_error, [])
  /\ HashnodeService_getBlogPostBySlug IntJson.stringify env_good
       (hashnodeService env_good) (JStr (bytes [32; 9; 194; 160; 10])) []
     = (Rejected invalid_slug_error, []).
Proof.
  split; [|split].
  - apply invalid_slug_rejected_without_request. left. reflexivity.
  - apply invalid_slug_rejected_without_request. right. left. reflexivity.
  - apply invalid_slug_rejected_without_request. right. right.
    eexists. split; [reflexivity | exact whitespace_only_sample].
Defined.

(** A zero [timestamp] in an object payload, and an empty one in a JSON
    text, are both reported as missing. *)
Lemma falsy_field_is_missing_witness :
  (parseWebhookPayload IntJson.parse (JObj payload_zero_timestamp_props)
   = Throw missing_fields_error
   /\ parseWebhookPayload IntJson.parse
        (JObj (remove_key "timestamp" payload_zero_timestamp_props))
      = Throw missing_fields_error)
  /\ parseWebhookPayload IntJson.parse (JStr payload_blank_timestamp_text)
     = Throw missing_fields_error.
Proof.
  split.
  - apply (falsy_field_is_missing IntJson.parse (JObj payload_zero_timestamp_props)
             payload_zero_timestamp_props "timestamp" (JNum 0)).
    + reflexivity.
    + simpl. tauto.
    + reflexivity.
    + reflexivity.
  - refine (proj1 (falsy_field_is_missing IntJson.parse
                     (JStr payload_blank_timestamp_text) _ "timestamp" (JStr "")
                     _ _ _ _)).
    + vm_compute. reflexivity.
    + simpl. tauto.
    + reflexivity.
    + reflexivity.
Defined.

(** The sample payload survives the round trip; an unknown event in an
    otherwise complete payload is refused by name. *)
Lemma parse_valid_payload_roundtrip_witness :
  parseWebhookPayload IntJson.parse (JStr sample_payload_text) = Return sample_payload
  /\ (exists text,
        IntJson.stringify sample_payload = Some text
        /\ parseWebhookPayload IntJson.parse (JStr text) = Return sample_payload)
  /\ parseWebhookPayload IntJson.parse payload_archived
     = Throw (new_Error "Invalid webhook event: POST_ARCHIVED").
Proof.
  destruct parse_valid_payload_roundtrip as [Hround [Hdata Hevent]].
  split; [|split].
  - apply (Hround IntJson.parse IntJson.stringify sample_payload sample_payload_text
             "POST_PUBLISHED" sample_publication (JStr "2024-05-01T10:00:01.000Z")).
    + reflexivity.
    + vm_compute. reflexivity.
    + reflexivity.
    + simpl. tauto.
    + reflexivity.
    + reflexivity.
    + reflexivity.
    + reflexivity.
  - apply (Hdata sample_payload "POST_PUBLISHED" sample_publication
             (JStr "2024-05-01T10:00:01.000Z")).
    + reflexivity.
    + reflexivity.
    + simpl. tauto.
    + reflexivity.
    + reflexivity.
    + reflexivity.
    + reflexivity.
  - apply (Hevent IntJson.parse payload_archived payload_archived
             (JStr "POST_ARCHIVED") sample_publication
             (JStr "2024-05-01T10:00:01.000Z"));
      reflexivity.
Defined.

(** C9 as stated fails.  [payload_blank_timestamp] has a valid event and
    both [publication] and [timestamp] present, and JSON reproduces it, yet
    [parseWebhookPayload] of its JSON text throws instead of returning it.
    [payload_archived_no_timestamp] has an event outside the enumeration,
    yet the error it gets is the missing-fields one, not the invalid-event
    one.  [payload_object_event] has an event outside the enumeration that
    does not convert to a string: the error is the conversion's.
    [payload_undefined_post] is valid too, but JSON drops its [undefined]
    entry, so what comes back is another value. *)
Lemma parse_roundtrip_counterexample :
  (fields_present_valid payload_blank_timestamp = true
   /\ exists text,
        IntJson.stringify payload_blank_timestamp = Some text
        /\ IntJson.parse text = Return payload_blank_timestamp
        /\ parseWebhookPayload IntJson.parse (JStr text) = Throw missing_fields_error
        /\ parseWebhookPayload IntJson.parse (JStr text)
           <> Return payload_blank_timestamp)
  /\ (get payload_archived_no_timestamp "event" = Return (JStr "POST_ARCHIVED")
      /\ validEvents_includes (JStr "POST_ARCHIVED") = false
      /\ parseWebhookPayload IntJson.parse payload_archived_no_timestamp
         = Throw missing_fields_error
      /\ parseWebhookPayload IntJson.parse payload_archived_no_timestamp
         <> Throw (new_Error "Invalid webhook event: POST_ARCHIVED"))
  /\ (validEvents_includes (JObj [("toString", JNum 1)]) = false
      /\ parseWebhookPayload IntJson.parse payload_object_event
         = Throw (new_TypeError "Cannot convert object to primitive value"))
  /\ (fields_present_valid payload_undefined_post = true
      /\ exists text,
           IntJson.stringify payload_undefined_post = Some text
           /\ parseWebhookPayload IntJson.parse (JStr text) = Return payload_without_post
           /\ payload_without_post <> payload_undefined_post).
Proof.
  split; [|split; [|split]].
  - split; [reflexivity|]. eexists. split; [reflexivity|].
    split; [vm_compute; reflexivity|].
    split; [vm_compute; reflexivity|].
    vm_compute. discriminate.
  - split; [reflexivity|]. split; [reflexivity|].
    split; [reflexivity|]. vm_compute. discriminate.
  - split; reflexivity.
  - split; [reflexivity|]. eexists. split; [reflexivity|].
    split; [vm_compute; reflexivity | discriminate].
Qed.

(* ===================================================================== *)
(** ** Webhook events and signatures *)
(* ===================================================================== *)

(** X21.  The two event predicates split the six event names between
    them: a value is a valid event exactly when one of the predicates holds,
    and never both hold; on everything else (other strings, values that are
    not strings) both are false. *)
Theorem event_predicates_split (event : JsValue) :
  validEvents_includes event = isPostEvent event || isStaticPageEvent event
  /\ isPostEvent event && isStaticPageEvent event = false
  /\ (typeof_string event = false ->
      isPostEvent event = false /\ isStaticPageEvent event = false).
Proof.
  destruct event as [| |b|n|s|items|props];
    try (repeat split; reflexivity).
  unfold validEvents_includes, isPostEvent, isStaticPageEvent, validEvents.
  cbn [existsb strict_eq_str].
  split; [|split; [|discriminate]].
  - rewrite orb_false_r, !orb_assoc. reflexivity.
  - destruct (String.eqb_spec s "POST_PUBLISHED") as [->|_]; [reflexivity|].
    destruct (String.eqb_spec s "POST_UPDATED") as [->|_]; [reflexivity|].
    destruct (String.eqb_spec s "POST_DELETED") as [->|_]; reflexivity.
Qed.

Lemma hex_digit_lower (n : Z) : 0 <= n < 16 -> lower_hex (Sha256.hex_digit n) = true.
Proof.
  intros H.
  assert (All : forallb (fun k => lower_hex (Sha256.hex_digit (Z.of_nat k)))
                        (seq 0 16) = true) by reflexivity.
  rewrite forallb_forall in All.
  rewrite <- (Z2Nat.id n) by lia. apply All. apply in_seq. lia.
Qed.

Lemma nibble_range (b : Z) : 0 <= Z.land b 0xF < 16.
Proof.
  change 0xF with (Z.ones 4). rewrite Z.land_ones by lia.
  apply Z.mod_pos_bound. reflexivity.
Qed.

Lemma hex_lower (l : list Z) :
  forallb lower_hex (list_ascii_of_string (Sha256.hex l)) = true.
Proof.
  induction l as [|b l IH]; [reflexivity|].
  cbn [Sha256.hex list_ascii_of_string forallb].
  rewrite !hex_digit_lower by apply nibble_range. exact IH.
Qed.

(** What [verifyWebhookSignature] computes. *)
Lemma verifyWebhookSignature_authentic (payload signature secret : string) :
  verifyWebhookSignature payload signature secret
  = Return (authentic payload signature secret).
Proof.
  unfold verifyWebhookSignature, authentic, generateWebhookSignature.
  destruct (truthy (JStr payload)); cbn [negb orb andb]; [|reflexivity].
  destruct (truthy (JStr signature)); cbn [negb orb andb]; [|reflexivity].
  destruct (truthy (JStr secret)); cbn [negb orb andb]; [|reflexivity].
  cbv zeta. unfold timingSafeEqual.
  destruct (String.eqb_spec signature (createHmac_sha256_hex secret payload))
    as [->|N].
  - rewrite Nat.eqb_refl, same_bytes_refl. reflexivity.
  - destruct (Nat.eqb_spec (List.length (Buffer_from signature))
                (List.length (Buffer_from (createHmac_sha256_hex secret payload))))
      as [L|L]; cbn [try_catch]; [|reflexivity].
    destruct (forallb _ _) eqn:F; [|reflexivity].
    exfalso. apply N. apply Buffer_from_injective.
    apply same_bytes_eq; assumption.
Qed.

(** X22.  A generated signature is 64 lower-case hexadecimal digits, and
    so is every signature that [verifyWebhookSignature] accepts: the digest
    in upper case, or with a prefix such as [sha256=], is refused. *)
Theorem generateWebhookSignature_format (payload secret : string) :
  String.length (generateWebhookSignature payload secret) = 64%nat
  /\ forallb lower_hex (list_ascii_of_string (generateWebhookSignature payload secret))
     = true
  /\ (forall signature,
         verifyWebhookSignature payload signature secret = Return true ->
         String.length signature = 64%nat
         /\ forallb lower_hex (list_ascii_of_string signature) = true).
Proof.
  assert (L : String.length (generateWebhookSignature payload secret) = 64%nat)
    by apply createHmac_sha256_hex_length.
  assert (F : forallb lower_hex
                (list_ascii_of_string (generateWebhookSignature payload secret)) = true)
    by apply hex_lower.
  split; [exact L|]. split; [exact F|].
  intros signature H. rewrite verifyWebhookSignature_authentic in H.
  injection H as H. unfold authentic in H.
  apply andb_prop in H as [_ H]. apply String.eqb_eq in H. subst signature.
  split; assumption.
Qed.

(* ===================================================================== *)
(** ** The example route *)
(* ===================================================================== *)

Section Route.

Variable JSON_parse : string -> Completion JsValue.

(** The route, case by case. *)
Lemma POST_run (secret : option string) (request : RouteRequest)
  (tr : list HookEvent) :
  POST JSON_parse secret request tr
  = match request_text request with
    | Fulfilled payload =>
        if match secret with Some s => truthy (JStr s) | None => false end
        then
          if authentic payload (signature_header request)
                       (match secret with Some s => s | None => "" end)
          then
            match parseWebhookPayload JSON_parse (JStr payload) with
            | Return d =>
                match handleWebhookEvent d (tr ++ received d)%list with
                | (Fulfilled _, tr') =>
                    (Fulfilled {| route_body := "Webhook processed successfully";
                                  route_status := 200 |}, tr')
                | (Rejected e, tr') =>
                    (Fulfilled {| route_body := "Internal server error";
                                  route_status := 500 |},
                     (tr' ++ [Console "error" "❌ Error processing webhook:"
                                      (Some e)])%list)
                | (Pending, tr') => (Pending, tr')
                end
            | Throw e =>
                (Fulfilled {| route_body := "Invalid payload"; route_status := 400 |},
                 (tr ++ [Console "log" "🔐 Verifying webhook signature..." None;
                         Console "log" "✅ Signature verified successfully" None;
                         Console "error" "❌ Invalid webhook payload:" (Some e)])%list)
            end
          else
            (Fulfilled {| route_body := "Invalid signature"; route_status := 401 |},
             (tr ++ checking
                 ++ [Console "error"
                       "❌ Invalid webhook signature - possible attack attempt"
                       None])%list)
        else
          (Fulfilled {| route_body := "Webhook secret not configured";
                        route_status := 500 |},
           (tr ++ [Console "error" "❌ HASHNODE_WEBHOOK_SECRET not configured"
                           None])%list)
    | Rejected e =>
        (Fulfilled {| route_body := "Internal server error"; route_status := 500 |},
         (tr ++ [Console "error" "❌ Error processing webhook:" (Some e)])%list)
    | Pending => (Pending, tr)
    end.
Proof.
  unfold POST, htry, hbind at 1, hawait.
  destruct (request_text request) as [payload|e|]; [|reflexivity|reflexivity].
  fold (signature_header request).
  destruct secret as [s|]; [|reflexivity].
  cbn [truthy string_of].
  destruct (negb (s =? "")%string) eqn:Hs; cbn [negb]; [|reflexivity].
  unfold hbind at 1, console at 1.
  rewrite verifyWebhookSignature_authentic. unfold hbind at 1. cbn [hlift hresolve].
  destruct (authentic payload (signature_header request) s); cbn [negb].
  2:{ unfold hbind, console, hresolve, checking. rewrite <- app_assoc. reflexivity. }
  unfold hbind at 1, console at 1. unfold hbind at 1, htry.
  destruct (parseWebhookPayload JSON_parse (JStr payload)) as [d|e] eqn:Hp.
  - destruct (parseWebhookPayload_inv _ _ _ Hp) as [_ Hshape].
    destruct Hshape as [props [ev [pub [ts [-> [He _]]]]]].
    unfold hbind at 1. cbn [hlift hresolve].
    unfold hbind at 1. rewrite get_JObj, He. cbn [hlift hresolve].
    unfold hbind at 1. cbn [ToString hlift hresolve].
    unfold hbind at 1, console at 1. cbn [hresolve fst snd].
    unfold hbind at 1.
    assert (Htr : (((tr ++ [Console "log" "🔐 Verifying webhook signature..." None])
                    ++ [Console "log" "✅ Signature verified successfully" None])
                   ++ [Console "log" ("📨 Received webhook event: " ++ ev) None])%list
                  = (tr ++ received (JObj props))%list).
    { unfold received, event_name. rewrite get_JObj, He.
      rewrite <- !app_assoc. reflexivity. }
    rewrite Htr.
    destruct (handleWebhookEvent (JObj props) _) as [[[]|e|] tr']; reflexivity.
  - unfold hbind at 1. cbn [hlift hreject].
    unfold hbind, console, hresolve. cbn [fst snd].
    rewrite <- !app_assoc. reflexivity.
Qed.

(** X23.  The route always answers: it never rejects, whatever the
    request, the secret and the handlers do, and its status is one of 200,
    400, 401 and 500. *)
Theorem POST_always_answers (secret : option string) (request : RouteRequest)
  (tr : list HookEvent) :
  (forall e, fst (POST JSON_parse secret request tr) <> Rejected e)
  /\ (forall answer, fst (POST JSON_parse secret request tr) = Fulfilled answer ->
                     In (route_status answer) [200; 400; 401; 500]).
Proof.
  rewrite POST_run.
  destruct (request_text request) as [payload|e0|].
  - destruct (match secret with Some s => truthy (JStr s) | None => false end).
    + destruct (authentic _ _ _).
      * destruct (parseWebhookPayload _ _) as [d|e1].
        -- destruct (handleWebhookEvent d _) as [[[]|e2|] tr']; cbn [fst]; split;
             try discriminate; intros answer H; injection H as <-; cbn; auto.
        -- cbn [fst]; split; [discriminate|].
           intros answer H; injection H as <-; cbn; auto.
      * cbn [fst]; split; [discriminate|].
        intros answer H; injection H as <-; cbn; auto.
    + cbn [fst]; split; [discriminate|].
      intros answer H; injection H as <-; cbn; auto.
  - cbn [fst]; split; [discriminate|].
    intros answer H; injection H as <-; cbn; auto.
  - cbn [fst]; split; discriminate.
Qed.

(** X24.  The route answers 200 only for a request that is signed with
    the configured secret and carries a valid payload on which
    [handleWebhookEvent] has completed: the body was read and is not empty,
    the secret is set, the signature header is the HMAC of the body,
    [parseWebhookPayload] accepted the body, and the handling fulfilled. *)
Theorem POST_success_requires (secret : option string) (request : RouteRequest)
  (tr tr' : list HookEvent) (answer : RouteResponse) :
  POST JSON_parse secret request tr = (Fulfilled answer, tr') ->
  route_status answer = 200 ->
  exists payload s d,
    request_text request = Fulfilled payload /\ payload <> ""
    /\ secret = Some s /\ s <> ""
    /\ x_hashnode_signature request = Some (generateWebhookSignature payload s)
    /\ parseWebhookPayload JSON_parse (JStr payload) = Return d
    /\ handleWebhookEvent d (tr ++ received d)%list = (Fulfilled tt, tr').
Proof.
  rewrite POST_run. intros H Hs.
  destruct (request_text request) as [payload|e0|];
    [| injection H as <- _; discriminate Hs | discriminate H].
  destruct secret as [s|]; [| injection H as <- _; discriminate Hs].
  destruct (truthy (JStr s)) eqn:Ts; [| injection H as <- _; discriminate Hs].
  destruct (authentic payload (signature_header request) s) eqn:Ha;
    [| injection H as <- _; discriminate Hs].
  destruct (parseWebhookPayload JSON_parse (JStr payload)) as [d|e1] eqn:Hp;
    [| injection H as <- _; discriminate Hs].
  destruct (handleWebhookEvent d _) as [[[]|e2|] tr2] eqn:Hh;
    [| injection H as <- _; discriminate Hs | discriminate H].
  injection H as _ <-.
  unfold authentic in Ha.
  apply andb_prop in Ha as [Ha Heq]. apply andb_prop in Ha as [Ha _].
  apply andb_prop in Ha as [Tp Tsig].
  apply String.eqb_eq in Heq.
  exists payload, s, d. repeat split; try assumption.
  - apply truthy_JStr. exact Tp.
  - apply truthy_JStr. exact Ts.
  - unfold signature_header in Heq, Tsig.
    destruct (x_hashnode_signature request) as [h|]; [|discriminate Tsig].
    destruct (truthy (JStr h)); [|discriminate Tsig]. rewrite Heq. reflexivity.
Qed.

(** X25.  Requests that are not authenticated never reach the payload:
    without a configured secret the route answers 500 after one error line;
    with a secret, a missing, empty or wrong signature (or an empty body)
    gives 401 after the two lines of the check. *)
Theorem POST_unauthenticated (secret : option string) (request : RouteRequest)
  (payload : string) (tr : list HookEvent) :
  request_text request = Fulfilled payload ->
  (secret = None \/ secret = Some "" ->
   POST JSON_parse secret request tr
   = (Fulfilled {| route_body := "Webhook secret not configured";
                   route_status := 500 |},
      (tr ++ [Console "error" "❌ HASHNODE_WEBHOOK_SECRET not configured" None])%list))
  /\ (forall s, secret = Some s -> s <> "" ->
        payload = ""
        \/ x_hashnode_signature request <> Some (generateWebhookSignature payload s) ->
        POST JSON_parse secret request tr
        = (Fulfilled {| route_body := "Invalid signature"; route_status := 401 |},
           (tr ++ [Console "log" "🔐 Verifying webhook signature..." None;
                   Console "error"
                     "❌ Invalid webhook signature - possible attack attempt"
                     None])%list)).
Proof.
  intros Hbody. split.
  - intros [-> | ->]; rewrite POST_run, Hbody; reflexivity.
  - intros s -> Hs Hbad. rewrite POST_run, Hbody.
    apply truthy_JStr in Hs. rewrite Hs.
    assert (Ha : authentic payload (signature_header request) s = false).
    { unfold authentic. destruct Hbad as [-> | Hbad]; [reflexivity|].
      destruct (truthy (JStr payload)); [|reflexivity].
      destruct (truthy (JStr (signature_header request))) eqn:Tsig; [|reflexivity].
      rewrite Hs. cbn [andb].
      destruct (String.eqb_spec (signature_header request)
                  (generateWebhookSignature payload s)) as [E|_]; [|reflexivity].
      exfalso. apply Hbad. unfold signature_header in E, Tsig.
      destruct (x_hashnode_signature request) as [h|]; [|discriminate Tsig].
      destruct (truthy (JStr h)); [|discriminate Tsig]. rewrite E. reflexivity. }
    rewrite Ha. reflexivity.
Qed.

(** X26.  An authenticated request is answered by what happens to its
    payload: 400 when [parseWebhookPayload] throws, the error being logged
    and [handleWebhookEvent] not called; 200 when the handling fulfils; 500
    when the handling rejects, the error being logged last. *)
Theorem POST_authenticated (s : string) (request : RouteRequest)
  (payload : string) (tr : list HookEvent) :
  request_text request = Fulfilled payload -> payload <> "" -> s <> "" ->
  x_hashnode_signature request = Some (generateWebhookSignature payload s) ->
  (forall e, parseWebhookPayload JSON_parse (JStr payload) = Throw e ->
     POST JSON_parse (Some s) request tr
     = (Fulfilled {| route_body := "Invalid payload"; route_status := 400 |},
        (tr ++ [Console "log" "🔐 Verifying webhook signature..." None;
                Console "log" "✅ Signature verified successfully" None;
                Console "error" "❌ Invalid webhook payload:" (Some e)])%list))
  /\ (forall d tr', parseWebhookPayload JSON_parse (JStr payload) = Return d ->
        handleWebhookEvent d (tr ++ received d)%list = (Fulfilled tt, tr') ->
        POST JSON_parse (Some s) request tr
        = (Fulfilled {| route_body := "Webhook processed successfully";
                        route_status := 200 |}, tr'))
  /\ (forall d e tr', parseWebhookPayload JSON_parse (JStr payload) = Return d ->
        handleWebhookEvent d (tr ++ received d)%list = (Rejected e, tr') ->
        POST JSON_parse (Some s) request tr
        = (Fulfilled {| route_body := "Internal server error"; route_status := 500 |},
           (tr' ++ [Console "error" "❌ Error processing webhook:" (Some e)])%list)).
Proof.
  intros Hbody Hp Hs Hsig.
  assert (Ha : authentic payload (signature_header request) s = true).
  { unfold authentic, signature_header. rewrite Hsig.
    pose proof (createHmac_sha256_hex_nonempty s payload) as Hd.
    fold (generateWebhookSignature payload s) in Hd.
    apply truthy_JStr in Hp, Hs, Hd. rewrite Hd, Hp, Hd, Hs.
    rewrite String.eqb_refl. reflexivity. }
  apply truthy_JStr in Hs.
  split; [|split].
  - intros e He. rewrite POST_run, Hbody, Hs, Ha, He. reflexivity.
  - intros d tr' Hd Hh. rewrite POST_run, Hbody, Hs, Ha, Hd, Hh. reflexivity.
  - intros d e tr' Hd Hh. rewrite POST_run, Hbody, Hs, Ha, Hd, Hh. reflexivity.
Qed.

End Route.

(* ===================================================================== *)
(** ** The example's event handling *)
(* ===================================================================== *)

Section Handling.

Variable JSON_parse : string -> Completion JsValue.

(** The first console line of each example handler. *)
Lemma handlers_first_line (e : string) (props : list (string * JsValue))
  (tr : list HookEvent) :
  In e validEvents ->
  lookup "data" props = None \/ lookup "data" props = Some JUndefined
  \/ lookup "data" props = Some JNull ->
  exists handler line msg,
    handler_for e handlers = Some handler
    /\ handler (JObj props) tr
       = (Rejected (new_TypeError msg), (tr ++ [Console "log" line None])%list).
Proof.
  intros Hin Hdata. simpl in Hin.
  destruct Hin as [<-|[<-|[<-|[<-|[<-|[<-|[]]]]]]];
    destruct Hdata as [Hd | [Hd | Hd]];
    (eexists; eexists; eexists; split; [reflexivity|]);
    unfold log_field, hbind, console; cbn [fst snd]; rewrite get_JObj, Hd;
    reflexivity.
Qed.

(** X27.  The example's handling needs the [data] field, which
    [parseWebhookPayload] does not require: on an accepted payload without
    it (or with a [null] one) the handler rejects with a [TypeError] after
    its first line, and the route answers a correctly signed request with
    500. *)
Theorem handleWebhookEvent_needs_data (payload : string) (d : JsValue)
  (tr : list HookEvent) :
  parseWebhookPayload JSON_parse (JStr payload) = Return d ->
  get d "data" = Return JUndefined \/ get d "data" = Return JNull ->
  (exists line msg,
      handleWebhookEvent d tr
      = (Rejected (new_TypeError msg), (tr ++ [Console "log" line None])%list))
  /\ (forall s request,
         request_text request = Fulfilled payload -> payload <> "" -> s <> "" ->
         x_hashnode_signature request = Some (generateWebhookSignature payload s) ->
         fst (POST JSON_parse (Some s) request tr)
         = Fulfilled {| route_body := "Internal server error";
                        route_status := 500 |}).
Proof.
  intros Hp Hdata.
  destruct (parseWebhookPayload_inv _ _ _ Hp) as [_ Hshape].
  destruct Hshape as [props [e [pub [ts [-> [He [Hin _]]]]]]].
  assert (Hlook : lookup "data" props = None \/ lookup "data" props = Some JUndefined
                  \/ lookup "data" props = Some JNull).
  { rewrite get_JObj in Hdata.
    destruct (lookup "data" props) as [x|]; [|auto].
    destruct Hdata as [H|H]; injection H as ->; auto. }
  assert (Hrej : forall t, exists line msg,
             handleWebhookEvent (JObj props) t
             = (Rejected (new_TypeError msg), (t ++ [Console "log" line None])%list)).
  { intros t.
    destruct (handlers_first_line e props t Hin Hlook) as [h [line [msg [Hh Hr]]]].
    exists line, msg. unfold handleWebhookEvent, processWebhook.
    unfold hbind at 1. unfold hbind at 1. rewrite get_JObj, He. cbn [hlift hresolve].
    unfold hbind at 1. cbn [ToString hlift hresolve]. rewrite Hh, Hr. reflexivity. }
  split; [apply Hrej|].
  intros s request Hbody Hne Hs Hsig. rewrite POST_run, Hbody.
  assert (Ha : authentic payload (signature_header request) s = true).
  { unfold authentic, signature_header. rewrite Hsig.
    pose proof (createHmac_sha256_hex_nonempty s payload) as Hd.
    fold (generateWebhookSignature payload s) in Hd.
    apply truthy_JStr in Hne, Hs, Hd. rewrite Hd, Hne, Hd, Hs.
    rewrite String.eqb_refl. reflexivity. }
  apply truthy_JStr in Hs. rewrite Hs, Ha, Hp.
  destruct (Hrej (tr ++ received (JObj props))%list) as [line [msg ->]]. reflexivity.
Qed.

(** X28.  On a payload that [parseWebhookPayload] accepted the example's
    table always has a handler (the warning of [processWebhook] is never
    printed).  When the handler fulfils, exactly one of the two detail
    blocks follows: the post block for a post event, the page block for a
    static-page event.  When the handler rejects, so does the handling. *)
Theorem handleWebhookEvent_complete (payload d : JsValue) (tr : list HookEvent) :
  parseWebhookPayload JSON_parse payload = Return d ->
  exists handler,
    handler_for (event_name d) handlers = Some handler
    /\ processWebhook d handlers tr = handler d tr
    /\ (forall tr1, handler d tr = (Fulfilled tt, tr1) ->
          exists detail,
            handleWebhookEvent d tr
            = (Fulfilled tt,
               (tr1 ++ if isPostEvent (JStr (event_name d))
                       then [Console "log" "📰 This is a post-related event" None;
                             ConsoleValue "log" "   Post details:" detail]
                       else [Console "log" "📄 This is a static page-related event"
                                     None;
                             ConsoleValue "log" "   Page details:" detail])%list))
    /\ (forall e tr1, handler d tr = (Rejected e, tr1) ->
          handleWebhookEvent d tr = (Rejected e, tr1)).
Proof.
  intros Hp.
  destruct (parseWebhookPayload_inv _ _ _ Hp) as [_ Hshape].
  destruct Hshape as [props [e [pub [ts [-> [He [Hin _]]]]]]].
  assert (Hname : event_name (JObj props) = e).
  { unfold event_name. rewrite get_JObj, He. reflexivity. }
  rewrite Hname.
  assert (Hrun : forall h, handler_for e handlers = Some h ->
                           processWebhook (JObj props) handlers tr = h (JObj props) tr).
  { intros h Hh. unfold processWebhook.
    unfold hbind at 1. rewrite get_JObj, He. cbn [hlift hresolve].
    unfold hbind at 1. cbn [ToString hlift hresolve]. rewrite Hh. reflexivity. }
  assert (Hh : exists h, handler_for e handlers = Some h).
  { simpl in Hin.
    destruct Hin as [<-|[<-|[<-|[<-|[<-|[<-|[]]]]]]]; eexists; reflexivity. }
  destruct Hh as [h Hh]. exists h.
  split; [exact Hh|]. split; [apply Hrun; exact Hh|]. split.
  - intros tr1 H1.
    assert (Hnn : exists dd, lookup "data" props = Some dd
                             /\ dd <> JUndefined /\ dd <> JNull).
    { destruct (lookup "data" props) as [dd|] eqn:Hd.
      - destruct dd as [| |b|n|s|items|dprops];
          try (eexists; split; [reflexivity|]; split; discriminate);
          exfalso;
          destruct (handlers_first_line e props tr Hin
                      ltac:(rewrite Hd; tauto)) as [h' [line [msg [Hh' Hr]]]];
          rewrite Hh in Hh'; injection Hh' as <-; rewrite Hr in H1;
          discriminate H1.
      - exfalso.
        destruct (handlers_first_line e props tr Hin
                    ltac:(rewrite Hd; tauto)) as [h' [line [msg [Hh' Hr]]]].
        rewrite Hh in Hh'. injection Hh' as <-. rewrite Hr in H1.
        discriminate H1. }
    destruct Hnn as [dd [Hd [N1 N2]]].
    unfold handleWebhookEvent. unfold hbind at 1.
    rewrite (Hrun _ Hh), H1.
    unfold log_details, hbind, console, console_value, hresolve.
    rewrite !get_JObj, He, Hd. clear Hh Hrun H1 Hname He Hp.
    simpl in Hin.
    destruct Hin as [<-|[<-|[<-|[<-|[<-|[<-|[]]]]]]];
      destruct dd as [| |b|n|s|items|dprops]; try contradiction;
      eexists; cbn; rewrite <- ?app_assoc; reflexivity.
  - intros e1 tr1 H1. unfold handleWebhookEvent. unfold hbind at 1.
    rewrite (Hrun _ Hh), H1. reflexivity.
Qed.

End Handling.

(* ===================================================================== *)
(** ** Runs of the remaining operations on sample data *)
(* ===================================================================== *)

(** With the remote down, [getPublication] gives [null] after its one
    request and [getRecommendedPublications] the empty array. *)
Lemma publication_operations_default_witness :
  HashnodeService_getPublication IntJson.stringify env_down
    (hashnodeService env_down) []
  = (Fulfilled JNull,
     [service_call IntJson.stringify env_down (hashnodeService env_down)
        HashnodeQueries_getPublication (JObj [("host", JStr "notes.hashnode.dev")])])
  /\ fst (HashnodeService_getRecommendedPublications IntJson.stringify env_down
            (hashnodeService env_down) [])
     = Fulfilled (JArr []).
Proof.
  destruct (publication_operations_default IntJson.stringify env_down
              (hashnodeService env_down)) as [Hp Hr].
  split.
  - destruct (Hp []) as [_ [_ [Hrej _]]]. eapply Hrej. reflexivity.
  - destruct (Hr []) as [_ [_ [Hrej _]]]. erewrite Hrej; reflexivity.
Defined.

(** A request for fifty series asks for twenty; with the remote down the
    answer is the empty list. *)
Lemma list_operations_default_witness :
  HashnodeService_getSeriesList IntJson.stringify env_down
    (hashnodeService env_down) (Some 50) []
  = (Fulfilled [],
     [service_call IntJson.stringify env_down (hashnodeService env_down)
        HashnodeQueries_getSeriesList
        (JObj [("host", JStr "notes.hashnode.dev"); ("first", JNum 20)])])
  /\ snd (HashnodeService_getDrafts IntJson.stringify env_down
            (hashnodeService env_down) None [])
     = [service_call IntJson.stringify env_down (hashnodeService env_down)
          HashnodeQueries_getDrafts
          (JObj [("host", JStr "notes.hashnode.dev"); ("first", JNum 10)])].
Proof.
  split.
  - destruct (list_operations_default IntJson.stringify env_down
                (hashnodeService env_down) (Some 50)) as [_ [Hs _]].
    destruct (Hs []) as [_ [_ [Hrej _]]]. eapply Hrej. reflexivity.
  - destruct (list_operations_default IntJson.stringify env_down
                (hashnodeService env_down) None) as [_ [_ [_ Hd]]].
    exact (proj1 (Hd [])).
Defined.

Lemma trim_hello : trim " hello " <> "".
Proof. vm_compute. discriminate. Qed.

(** A blank slug is answered without a request; [" hello "] is looked up
    as [hello]. *)
Lemma slug_lookups_default_witness :
  HashnodeService_getSeries IntJson.stringify env_good (hashnodeService env_good)
    (bytes [32; 9; 194; 160; 10]) []
  = (Fulfilled JNull, [])
  /\ HashnodeService_getStaticPage IntJson.stringify env_down
       (hashnodeService env_down) " hello " []
     = (Fulfilled JNull,
        [service_call IntJson.stringify env_down (hashnodeService env_down)
           HashnodeQueries_getStaticPage
           (JObj [("host", JStr "notes.hashnode.dev"); ("slug", JStr "hello")])]).
Proof.
  split.
  - apply (proj1 (slug_lookups_default IntJson.stringify env_good
                    (hashnodeService env_good) (bytes [32; 9; 194; 160; 10]))
                 whitespace_only_sample []).
  - destruct (proj2 (slug_lookups_default IntJson.stringify env_down
                       (hashnodeService env_down) " hello ") trim_hello)
      as [_ Hpage].
    destruct (Hpage []) as [_ [_ [Hrej _]]]. eapply Hrej. reflexivity.
Defined.

(** A blank query is answered without a request; [" hello "] is searched
    as [hello]. *)
Lemma searchPosts_default_witness :
  HashnodeService_searchPosts IntJson.stringify env_good (hashnodeService env_good)
    (bytes [32; 9; 194; 160; 10]) None []
  = (Fulfilled [], [])
  /\ HashnodeService_searchPosts IntJson.stringify env_down
       (hashnodeService env_down) " hello " (Some 5) []
     = (Fulfilled [],
        [service_call IntJson.stringify env_down (hashnodeService env_down)
           HashnodeQueries_searchPosts
           (JObj [("first", JNum 5);
                  ("filter", JObj [("publicationId", JStr "notes.hashnode.dev");
                                   ("query", JStr "hello")])])]).
Proof.
  split.
  - apply (proj1 (searchPosts_default IntJson.stringify env_good
                    (hashnodeService env_good) (bytes [32; 9; 194; 160; 10]) None)
                 whitespace_only_sample []).
  - destruct (proj2 (searchPosts_default IntJson.stringify env_down
                       (hashnodeService env_down) " hello " (Some 5)) trim_hello [])
      as [_ [_ [Hrej _]]].
    eapply Hrej. reflexivity.
Defined.

Lemma getSeriesPosts_default_witness :
  HashnodeService_getSeriesPosts IntJson.stringify env_good
    (hashnodeService env_good) "" None []
  = (Fulfilled [], [])
  /\ HashnodeService_getSeriesPosts IntJson.stringify env_down
       (hashnodeService env_down) " hello " None []
     = (Fulfilled [],
        [service_call IntJson.stringify env_down (hashnodeService env_down)
           HashnodeQueries_getSeriesPosts
           (JObj [("host", JStr "notes.hashnode.dev");
                  ("seriesSlug", JStr "hello"); ("first", JNum 10)])]).
Proof.
  split.
  - apply (proj1 (getSeriesPosts_default IntJson.stringify env_good
                    (hashnodeService env_good) "" None)).
    exists []. split; [constructor | reflexivity].
  - destruct (proj2 (getSeriesPosts_default IntJson.stringify env_down
                       (hashnodeService env_down) " hello " None) trim_hello [])
      as [_ [_ [Hrej _]]].
    eapply Hrej. reflexivity.
Defined.

(** Comments come twenty at a time by default and never more than fifty. *)
Lemma getPostComments_default_witness :
  HashnodeService_getPostComments IntJson.stringify env_good
    (hashnodeService env_good) "" (Some 5) []
  = (Fulfilled [], [])
  /\ snd (HashnodeService_getPostComments IntJson.stringify env_down
            (hashnodeService env_down) " hello " None [])
     = [service_call IntJson.stringify env_down (hashnodeService env_down)
          HashnodeQueries_getPostComments
          (JObj [("postId", JStr "hello"); ("first", JNum 20)])]
  /\ snd (HashnodeService_getPostComments IntJson.stringify env_down
            (hashnodeService env_down) " hello " (Some 80) [])
     = [service_call IntJson.stringify env_down (hashnodeService env_down)
          HashnodeQueries_getPostComments
          (JObj [("postId", JStr "hello"); ("first", JNum 50)])].
Proof.
  split; [|split].
  - apply (proj1 (proj2 (getPostComments_default IntJson.stringify env_good
                           (hashnodeService env_good) "" (Some 5)))).
    exists []. split; [constructor | reflexivity].
  - exact (proj1 (proj2 (proj2 (getPostComments_default IntJson.stringify env_down
                                  (hashnodeService env_down) " hello " None))
                        trim_hello [])).
  - exact (proj1 (proj2 (proj2 (getPostComments_default IntJson.stringify env_down
                                  (hashnodeService env_down) " hello " (Some 80)))
                        trim_hello [])).
Defined.

(** On [env_catalog] the series list, one of whose two edges is [null],
    comes back empty, while both static pages come back. *)
Lemma edge_lists_all_or_nothing_witness :
  fst (HashnodeService_getSeriesList IntJson.stringify env_catalog
         (hashnodeService env_catalog) None [])
  = Fulfilled []
  /\ fst (HashnodeService_getStaticPages IntJson.stringify env_catalog
            (hashnodeService env_catalog) None [])
     = Fulfilled [JObj [("slug", JStr "about")]; JObj [("slug", JStr "contact")]].
Proof.
  split.
  - erewrite (proj1 (edge_lists_all_or_nothing IntJson.stringify env_catalog
                       (hashnodeService env_catalog) None [] _ catalog_envelope
                       [JObj [("node", JObj [("name", JStr "Basics")])]; JNull]
                       (or_introl eq_refl)));
      reflexivity.
  - erewrite (proj1 (proj2 (edge_lists_all_or_nothing IntJson.stringify env_catalog
                       (hashnodeService env_catalog) None [] _ catalog_envelope
                       [JObj [("node", JObj [("slug", JStr "about")])];
                        JObj [("node", JObj [("slug", JStr "contact")])]]
                       (or_introl eq_refl))));
      reflexivity.
Defined.

(** On [env_slow] the extended answer is used; on [env_posts_basic_only]
    the basic one, after the extended attempt was refused. *)
Lemma getBlogPosts_result_witness :
  fst (HashnodeService_getBlogPosts IntJson.stringify env_slow
         (hashnodeService env_slow) None [])
  = Fulfilled [sample_node]
  /\ HashnodeService_getBlogPosts IntJson.stringify env_posts_basic_only
       (hashnodeService env_posts_basic_only) None []
     = (Fulfilled [sample_node],
        [posts_call IntJson.stringify env_posts_basic_only
           (hashnodeService env_posts_basic_only) true 10;
         posts_call IntJson.stringify env_posts_basic_only
           (hashnodeService env_posts_basic_only) false 10]).
Proof.
  split.
  - erewrite (proj1 (getBlogPosts_result IntJson.stringify env_slow
                       (hashnodeService env_slow) None [])
                    posts_envelope _ [JObj [("node", sample_node)]]);
      [reflexivity | reflexivity | left; reflexivity | reflexivity | reflexivity].
  - eapply (proj2 (getBlogPosts_result IntJson.stringify env_posts_basic_only
                     (hashnodeService env_posts_basic_only) None [])
                  _ posts_envelope _ [JObj [("node", sample_node)]]).
    + right. left. exists tags_error_envelope. eexists. eexists.
      split; reflexivity.
    + reflexivity.
    + left. reflexivity.
    + reflexivity.
    + reflexivity.
Defined.

(** On [env_good] the post comes from the first answer; on
    [env_basic_only] from the second; on [env_slow], whose publication has
    no such post, the answer is [undefined] after the one request. *)
Lemma getBlogPostBySlug_result_witness :
  fst (HashnodeService_getBlogPostBySlug IntJson.stringify env_good
         (hashnodeService env_good) (JStr " hello ") [])
  = Fulfilled sample_node
  /\ HashnodeService_getBlogPostBySlug IntJson.stringify env_basic_only
       (hashnodeService env_basic_only) (JStr " hello ") []
     = (Fulfilled sample_node,
        [post_call IntJson.stringify env_basic_only
           (hashnodeService env_basic_only) true (JStr " hello ");
         post_call IntJson.stringify env_basic_only
           (hashnodeService env_basic_only) false (JStr " hello ")])
  /\ HashnodeService_getBlogPostBySlug IntJson.stringify env_slow
       (hashnodeService env_slow) (JStr " hello ") []
     = (Fulfilled JUndefined,
        [post_call IntJson.stringify env_slow (hashnodeService env_slow) true
           (JStr " hello ")]).
Proof.
  split; [|split].
  - erewrite (proj1 (getBlogPostBySlug_result IntJson.stringify env_good
                       (hashnodeService env_good) (JStr " hello ") []
                       valid_slug_hello)
                    post_envelope _ sample_node);
      [reflexivity | reflexivity | left; reflexivity | reflexivity].
  - eapply (proj2 (getBlogPostBySlug_result IntJson.stringify env_basic_only
                     (hashnodeService env_basic_only) (JStr " hello ") []
                     valid_slug_hello)
                  _ post_envelope _ sample_node).
    + right. left. exists tags_error_envelope. eexists. eexists.
      split; reflexivity.
    + reflexivity.
    + left. reflexivity.
    + reflexivity.
  - eapply (proj1 (getBlogPostBySlug_result IntJson.stringify env_slow
                     (hashnodeService env_slow) (JStr " hello ") []
                     valid_slug_hello)
                  posts_envelope _ JUndefined);
      [reflexivity | left; reflexivity | reflexivity].
Defined.

(** A 503 is reported with its status line and body; a 502 whose body
    breaks off is reported by the reader's message alone. *)
Lemma http_error_rejection_witness :
  fst (GraphQLClient_query IntJson.stringify env_unavailable API_URL
         {| query := HashnodeQueries_getPublication; variables := None |}
         {| opt_timeout := None; opt_headers := None |} [])
  = Rejected (GraphQLErrorObj "HTTP 503: Service Unavailable" (Some 503)
                (Some "Service Unavailable") (Some "upstream down"))
  /\ fst (GraphQLClient_query IntJson.stringify env_broken_body API_URL
            {| query := HashnodeQueries_getPublication; variables := None |}
            {| opt_timeout := None; opt_headers := None |} [])
     = Rejected (GraphQLErrorObj "terminated" None None None).
Proof.
  split.
  - eapply (proj1 (http_error_rejection IntJson.stringify env_unavailable API_URL
                     _ _ [] 40 _ eq_refl eq_refl)).
    reflexivity.
  - eapply (proj2 (http_error_rejection IntJson.stringify env_broken_body API_URL
                     _ _ [] 40 _ eq_refl eq_refl)).
    reflexivity.
Defined.

(** [fetch failed] is kept as the message; a thrown string is replaced. *)
Lemma network_failure_rejection_witness :
  fst (GraphQLClient_query IntJson.stringify env_down API_URL
         {| query := HashnodeQueries_getPublication; variables := None |}
         {| opt_timeout := None; opt_headers := None |} [])
  = Rejected (GraphQLErrorObj "fetch failed" None None None)
  /\ fst (GraphQLClient_query IntJson.stringify env_offline API_URL
            {| query := HashnodeQueries_getPublication; variables := None |}
            {| opt_timeout := None; opt_headers := None |} [])
     = Rejected (GraphQLErrorObj "Network request failed" None None None).
Proof.
  split.
  - eapply (proj1 (network_failure_rejection IntJson.stringify env_down API_URL
                     _ _ [] 3 _ eq_refl)).
    reflexivity.
  - eapply (proj2 (network_failure_rejection IntJson.stringify env_offline API_URL
                     _ _ [] 1 _ eq_refl)).
    reflexivity.
Defined.

(** On [env_html] the caller gets the reader's [SyntaxError] as it is: the
    second case of the classification is met. *)
Lemma rejection_is_GraphQLError_or_body_witness :
  GraphQLClient_query IntJson.stringify env_html API_URL
    {| query := HashnodeQueries_getPublication; variables := None |}
    {| opt_timeout := None; opt_headers := None |} []
  = (Rejected (ErrorObj ClsSyntaxError "Unexpected token < in JSON"),
     [query_call IntJson.stringify env_html API_URL
        {| query := HashnodeQueries_getPublication; variables := None |}
        {| opt_timeout := None; opt_headers := None |}])
  /\ exists d resp,
       remote env_html []
         (query_call IntJson.stringify env_html API_URL
            {| query := HashnodeQueries_getPublication; variables := None |}
            {| opt_timeout := None; opt_headers := None |})
       = {| delay_ms := Some d; reply := HttpResponse resp |}
       /\ ok resp = true
       /\ json resp = Rejected (ErrorObj ClsSyntaxError "Unexpected token < in JSON").
Proof.
  split; [reflexivity|].
  destruct (rejection_is_GraphQLError_or_body IntJson.stringify env_html API_URL
              {| query := HashnodeQueries_getPublication; variables := None |}
              {| opt_timeout := None; opt_headers := None |} []
              (ErrorObj ClsSyntaxError "Unexpected token < in JSON") _ eq_refl)
    as [[msg [st [stt [b H]]]] | H].
  - discriminate H.
  - exact H.
Defined.

(** The post list envelope validates to its data; the envelope of a
    refused query does not validate. *)
Lemma validateResponse_returns_witness :
  validateResponse posts_envelope = Return (data posts_envelope)
  /\ validateResponse tags_error_envelope
     = Throw (new_Error "GraphQL error: Cannot query field tags on type Post").
Proof.
  split.
  - apply (proj1 (validateResponse_returns posts_envelope)).
    split; [left; reflexivity | split; reflexivity].
  - apply (proj2 (validateResponse_returns tags_error_envelope)
                 {| message := "Cannot query field tags on type Post";
                    extensions_code := Some "GRAPHQL_VALIDATION_FAILED" |} []).
    reflexivity.
Defined.

(** The facade answers a number for a slug with [null] and sends nothing;
    on [env_flaky] it answers [null] after the two failed attempts. *)
Lemma facade_getBlogPostBySlug_null_witness :
  getBlogPostBySlug IntJson.stringify env_good (JNum 42) [] = (Fulfilled JNull, [])
  /\ getBlogPostBySlug IntJson.stringify env_flaky (JStr " hello ") []
     = (Fulfilled JNull,
        [post_call IntJson.stringify env_flaky (hashnodeService env_flaky) true
           (JStr " hello ");
         post_call IntJson.stringify env_flaky (hashnodeService env_flaky) false
           (JStr " hello ")]).
Proof.
  split.
  - apply (proj1 (facade_getBlogPostBySlug_null IntJson.stringify env_good
                    (JNum 42) [])).
    right. left. reflexivity.
  - destruct (facade_getBlogPostBySlug_null IntJson.stringify env_flaky
                (JStr " hello ") []) as [_ [Hboth _]].
    destruct (Hboth valid_slug_hello
                (new_Error "GraphQL error: Cannot query field tags on type Post")
                (GraphQLErrorObj "HTTP 503: Service Unavailable" (Some 503)
                   (Some "Service Unavailable") (Some "upstream down"))
                [post_call IntJson.stringify env_flaky (hashnodeService env_flaky)
                   true (JStr " hello ")]
                [post_call IntJson.stringify env_flaky (hashnodeService env_flaky)
                   true (JStr " hello ");
                 post_call IntJson.stringify env_flaky (hashnodeService env_flaky)
                   false (JStr " hello ")]
                eq_refl eq_refl) as [H _].
    exact H.
Defined.

(** A set host is used as it is; an empty one gives the placeholder. *)
Lemma publication_host_never_empty_witness :
  PUBLICATION_HOST env_good = "notes.hashnode.dev"
  /\ PUBLICATION_HOST env_blank_host = "yourblog.hashnode.dev".
Proof.
  split.
  - apply (proj1 (proj2 (publication_host_never_empty env_good))
                 "notes.hashnode.dev" eq_refl).
    discriminate.
  - apply (proj1 (proj2 (proj2 (publication_host_never_empty env_blank_host)))).
    right. reflexivity.
Defined.

Lemma sample_payload_text_accepted :
  parseWebhookPayload IntJson.parse (JStr sample_payload_text) = Return sample_payload.
Proof. vm_compute. reflexivity. Qed.

(** The parsed sample payload is the sample payload, and validating it
    again changes nothing. *)
Lemma parseWebhookPayload_sound_witness :
  IntJson.parse sample_payload_text = Return sample_payload
  /\ parseWebhookPayload IntJson.parse sample_payload = Return sample_payload.
Proof.
  destruct (parseWebhookPayload_sound IntJson.parse (JStr sample_payload_text)
              sample_payload sample_payload_text_accepted)
    as [_ [_ [Htext Hagain]]].
  split; [apply Htext; reflexivity | exact Hagain].
Defined.

(** The JSON text [null] is refused with a [TypeError], none of the three
    documented errors. *)
Lemma parseWebhookPayload_throws_witness :
  payload_data IntJson.parse (JStr "null") = Return JNull
  /\ parseWebhookPayload IntJson.parse (JStr "null")
     = Throw (new_TypeError "Cannot read properties of null (reading 'event')").
Proof.
  assert (H : parseWebhookPayload IntJson.parse (JStr "null")
              = Throw (new_TypeError
                         "Cannot read properties of null (reading 'event')"))
    by (vm_compute; reflexivity).
  destruct (parseWebhookPayload_throws IntJson.parse (JStr "null") _ H)
    as [[_ H1]|[H1|[[ev [shown [_ [_ H1]]]]|[[Hd _]|[[_ H1]|H1]]]]];
    try discriminate H1.
  split; [exact Hd | exact H].
Defined.

(** With a handler registered for the event it is the only thing that
    runs; with an empty table the call warns and fulfils. *)
Lemma processWebhook_dispatch_witness :
  processWebhook sample_payload [("POST_PUBLISHED", notify)] []
  = (Fulfilled tt, [Custom "notified" sample_payload])
  /\ processWebhook sample_payload [] []
     = (Fulfilled tt,
        [Console "warn" "No handler registered for event: POST_PUBLISHED" None]).
Proof.
  split.
  - destruct (processWebhook_dispatch IntJson.parse (JStr sample_payload_text)
                sample_payload [("POST_PUBLISHED", notify)] []
                sample_payload_text_accepted) as [e [He [_ Hrun]]].
    assert (E : e = "POST_PUBLISHED") by (cbv in He; congruence).
    subst e. exact Hrun.
  - destruct (processWebhook_dispatch IntJson.parse (JStr sample_payload_text)
                sample_payload [] [] sample_payload_text_accepted)
      as [e [He [_ Hrun]]].
    assert (E : e = "POST_PUBLISHED") by (cbv in He; congruence).
    subst e. exact Hrun.
Defined.

(** The signature of [{}] under [whsec] is accepted, hence 64 lower-case
    hexadecimal digits. *)
Lemma generateWebhookSignature_format_witness :
  String.length (generateWebhookSignature "{}" "whsec") = 64%nat
  /\ forallb lower_hex (list_ascii_of_string (generateWebhookSignature "{}" "whsec"))
     = true.
Proof.
  apply (proj2 (proj2 (generateWebhookSignature_format "{}" "whsec"))
               (generateWebhookSignature "{}" "whsec")).
  vm_compute. reflexivity.
Defined.

Lemma sample_request_accepted :
  POST IntJson.parse (Some "whsec") (signed_request sample_payload_text "whsec") []
  = (Fulfilled {| route_body := "Webhook processed successfully";
                  route_status := 200 |},
     snd (POST IntJson.parse (Some "whsec")
            (signed_request sample_payload_text "whsec") [])).
Proof. vm_compute. reflexivity. Qed.

(** The signed sample request is answered 200, so its payload was accepted
    and handled. *)
Lemma POST_success_requires_witness :
  exists d,
    parseWebhookPayload IntJson.parse (JStr sample_payload_text) = Return d
    /\ fst (handleWebhookEvent d (received d)) = Fulfilled tt.
Proof.
  destruct (POST_success_requires IntJson.parse (Some "whsec")
              (signed_request sample_payload_text "whsec") [] _ _
              sample_request_accepted eq_refl)
    as [payload [s [d [Hb [_ [_ [_ [_ [Hp Hh]]]]]]]]].
  injection Hb as <-. exists d. split; [exact Hp|].
  cbn [app] in Hh. rewrite Hh. reflexivity.
Defined.

(** Without a configured secret the answer is 500; without the signature
    header it is 401. *)
Lemma POST_unauthenticated_witness :
  POST IntJson.parse None (signed_request sample_payload_text "whsec") []
  = (Fulfilled {| route_body := "Webhook secret not configured";
                  route_status := 500 |},
     [Console "error" "❌ HASHNODE_WEBHOOK_SECRET not configured" None])
  /\ POST IntJson.parse (Some "whsec") (unsigned_request sample_payload_text) []
     = (Fulfilled {| route_body := "Invalid signature"; route_status := 401 |},
        [Console "log" "🔐 Verifying webhook signature..." None;
         Console "error" "❌ Invalid webhook signature - possible attack attempt"
           None]).
Proof.
  split.
  - apply (proj1 (POST_unauthenticated IntJson.parse None
                    (signed_request sample_payload_text "whsec")
                    sample_payload_text [] eq_refl)).
    left. reflexivity.
  - apply (proj2 (POST_unauthenticated IntJson.parse (Some "whsec")
                    (unsigned_request sample_payload_text)
                    sample_payload_text [] eq_refl)
                 "whsec" eq_refl).
    + discriminate.
    + right. discriminate.
Defined.

(** A signed [{}] is answered 400; the signed sample payload 200. *)
Lemma POST_authenticated_witness :
  POST IntJson.parse (Some "whsec") (signed_request "{}" "whsec") []
  = (Fulfilled {| route_body := "Invalid payload"; route_status := 400 |},
     [Console "log" "🔐 Verifying webhook signature..." None;
      Console "log" "✅ Signature verified successfully" None;
      Console "error" "❌ Invalid webhook payload:" (Some missing_fields_error)])
  /\ fst (POST IntJson.parse (Some "whsec")
            (signed_request sample_payload_text "whsec") [])
     = Fulfilled {| route_body := "Webhook processed successfully";
                    route_status := 200 |}.
Proof.
  split.
  - apply (proj1 (POST_authenticated IntJson.parse "whsec"
                    (signed_request "{}" "whsec") "{}" [] eq_refl
                    ltac:(discriminate) ltac:(discriminate) eq_refl)).
    vm_compute. reflexivity.
  - assert (Hne : sample_payload_text <> "") by (vm_compute; discriminate).
    rewrite (proj1 (proj2 (POST_authenticated IntJson.parse "whsec"
                             (signed_request sample_payload_text "whsec")
                             sample_payload_text [] eq_refl Hne
                             ltac:(discriminate) eq_refl))
                   sample_payload
                   (snd (handleWebhookEvent sample_payload (received sample_payload)))
                   sample_payload_text_accepted);
      [reflexivity | vm_compute; reflexivity].
Defined.

Lemma payload_without_data_accepted :
  parseWebhookPayload IntJson.parse (JStr payload_without_data_text)
  = Return payload_without_data.
Proof. vm_compute. reflexivity. Qed.

(** A correctly signed, valid payload that has no [data] entry is answered
    500. *)
Lemma handleWebhookEvent_needs_data_witness :
  fst (POST IntJson.parse (Some "whsec")
         (signed_request payload_without_data_text "whsec") [])
  = Fulfilled {| route_body := "Internal server error"; route_status := 500 |}.
Proof.
  apply (proj2 (handleWebhookEvent_needs_data IntJson.parse
                  payload_without_data_text payload_without_data []
                  payload_without_data_accepted (or_introl eq_refl))
               "whsec" (signed_request payload_without_data_text "whsec") eq_refl).
  - vm_compute. discriminate.
  - discriminate.
  - reflexivity.
Defined.

(** The sample payload finds its handler in the example's table. *)
Lemma handleWebhookEvent_complete_witness :
  exists handler,
    handler_for "POST_PUBLISHED" handlers = Some handler
    /\ processWebhook sample_payload handlers [] = handler sample_payload [].
Proof.
  destruct (handleWebhookEvent_complete IntJson.parse (JStr sample_payload_text)
              sample_payload [] sample_payload_text_accepted)
    as [h [Hh [Hrun _]]].
  exists h. split; [exact Hh | exact Hrun].
Defined.

(* ===================================================================== *)
(** ** Post navigation *)
(* ===================================================================== *)

Lemma element_in_range (posts : list JsValue) (i : Z) :
  Forall (fun p => truthy p = true) posts ->
  0 <= i < Z.of_nat (List.length posts) ->
  truthy (element posts i) = true.
Proof.
  intros Hall Hi. unfold element.
  destruct (Z.ltb_spec i 0) as [L|_]; [lia|].
  rewrite Forall_forall in Hall. apply Hall. apply nth_In. lia.
Qed.

Lemma element_out_of_range (posts : list JsValue) (i : Z) :
  i < 0 \/ Z.of_nat (List.length posts) <= i -> element posts i = JUndefined.
Proof.
  intros Hi. unfold element.
  destruct (Z.ltb_spec i 0) as [L|G]; [reflexivity|].
  apply nth_overflow. lia.
Qed.

Lemma or_null_truthy (v : JsValue) : truthy v = true -> or_null v = v /\ v <> JNull.
Proof.
  intros H. unfold or_null. rewrite H. split; [reflexivity|].
  intros ->. discriminate H.
Qed.

(** X29.  [buildPostNavigation] inside a list of posts: [current] is the
    post at the index; [previous] is [null] exactly at the first post and
    [next] exactly at the last; otherwise they are the neighbours, so that
    stepping forward and looking back gives the post one came from. *)
Theorem buildPostNavigation_neighbours (posts : list JsValue) (i : Z) :
  Forall (fun p => truthy p = true) posts ->
  0 <= i < Z.of_nat (List.length posts) ->
  let nav := buildPostNavigation posts i in
  current nav = nth (Z.to_nat i) posts JUndefined
  /\ (previous nav = JNull <-> i = 0)
  /\ (next nav = JNull <-> i = Z.of_nat (List.length posts) - 1)
  /\ (0 < i -> previous nav = current (buildPostNavigation posts (i - 1)))
  /\ (i + 1 < Z.of_nat (List.length posts) ->
      next nav = current (buildPostNavigation posts (i + 1))
      /\ previous (buildPostNavigation posts (i + 1)) = current nav).
Proof.
  intros Hall Hi nav. subst nav. cbn [buildPostNavigation previous current next].
  split; [|split; [|split; [|split]]].
  - unfold element. destruct (Z.ltb_spec i 0); [lia | reflexivity].
  - split.
    + intros H. destruct (Z.eq_dec i 0) as [E|N]; [exact E|]. exfalso.
      destruct (or_null_truthy _ (element_in_range posts (i - 1) Hall ltac:(lia)))
        as [E N']. rewrite E in H. contradiction.
    + intros ->. rewrite (element_out_of_range posts (0 - 1)) by lia. reflexivity.
  - split.
    + intros H.
      destruct (Z.eq_dec i (Z.of_nat (List.length posts) - 1)) as [E|N]; [exact E|].
      exfalso.
      destruct (or_null_truthy _ (element_in_range posts (i + 1) Hall ltac:(lia)))
        as [E N']. rewrite E in H. contradiction.
    + intros ->. rewrite (element_out_of_range posts _) by lia. reflexivity.
  - intros Hpos.
    apply (or_null_truthy _ (element_in_range posts (i - 1) Hall ltac:(lia))).
  - intros Hnext. split.
    + apply (or_null_truthy _ (element_in_range posts (i + 1) Hall ltac:(lia))).
    + replace (i + 1 - 1) with i by lia.
      apply (or_null_truthy _ (element_in_range posts i Hall Hi)).
Qed.

(** X30.  [buildPostNavigation] at the edges: [previous] and [next] are
    never [undefined], a missing or falsy neighbour being reported as
    [null]; but [current] is not guarded, and is [undefined] for an index
    outside the list (also for the empty list). *)
Theorem buildPostNavigation_unguarded_current (posts : list JsValue) (i : Z) :
  let nav := buildPostNavigation posts i in
  previous nav <> JUndefined /\ next nav <> JUndefined
  /\ (i < 0 \/ Z.of_nat (List.length posts) <= i -> current nav = JUndefined)
  /\ (i <= 0 \/ Z.of_nat (List.length posts) < i -> previous nav = JNull)
  /\ (i < -1 \/ Z.of_nat (List.length posts) - 1 <= i -> next nav = JNull).
Proof.
  cbn [buildPostNavigation previous current next].
  assert (Hnot : forall v, or_null v <> JUndefined).
  { intros v. unfold or_null. destruct (truthy v) eqn:T; [|discriminate].
    intros ->. discriminate T. }
  split; [apply Hnot|]. split; [apply Hnot|]. split; [|split].
  - apply element_out_of_range.
  - intros H. rewrite element_out_of_range by lia. reflexivity.
  - intros H. rewrite element_out_of_range by lia. reflexivity.
Qed.

(** In a list of two posts the first has no predecessor and the second no
    successor, and each is the other's neighbour. *)
Lemma buildPostNavigation_neighbours_witness :
  previous (buildPostNavigation [sample_post; sample_node] 0) = JNull
  /\ next (buildPostNavigation [sample_post; sample_node] 0) = sample_node
  /\ previous (buildPostNavigation [sample_post; sample_node] 1) = sample_post
  /\ next (buildPostNavigation [sample_post; sample_node] 1) = JNull.
Proof.
  assert (Hall : Forall (fun p => truthy p = true) [sample_post; sample_node])
    by (repeat constructor).
  destruct (buildPostNavigation_neighbours [sample_post; sample_node] 0 Hall
              ltac:(cbn; lia)) as [_ [Hp [_ [_ Hn]]]].
  destruct (buildPostNavigation_neighbours [sample_post; sample_node] 1 Hall
              ltac:(cbn; lia)) as [_ [_ [Hl [Hb _]]]].
  split; [apply Hp; reflexivity|]. split; [apply Hn; reflexivity|].
  split; [apply Hb; reflexivity | apply Hl; reflexivity].
Defined.

(** On the empty list everything but [current] is [null]. *)
Lemma buildPostNavigation_unguarded_current_witness :
  buildPostNavigation [] 0
  = {| previous := JNull; current := JUndefined; next := JNull |}.
Proof.
  destruct (buildPostNavigation_unguarded_current [] 0) as [_ [_ [Hc [Hp Hn]]]].
  destruct (buildPostNavigation [] 0) as [p c n] eqn:E.
  cbn [previous current next] in Hc, Hp, Hn.
  rewrite Hc, Hp, Hn by (cbn; lia). reflexivity.
Defined.
